(** * keras_contrib.initializers.convaware: the ConvolutionAware initializer

    A shallow embedding of [ConvolutionAware] and of the part of NumPy and
    Keras it calls, followed by the properties of its specification.

    Conventions of the embedding.
    - Floating-point numbers are idealised as real numbers: rounding, overflow
      and signed zeros are not modelled, the cast to [K.floatx()] is the
      identity.  The non-finite values that IEEE division by zero produces
      are kept ([npfloat]), since the variance rescaler can reach them.
    - Python 3 semantics: [/] is true division.
    - NumPy arrays are a shape and a C-contiguous (row-major) buffer.
    - The process-wide generator [np.random] is an explicit state threaded
      through every call; exceptions are values of [result]. *)

From Stdlib Require Import Reals Lra Lia List ZArith Permutation.
From stdpp Require Import gmap strings.
Import ListNotations.

(** ** Exceptions and results *)

Inductive exn :=
| ValueError
| ZeroDivisionError
| IndexError.

Inductive result (A : Type) :=
| Ok (a : A)
| Raise (e : exn).
Arguments Ok {A} a.
Arguments Raise {A} e.

(** ** Numbers *)

(** A NumPy floating-point scalar: a real number, an infinity, or NaN. *)
Inductive npfloat :=
| Finite (x : R)
| PosInf
| NegInf
| NaN.

#[global] Instance R_inhabited : Inhabited R := populate 0%R.
#[global] Instance npfloat_inhabited : Inhabited npfloat := populate NaN.

Definition is_finite (x : npfloat) : Prop :=
  match x with Finite _ => True | _ => False end.

(** The sign of a real number, as a three-way comparison with zero. *)
Definition Rsign (x : R) : comparison :=
  if Rlt_dec x 0 then Lt else if Rlt_dec 0 x then Gt else Eq.

Definition inf_of_sign (s : comparison) : npfloat :=
  match s with Gt => PosInf | Lt => NegInf | Eq => NaN end.

Definition sign_mul (s t : comparison) : comparison :=
  match s, t with
  | Eq, _ | _, Eq => Eq
  | Gt, Gt | Lt, Lt => Gt
  | _, _ => Lt
  end.

Definition npfloat_sign (x : npfloat) : option comparison :=
  match x with
  | Finite r => Some (Rsign r)
  | PosInf => Some Gt
  | NegInf => Some Lt
  | NaN => None
  end.

(** [x / y] on NumPy scalars: never raises; a zero divisor gives an
    infinity or NaN. *)
Definition np_true_divide (x y : npfloat) : npfloat :=
  match x, y with
  | NaN, _ | _, NaN => NaN
  | Finite a, Finite b =>
      match Rsign b with
      | Eq => inf_of_sign (Rsign a)
      | _ => Finite (a / b)
      end
  | Finite _, _ => Finite 0
  | _, Finite b =>
      match npfloat_sign x, Rsign b with
      | Some s, Eq => inf_of_sign s
      | Some s, t => inf_of_sign (sign_mul s t)
      | None, _ => NaN
      end
  | _, _ => NaN
  end.

(** [np.sqrt]. *)
Definition np_sqrt (x : npfloat) : npfloat :=
  match x with
  | Finite a => if Rlt_dec a 0 then NaN else Finite (sqrt a)
  | PosInf => PosInf
  | NegInf | NaN => NaN
  end.

(** [x * y] on NumPy scalars. *)
Definition np_multiply (x y : npfloat) : npfloat :=
  match x, y with
  | NaN, _ | _, NaN => NaN
  | Finite a, Finite b => Finite (a * b)
  | _, _ =>
      match npfloat_sign x, npfloat_sign y with
      | Some s, Some t => inf_of_sign (sign_mul s t)
      | _, _ => NaN
      end
  end.

(** The numbers [_compute_fans] returns: a Python [int] (an entry of the
    shape tuple) or a NumPy scalar ([np.int64] from [np.prod], [np.float64]
    from [np.sqrt]).  They differ in what a zero divisor does. *)
Inductive number :=
| PyInt (n : nat)
| NpScalar (x : R).

(** [2 / fan_in]. *)
Definition py_div_2 (fan_in : number) : result npfloat :=
  match fan_in with
  | PyInt 0 => Raise ZeroDivisionError
  | PyInt n => Ok (Finite (2 / INR n))
  | NpScalar x => Ok (np_true_divide (Finite 2) (Finite x))
  end.

(** ** Arrays *)

Record ndarray (A : Type) := mk_ndarray { shape : list nat; data : list A }.
Arguments mk_ndarray {A} shape data.
Arguments shape {A} _.
Arguments data {A} _.

(** [np.prod] of a tuple of dimensions. *)
Definition np_prod (dims : list nat) : nat := fold_right Nat.mul 1 dims.

(** The array owns as many elements as its shape says. *)
Definition well_formed {A} (a : ndarray A) : Prop :=
  length (data a) = np_prod (shape a).

(** Strides (in elements) of a C-contiguous array. *)
Fixpoint c_strides (dims : list nat) : list nat :=
  match dims with
  | [] => []
  | _ :: ds => np_prod ds :: c_strides ds
  end.

(** A strided view: one (extent, stride) pair per axis. *)
Definition view := list (nat * nat).

Definition c_view (dims : list nat) : view := combine dims (c_strides dims).

(** The buffer offsets met when a view is walked in row-major order. *)
Fixpoint walk (v : view) : list nat :=
  match v with
  | [] => [0]
  | (d, t) :: v' => flat_map (fun i => map (Nat.add (i * t)) (walk v')) (seq 0 d)
  end.

(** The buffer offset of a multi-index in a C-contiguous array. *)
Fixpoint ravel (dims idx : list nat) : nat :=
  match dims, idx with
  | _ :: ds, i :: idx' => i * np_prod ds + ravel ds idx'
  | _, _ => 0
  end.

(** [a[i, j, ...]] for an index within bounds. *)
Definition item {A} (a : ndarray A) (idx : list nat) : option A :=
  data a !! ravel (shape a) idx.

(** The array a view of [a]'s buffer denotes, copied out in row-major order. *)
Definition from_view {A} `{Inhabited A} (a : ndarray A) (v : view) : ndarray A :=
  {| shape := map fst v;
     data := map (fun o => nth o (data a) inhabitant) (walk v) |}.

(** [axes] is a permutation of [0 .. n-1]. *)
Definition is_axes (n : nat) (axes : list nat) : bool :=
  (length axes =? n) && forallb (fun k => existsb (Nat.eqb k) axes) (seq 0 n).

(** [a.transpose(axes)]: axis [i] of the result is axis [axes[i]] of [a]. *)
Definition np_transpose {A} `{Inhabited A} (a : ndarray A) (axes : list nat)
  : result (ndarray A) :=
  if is_axes (length (shape a)) axes then
    Ok (from_view a (map (fun ax => nth ax (c_view (shape a)) (0, 0)) axes))
  else Raise ValueError.

(** [a.T]: the axes reversed. *)
Definition np_T {A} `{Inhabited A} (a : ndarray A) : ndarray A :=
  from_view a (rev (c_view (shape a))).

(** [a.diagonal()] of a two-dimensional array (the only use here). *)
Definition np_diagonal (a : ndarray R) : ndarray R :=
  match shape a with
  | [r; c] =>
      {| shape := [Nat.min r c];
         data := map (fun i => nth (ravel [r; c] [i; i]) (data a) 0%R) (seq 0 (Nat.min r c)) |}
  | _ => {| shape := [0]; data := [] |}
  end.

(** [np.diag(v)] of a one-dimensional array: the square matrix with [v] on
    its diagonal and zero elsewhere. *)
Definition np_diag (v : ndarray R) : ndarray R :=
  let n := length (data v) in
  {| shape := [n; n];
     data := flat_map (fun i => map (fun j => if i =? j then nth i (data v) 0%R else 0%R)
                                    (seq 0 n)) (seq 0 n) |}.

(** Elementwise [a + b] and [a - b] of arrays of one shape (every use here;
    broadcasting is not modelled). *)
Definition np_add (a b : ndarray R) : ndarray R :=
  {| shape := shape a; data := zip_with Rplus (data a) (data b) |}.

Definition np_subtract (a b : ndarray R) : ndarray R :=
  {| shape := shape a; data := zip_with Rminus (data a) (data b) |}.

(** [a.reshape(newshape)]. *)
Definition np_reshape {A} (a : ndarray A) (newshape : list nat) : result (ndarray A) :=
  if np_prod newshape =? length (data a)
  then Ok {| shape := newshape; data := data a |}
  else Raise ValueError.

(** The sub-arrays [a[0], a[1], ...] that iterating over [a] yields. *)
Definition subarrays {A} (a : ndarray A) : list (ndarray A) :=
  match shape a with
  | [] => []
  | d :: ds =>
      map (fun i => {| shape := ds;
                       data := take (np_prod ds) (drop (i * np_prod ds) (data a)) |})
          (seq 0 d)
  end.

(** [a.tolist()] of a two-dimensional array: its rows. *)
Definition tolist {A} (a : ndarray A) : list (list A) := map data (subarrays a).

(** [np.array(l)] of a list of arrays of one shape: stacked along a new
    first axis. *)
Definition np_stack {A} (l : list (ndarray A)) : ndarray A :=
  {| shape := length l :: match l with a :: _ => shape a | [] => [] end;
     data := concat (map data l) |}.

(** [np.array(rows)] of a list of lists of numbers. *)
Definition np_array {A} (rows : list (list A)) : ndarray A :=
  np_stack (map (fun r => {| shape := [length r]; data := r |}) rows).

Definition Rsum (l : list R) : R := fold_right Rplus 0%R l.

Definition mean (l : list R) : R := (Rsum l / INR (length l))%R.

(** The population variance [mean(|x - mean(x)|**2)] of a non-empty list. *)
Definition variance_of (l : list R) : R :=
  mean (map (fun x => ((x - mean l) * (x - mean l))%R) l).

(** [np.var(a)] over all elements; NaN for an empty array. *)
Definition np_var (a : ndarray R) : npfloat :=
  match data a with
  | [] => NaN
  | _ => Finite (variance_of (data a))
  end.

(** The shape of [np.fft.rfft], [rfft2] and [rfftn] of a real array of
    shape [s] whose extents are all positive: the last axis [n] becomes
    [n // 2 + 1]. *)
Fixpoint rfft_shape (s : list nat) : list nat :=
  match s with
  | [] => []
  | [n] => [n / 2 + 1]
  | d :: s' => d :: rfft_shape s'
  end.

(** [correct_fft(np.zeros(s)).shape] for [np.fft.rfft], [rfft2] or [rfftn]
    over all the axes of [s]: a transform along an axis of extent 0 raises
    [ValueError] (invalid number of data points). *)
Definition np_fft_rfft_shape (s : list nat) : result (list nat) :=
  if forallb (Nat.ltb 0) s then Ok (rfft_shape s) else Raise ValueError.

(** ** The random generator and the monad of the program *)

(** The state of [np.random]: the sequence of standard normal draws its
    current seeding determines, and how many of them have been consumed. *)
Record RNG := mk_RNG { stream : nat -> R; pos : nat }.

Definition M (A : Type) : Type := RNG -> result A * RNG.

Definition ret {A} (a : A) : M A := fun g => (Ok a, g).

Definition raise {A} (e : exn) : M A := fun g => (Raise e, g).

Definition bind {A B} (m : M A) (k : A -> M B) : M B :=
  fun g => match m g with
           | (Ok a, g') => k a g'
           | (Raise e, g') => (Raise e, g')
           end.

Definition lift {A} (r : result A) : M A := fun g => (r, g).

Declare Scope prog_scope.
Delimit Scope prog_scope with prog.
Notation "x <- m ;; k" := (bind m (fun x => k))
  (at level 100, m at next level, right associativity) : prog_scope.
Notation "m ;;; k" := (bind m (fun _ => k))
  (at level 100, right associativity) : prog_scope.
Open Scope prog_scope.

(** [for x in l: s = body(x, s)]. *)
Fixpoint for_each {A S} (l : list A) (body : A -> S -> M S) (s : S) : M S :=
  match l with
  | [] => ret s
  | x :: l' => s' <- body x s ;; for_each l' body s'
  end.

(** [[f(x) for x in l]]. *)
Fixpoint mapM {A B} (f : A -> M B) (l : list A) : M (list B) :=
  match l with
  | [] => ret []
  | x :: l' => y <- f x ;; ys <- mapM f l' ;; ret (y :: ys)
  end.

(** One standard normal draw. *)
Definition gauss : M R :=
  fun g => (Ok (stream g (pos g)), {| stream := stream g; pos := S (pos g) |}).

Fixpoint gauss_n (n : nat) : M (list R) :=
  match n with
  | 0 => ret []
  | S n' => z <- gauss ;; zs <- gauss_n n' ;; ret (z :: zs)
  end.

(** [np.random.normal(loc, scale, size)]: [loc + scale * z] for successive
    standard normal draws [z]; a negative scale is refused. *)
Definition np_random_normal (loc scale : R) (size : list nat) : M (ndarray R) :=
  if Rlt_dec scale 0 then raise ValueError
  else zs <- gauss_n (np_prod size) ;;
       ret {| shape := size; data := map (fun z => (loc + scale * z)%R) zs |}.

(** ** Keras *)

(** [K.image_data_format()]. *)
Inductive data_format := channels_last | channels_first.

(** What the initializer returns: a NumPy array on the spectral path, a
    backend variable holding one on the fallback path. *)
Inductive tensor :=
| NpArray (a : ndarray npfloat)
| KVariable (a : ndarray R).

(** [K.variable(value, dtype=K.floatx())]. *)
Definition K_variable (value : ndarray R) : tensor := KVariable value.

(** The Keras initializer [Orthogonal(gain=1.0, seed=None)]. *)
Record Orthogonal := mk_Orthogonal { gain : R; orthogonal_seed : option Z }.

Definition Orthogonal_init : Orthogonal :=
  {| gain := 1%R; orthogonal_seed := None |}.

(** Modelled from the spec: [keras.initializers._compute_fans], which this
    repository imports and does not define.  For convolution kernels (rank 3,
    4, 5) the fans are the receptive field size times a channel count, the
    positions of the channel axes following the data format.  Where the
    specification is silent the definition follows Keras: a matrix has its
    two dimensions, Python integers, as fans; any other shape the square
    root of its size. *)
Definition _compute_fans (shape : list nat) (fmt : data_format) : number * number :=
  match length shape with
  | 2 => (PyInt (nth 0 shape 0), PyInt (nth 1 shape 0))
  | 3 | 4 | 5 =>
      match fmt with
      | channels_first =>
          let receptive_field_size := np_prod (drop 2 shape) in
          (NpScalar (INR (nth 1 shape 0 * receptive_field_size)),
           NpScalar (INR (nth 0 shape 0 * receptive_field_size)))
      | channels_last =>
          let receptive_field_size := np_prod (take (length shape - 2) shape) in
          (NpScalar (INR (nth (length shape - 2) shape 0 * receptive_field_size)),
           NpScalar (INR (nth (length shape - 1) shape 0 * receptive_field_size)))
      end
  | _ => (NpScalar (sqrt (INR (np_prod shape))), NpScalar (sqrt (INR (np_prod shape))))
  end.

(** The collaborators the module takes from NumPy and Keras and the global
    settings it reads. *)
Record env := mk_env {
  (** the standard normal draws that follow [np.random.seed(s)] *)
  seed_stream : Z -> nat -> R;
  (** [np.linalg.svd(a)]: the triple [(u, s, vh)] *)
  np_linalg_svd : ndarray R -> ndarray R * ndarray R * ndarray R;
  (** [np.fft.irfft(a, n)], [np.fft.irfft2(a, s)], [np.fft.irfftn(a, s)] *)
  np_fft_irfft : ndarray R -> nat -> ndarray R;
  np_fft_irfft2 : ndarray R -> list nat -> ndarray R;
  np_fft_irfftn : ndarray R -> list nat -> ndarray R;
  (** [Orthogonal.__call__(shape)] *)
  Orthogonal_call : Orthogonal -> list nat -> M (ndarray R);
  (** [K.image_data_format()] *)
  image_data_format : data_format
}.

(** [np.random.seed(s)]: reseeds the generator; a seed outside
    [0 .. 2**32 - 1] is refused. *)
Definition np_random_seed (E : env) (s : Z) : M unit :=
  fun g => if ((0 <=? s) && (s <? 2 ^ 32))%Z
           then (Ok tt, {| stream := seed_stream E s; pos := 0 |})
           else (Raise ValueError, g).

(** ** The class ConvolutionAware *)

Module ConvolutionAware.

Record t := mk {
  eps_std : R;
  seed : option Z;
  orthogonal : Orthogonal
}.

(** [__init__(self, eps_std=0.05, seed=None)]. *)
Definition __init__ (eps_std : R) (seed : option Z) : t :=
  {| eps_std := eps_std; seed := seed; orthogonal := Orthogonal_init |}.

Definition default_eps_std : R := (5 / 100)%R.

(** [_symmetrize(self, a)]. *)
Definition _symmetrize (a : ndarray R) : ndarray R :=
  np_subtract (np_add a (np_T a)) (np_diag (np_diagonal a)).

(** [_scale_filters(self, filters, variance)]. *)
Definition _scale_filters (filters : ndarray R) (variance : npfloat) : ndarray npfloat :=
  let c_var := np_var filters in
  let p := np_sqrt (np_true_divide variance c_var) in
  {| shape := shape filters; data := map (fun x => np_multiply (Finite x) p) (data filters) |}.

Section Methods.

Context (E : env) (self : t).

(** [_create_basis(self, filters, size)]. *)
Definition _create_basis (filters size : nat) : M (ndarray R) :=
  if size =? 1 then
    np_random_normal 0 (eps_std self) [filters; size]
  else
    let nbb := filters / size + 1 in
    li <- for_each (seq 0 nbb)
            (fun _ li =>
               a <- np_random_normal 0 1 [size; size] ;;
               let a := _symmetrize a in
               let '(u, _, v) := np_linalg_svd E a in
               ret (li ++ tolist (np_T u)))
            [] ;;
    ret (np_array (take filters li)).

(** The rank dispatch of [__call__]: the transpose dimensions, the kernel
    shape, the inverse transform, [stack_size] and [filters_size]; [None]
    for a rank that is not 3, 4 or 5. *)
Definition dispatch (shape : list nat)
  : option (list nat * list nat * (ndarray R -> list nat -> ndarray R) * nat * nat) :=
  match shape with
  | [row; stack_size; filters_size] =>
      Some ([2; 1; 0], [row],
            (fun x s => np_fft_irfft E x (nth 0 s 0)),
            stack_size, filters_size)
  | [row; column; stack_size; filters_size] =>
      Some ([2; 3; 0; 1], [row; column], np_fft_irfft2 E, stack_size, filters_size)
  | [x; y; z; stack_size; filters_size] =>
      Some ([3; 4; 0; 1; 2], [x; y; z], np_fft_irfftn E, stack_size, filters_size)
  | _ => None
  end.

(** The body of the loop [for i in range(filters_size)]. *)
Definition make_filters (kernel_shape kernel_fourier_shape : list nat)
    (correct_ifft : ndarray R -> list nat -> ndarray R) (stack_size : nat)
  : M (list (ndarray R)) :=
  basis <- _create_basis stack_size (np_prod kernel_fourier_shape) ;;
  basis <- lift (np_reshape basis (stack_size :: kernel_fourier_shape)) ;;
  mapM (fun x =>
          noise <- np_random_normal 0 (eps_std self) kernel_shape ;;
          ret (np_add (correct_ifft x kernel_shape) noise))
       (subarrays basis).

(** [__call__(self, shape)]. *)
Definition __call__ (shape : list nat) : M tensor :=
  match seed self with
  | Some s => np_random_seed E s
  | None => ret tt
  end ;;;
  let '(fan_in, fan_out) := _compute_fans shape (image_data_format E) in
  variance <- lift (py_div_2 fan_in) ;;
  match dispatch shape with
  | None =>
      q <- Orthogonal_call E (orthogonal self) shape ;;
      ret (K_variable q)
  | Some (transpose_dimensions, kernel_shape, correct_ifft, stack_size, filters_size) =>
      kernel_fourier_shape <- lift (np_fft_rfft_shape kernel_shape) ;;
      init <- for_each (seq 0 filters_size)
                (fun _ init =>
                   filters <- make_filters kernel_shape kernel_fourier_shape
                                           correct_ifft stack_size ;;
                   ret (init ++ [filters]))
                [] ;;
      let init := np_stack (map np_stack init) in
      let init := _scale_filters init variance in
      r <- lift (np_transpose init transpose_dimensions) ;;
      ret (NpArray r)
  end.

End Methods.

(** The values a configuration dictionary holds. *)
Inductive pyvalue :=
| PyFloat (x : R)
| PyInteger (z : Z)
| PyNone.

(** [get_config(self)]. *)
Definition get_config (self : t) : gmap string pyvalue :=
  {[ "eps_std" := PyFloat (eps_std self);
     "seed" := match seed self with Some s => PyInteger s | None => PyNone end ]}.

(** Building an initializer from a configuration dictionary, as Keras's
    [Initializer.from_config(config)] does: [__init__] called with the
    entries of [config] as keyword arguments.  A missing key takes the
    default of [__init__]; [None] stands for Python's [TypeError] on an
    unexpected keyword, and for values the record has no place for. *)
Definition from_config (config : gmap string pyvalue) : option t :=
  if decide (dom config ⊆ ({[ "eps_std"; "seed" ]} : gset string)) then
    eps ← match config !! "eps_std" with
           | None => Some default_eps_std
           | Some (PyFloat x) => Some x
           | Some (PyInteger z) => Some (IZR z)
           | Some PyNone => None
           end;
    sd ← match config !! "seed" with
          | None | Some PyNone => Some None
          | Some (PyInteger z) => Some (Some z)
          | Some (PyFloat _) => None
          end;
    Some (__init__ eps sd)
  else None.

End ConvolutionAware.

(** ** Auxiliary notions used by the statements *)

(** The buffer offset a view gives a multi-index. *)
Fixpoint offset (idx : list nat) (v : view) : nat :=
  match idx, v with
  | i :: idx', (_, t) :: v' => i * t + offset idx' v'
  | _, _ => 0
  end.

(** The multi-indices of an array of the given shape, in row-major order. *)
Fixpoint indices (dims : list nat) : list (list nat) :=
  match dims with
  | [] => [[]]
  | d :: ds => flat_map (fun i => map (cons i) (indices ds)) (seq 0 d)
  end.

(** The generator after [n] more draws. *)
Definition advance (g : RNG) (n : nat) : RNG :=
  {| stream := stream g; pos := pos g + n |}.

(** The array [np.random.normal(loc, scale, size)] returns in state [g]. *)
Definition normal_array (g : RNG) (loc scale : R) (size : list nat) : ndarray R :=
  {| shape := size;
     data := map (fun k => (loc + scale * stream g (pos g + k))%R) (seq 0 (np_prod size)) |}.

(** The generator state [__call__] starts from: reseeded when a seed is
    configured. *)
Definition reseed (E : env) (seed : option Z) (g : RNG) : RNG :=
  match seed with
  | Some s => {| stream := seed_stream E s; pos := 0 |}
  | None => g
  end.

(** A seed [np.random.seed] accepts. *)
Definition seed_ok (seed : option Z) : Prop :=
  match seed with
  | Some s => (0 <= s < 2 ^ 32)%Z
  | None => True
  end.

(** [m], run in state [g], returns normally with a value satisfying [P]. *)
Definition returns {A} (m : M A) (g : RNG) (P : A -> Prop) : Prop :=
  exists a g', m g = (Ok a, g') /\ P a.

(** [m], run in state [g], raises [e]. *)
Definition raises {A} (m : M A) (g : RNG) (e : exn) : Prop :=
  exists g', m g = (Raise e, g').

(** The shape of the array [__call__] returns for a shape of rank 3, 4 or
    5: the filters-first bank (filters, stack, kernel dimensions) permuted by the
    transpose dimensions of the rank. *)
Definition returned_shape (shape : list nat) : list nat :=
  match shape with
  | [row; stack_size; filters_size] => [row; stack_size; filters_size]
  | [row; column; stack_size; filters_size] => [row; column; filters_size; stack_size]
  | [x; y; z; stack_size; filters_size] => [y; z; filters_size; stack_size; x]
  | _ => shape
  end.

(** The fan-in of a convolution kernel in the words of the specification:
    the product of the spatial dimensions times the input channels, for a
    shape (spatial dimensions, in_channels, out_channels). *)
Definition conv_fan_in (shape : list nat) : nat :=
  np_prod (take (length shape - 2) shape) * nth (length shape - 2) shape 0.

(** The rank is one the spectral path handles. *)
Definition supported_rank (shape : list nat) : Prop :=
  length shape = 3 \/ length shape = 4 \/ length shape = 5.

(** The inner product of two vectors. *)
Definition dot (x y : list R) : R := Rsum (zip_with Rmult x y).

(** Entry [(i, j)] of an [n] by [n] matrix. *)
Definition entry (n : nat) (u : ndarray R) (i j : nat) : R :=
  nth (i * n + j) (data u) 0%R.

(** The columns of an [n] by [n] matrix are orthonormal. *)
Definition orthonormal_columns (n : nat) (u : ndarray R) : Prop :=
  forall i j, i < n -> j < n ->
    Rsum (map (fun k => (entry n u k i * entry n u k j)%R) (seq 0 n))
    = if decide (i = j) then 1%R else 0%R.

(** What the program relies on from [np.linalg.svd]: for a square matrix,
    [u] is square of the same order with orthonormal columns. *)
Definition svd_contract (E : env) : Prop :=
  forall a n, shape a = [n; n] -> well_formed a ->
    let u := (np_linalg_svd E a).1.1 in
    shape u = [n; n] /\ well_formed u /\ orthonormal_columns n u.

(** What the program relies on from the inverse transforms: the result has
    the requested shape. *)
Definition irfft_contract (E : env) : Prop :=
  (forall x n, shape (np_fft_irfft E x n) = [n] /\ well_formed (np_fft_irfft E x n)) /\
  (forall x s, shape (np_fft_irfft2 E x s) = s /\ well_formed (np_fft_irfft2 E x s)) /\
  (forall x s, shape (np_fft_irfftn E x s) = s /\ well_formed (np_fft_irfftn E x s)).

(** What the fallback relies on from Keras's [Orthogonal], built with a seed
    its generator accepts and called on a shape with positive entries: on a
    shape of fewer than two dimensions it raises [IndexError] (it slices the
    result with [shape[0]] and [shape[1]]); on any other it returns an array
    of that shape. *)
Definition orthogonal_contract (E : env) : Prop :=
  forall o shape0 g,
    seed_ok (orthogonal_seed o) -> Forall (lt 0) shape0 ->
    (length shape0 < 2 -> raises (Orthogonal_call E o shape0) g IndexError)
    /\ (2 <= length shape0 ->
        returns (Orthogonal_call E o shape0) g
                (fun q => shape q = shape0 /\ well_formed q)).

(** One block of candidate basis rows of [_create_basis], drawn in state
    [g]: the rows of [u.T] for the decomposition of the symmetrised sample. *)
Definition basis_block (E : env) (size : nat) (g : RNG) : list (list R) :=
  tolist (np_T (np_linalg_svd E
                  (ConvolutionAware._symmetrize (normal_array g 0 1 [size; size]))).1.1).

(** The real numbers of a list of finite scalars; [None] if one is not. *)
Fixpoint finite_part (l : list npfloat) : option (list R) :=
  match l with
  | [] => Some []
  | Finite x :: l' => option_map (cons x) (finite_part l')
  | _ :: _ => None
  end.

(** [np.var] of an array of scalars: NaN as soon as one is not finite. *)
Definition np_var_float (a : ndarray npfloat) : npfloat :=
  match data a, finite_part (data a) with
  | _ :: _, Some l => Finite (variance_of l)
  | _, _ => NaN
  end.

(** The conventional symmetrisation [(a + a.T) / 2], for comparison with
    [_symmetrize]. *)
Definition conventional_symmetrize (a : ndarray R) : ndarray R :=
  {| shape := shape a; data := map (fun x => (x / 2)%R) (data (np_add a (np_T a))) |}.

(** [ceil(count / dim)], the number of blocks the specification names. *)
Definition ceil_div (count dim : nat) : nat := (count + dim - 1) / dim.

(** ** A reference environment

    Exact where the program's behaviour is decided by it (the inverse real
    transforms, the steps of the fallback initializer), a stand-in elsewhere
    (the generator's draws, the decompositions). *)

Definition hermitian_weight (n k : nat) : R :=
  if (k =? 0) || (Nat.even n && (k =? n / 2)) then 1%R else 2%R.

Fixpoint phase (s j k : list nat) : R :=
  match s, j, k with
  | n :: s', jd :: j', kd :: k' => (INR (jd * kd) / INR n + phase s' j' k')%R
  | _, _, _ => 0%R
  end.

(** [np.fft.irfftn(a, s)] of a real array [a] of shape [rfft_shape s]:
    the inverse transform of the Hermitian extension of [a]. *)
Definition irfftn_real (a : ndarray R) (s : list nat) : ndarray R :=
  {| shape := s;
     data :=
       map (fun j =>
              (Rsum (map (fun k =>
                            hermitian_weight (List.last s 0%nat) (List.last k 0%nat)
                            * nth (ravel (rfft_shape s) k) (data a) 0
                            * cos (2 * PI * phase s j k))
                         (indices (rfft_shape s)))
               / INR (np_prod s))%R)
           (indices s) |}.

(** The identity matrix of order [n]. *)
Definition np_eye (n : nat) : ndarray R :=
  {| shape := [n; n];
     data := flat_map (fun i => map (fun j => if i =? j then 1%R else 0%R) (seq 0 n))
                      (seq 0 n) |}.

(** [np.eye(n, m)]. *)
Definition np_eye_rect (n m : nat) : ndarray R :=
  {| shape := [n; m];
     data := flat_map (fun i => map (fun j => if i =? j then 1%R else 0%R) (seq 0 m))
                      (seq 0 n) |}.

(** Modelled from Keras: [keras.initializers.Orthogonal.__call__(shape)],
    which this repository imports and does not define.  [svd_reduced]
    stands for [np.linalg.svd(a, full_matrices=False)].  With a seed the
    draws come from a generator of the call's own,
    [np.random.RandomState(seed)], and the global one is left alone; the
    increment of the seed that follows changes the [Orthogonal] object for
    later calls only.  The slice [q[:shape[0], :shape[1]]] of an array of
    shape [shape] is the whole array; on a shape of one dimension the index
    [shape[1]] raises. *)
Definition keras_Orthogonal_call (seed_stream : Z -> nat -> R)
    (svd_reduced : ndarray R -> ndarray R * ndarray R * ndarray R)
    (self : Orthogonal) (shape0 : list nat) : M (ndarray R) :=
  match shape0 with
  | [] => raise IndexError
  | _ :: _ =>
      let num_rows := np_prod (removelast shape0) in
      let num_cols := List.last shape0 0 in
      let flat_shape := [num_rows; num_cols] in
      a <- match orthogonal_seed self with
           | None => np_random_normal 0 1 flat_shape
           | Some s =>
               fun g =>
                 if ((0 <=? s) && (s <? 2 ^ 32))%Z
                 then (fst (np_random_normal 0 1 flat_shape
                              {| stream := seed_stream s; pos := 0 |}), g)
                 else (Raise ValueError, g)
           end ;;
      let '(u, _, v) := svd_reduced a in
      let q := if decide (shape u = flat_shape) then u else v in
      q <- lift (np_reshape q shape0) ;;
      match shape0 with
      | _ :: _ :: _ =>
          ret {| shape := shape q; data := map (Rmult (gain self)) (data q) |}
      | _ => raise IndexError
      end
  end.

(** A stand-in for the reduced decomposition of an [m] by [n] matrix:
    factors of the shapes [(m, k)], [(k,)] and [(k, n)], [k = min(m, n)]. *)
Definition reference_svd_reduced (a : ndarray R) : ndarray R * ndarray R * ndarray R :=
  let m := nth 0 (shape a) 0 in
  let n := nth 1 (shape a) 0 in
  let k := Nat.min m n in
  (np_eye_rect m k, {| shape := [k]; data := repeat 0%R k |}, np_eye_rect k n).

Definition reference_env : env :=
  {| seed_stream := fun s k => INR (Z.to_nat s + k);
     np_linalg_svd := fun a =>
       let n := hd 0 (shape a) in
       (np_eye n, {| shape := [n]; data := repeat 0%R n |}, np_eye n);
     np_fft_irfft := fun x n => irfftn_real x [n];
     np_fft_irfft2 := irfftn_real;
     np_fft_irfftn := irfftn_real;
     Orthogonal_call :=
       keras_Orthogonal_call (fun s k => INR (Z.to_nat s + k)) reference_svd_reduced;
     image_data_format := channels_last |}.

(** A generator state to run the reference environment from. *)
Definition reference_rng : RNG := {| stream := fun k => INR k; pos := 0 |}.

(** ** Further notions: generator accounting, rescaling, shapes *)

(** Whenever [m], run in state [g], returns normally, the generator has
    moved on by exactly [n] draws and the value satisfies [P]. *)
Definition steps {A} (m : M A) (g : RNG) (n : nat) (P : A -> Prop) : Prop :=
  forall a g', m g = (Ok a, g') -> g' = advance g n /\ P a.

(** The number of draws [_create_basis(filters, size)] consumes. *)
Definition basis_draws (filters size : nat) : nat :=
  if size =? 1 then np_prod [filters; size]
  else (filters / size + 1) * np_prod [size; size].

(** The number of draws the loop of [__call__] consumes: for each filter,
    one basis and one noise array per input channel. *)
Definition spectral_draws (kernel_shape : list nat) (stack_size filters_size : nat) : nat :=
  filters_size
  * (basis_draws stack_size (np_prod (rfft_shape kernel_shape))
     + stack_size * np_prod kernel_shape).

Definition call_draws (shape : list nat) : nat :=
  match shape with
  | [row; stack_size; filters_size] => spectral_draws [row] stack_size filters_size
  | [row; column; stack_size; filters_size] =>
      spectral_draws [row; column] stack_size filters_size
  | [x; y; z; stack_size; filters_size] =>
      spectral_draws [x; y; z] stack_size filters_size
  | _ => 0
  end.

(** The shapes [__call__] gives back unchanged: any of rank 3, those of
    rank 4 with as many filters as input channels, those of rank 5 whose
    three spatial extents and filter count coincide. *)
Definition shape_kept (shape : list nat) : Prop :=
  match shape with
  | [row; column; stack_size; filters_size] => stack_size = filters_size
  | [x; y; z; stack_size; filters_size] => x = y /\ y = z /\ z = filters_size
  | _ => True
  end.

(** [a * c] for an array and a real number. *)
Definition np_scale (a : ndarray R) (c : R) : ndarray R :=
  {| shape := shape a; data := map (fun x => (x * c)%R) (data a) |}.

(** The loop of [__call__] on its own, entered once the forward transform
    has given the frequency-domain shape of the kernel: the list [init] of
    [filters_size] lists of [stack_size] spatial kernels. *)
Definition filter_loop (E : env) (self : ConvolutionAware.t)
    (kernel_shape : list nat) (correct_ifft : ndarray R -> list nat -> ndarray R)
    (stack_size filters_size : nat) : M (list (list (ndarray R))) :=
  for_each (seq 0 filters_size)
    (fun _ init =>
       filters <- ConvolutionAware.make_filters E self kernel_shape
                    (rfft_shape kernel_shape) correct_ifft stack_size ;;
       ret (init ++ [filters]))
    [].

(** [init[k][j]]: the kernel built for filter [k] and input channel [j]. *)
Definition kernel_of (init : list (list (ndarray R))) (k j : nat) : ndarray R :=
  nth j (nth k init []) {| shape := []; data := [] |}.
(** ** Walking views *)

Lemma length_flat_map_blocks {A} (f : nat -> list A) (m s d : nat) :
  (forall k, length (f k) = m) ->
  length (flat_map f (seq s d)) = d * m.
Proof.
  intros Hf. revert s. induction d as [|d IH]; intros s; simpl; [reflexivity|].
  rewrite length_app, Hf, IH. reflexivity.
Qed.

Lemma lookup_flat_map_blocks {A} (f : nat -> list A) (m s d i j : nat) :
  (forall k, length (f k) = m) -> i < d -> j < m ->
  flat_map f (seq s d) !! (i * m + j) = f (s + i) !! j.
Proof.
  intros Hf. revert s i. induction d as [|d IH]; intros s i Hi Hj; [lia|].
  simpl. destruct i as [|i].
  - rewrite lookup_app_l by (rewrite Hf; lia).
    simpl. rewrite Nat.add_0_r. reflexivity.
  - rewrite lookup_app_r by (rewrite Hf; simpl; lia).
    rewrite Hf. replace (S i * m + j - m) with (i * m + j) by (simpl; lia).
    rewrite IH by lia. replace (S s + i) with (s + S i) by lia. reflexivity.
Qed.

Lemma length_walk (v : view) : length (walk v) = np_prod (map fst v).
Proof.
  induction v as [|[d t] v IH]; simpl; [reflexivity|].
  rewrite (length_flat_map_blocks _ (np_prod (map fst v))).
  - reflexivity.
  - intros k. rewrite length_map. exact IH.
Qed.

Lemma walk_lookup (v : view) (idx : list nat) :
  Forall2 (fun i p => i < fst p) idx v ->
  walk v !! ravel (map fst v) idx = Some (offset idx v).
Proof.
  intros H. induction H as [|i [d t] idx v Hi _ IH]; simpl; [reflexivity|].
  simpl in Hi.
  assert (Hr : ravel (map fst v) idx < np_prod (map fst v)).
  { apply lookup_lt_Some in IH. rewrite length_walk in IH. exact IH. }
  rewrite (lookup_flat_map_blocks _ (np_prod (map fst v))); try assumption.
  - simpl. rewrite list_lookup_fmap, IH. reflexivity.
  - intros k. rewrite length_map. apply length_walk.
Qed.

Lemma ravel_2d (r c i j : nat) : ravel [r; c] [i; j] = i * c + j.
Proof. simpl. lia. Qed.

Lemma lookup_nth_lt {A} (l : list A) (i : nat) (d : A) :
  i < length l -> l !! i = Some (nth i l d).
Proof.
  intros Hi. destruct (lookup_lt_is_Some_2 l i Hi) as [x Hx].
  rewrite Hx. f_equal. symmetry. apply nth_lookup_Some. exact Hx.
Qed.

Lemma nth_map_seq {A} (f : nat -> A) (n i : nat) (d : A) :
  i < n -> nth i (map f (seq 0 n)) d = f i.
Proof.
  intros Hi. apply nth_lookup_Some.
  rewrite list_lookup_fmap, lookup_seq_lt by assumption. reflexivity.
Qed.

(** ** Matrices: transpose, diagonal *)

Lemma np_T_lookup {A} `{Inhabited A} (a : ndarray A) (r c i j : nat) :
  shape a = [r; c] -> i < c -> j < r ->
  data (np_T a) !! (i * r + j) = Some (nth (j * c + i) (data a) inhabitant).
Proof.
  intros Hs Hi Hj. unfold np_T, from_view. rewrite Hs. cbn [data].
  rewrite list_lookup_fmap.
  pose proof (walk_lookup [(c, 1); (r, c * 1)] [i; j]) as Hw.
  cbn [map fst ravel np_prod fold_right offset] in Hw.
  replace (i * r + j) with (i * (r * 1) + (j * 1 + 0)) by lia.
  unfold c_view. cbn [c_strides combine rev app np_prod fold_right].
  rewrite Hw.
  - cbn. do 2 f_equal. lia.
  - repeat constructor; simpl; assumption.
Qed.

Lemma np_T_shape {A} `{Inhabited A} (a : ndarray A) (r c : nat) :
  shape a = [r; c] -> shape (np_T a) = [c; r].
Proof. intros Hs. unfold np_T, from_view, c_view. rewrite Hs. reflexivity. Qed.

Lemma np_T_length {A} `{Inhabited A} (a : ndarray A) (r c : nat) :
  shape a = [r; c] -> length (data (np_T a)) = c * r.
Proof.
  intros Hs. unfold np_T, from_view, c_view. rewrite Hs. cbn [data].
  rewrite length_map, length_walk. simpl. lia.
Qed.

Lemma np_diag_diagonal_lookup (a : ndarray R) (n i j : nat) :
  shape a = [n; n] -> i < n -> j < n ->
  data (np_diag (np_diagonal a)) !! (i * n + j)
  = Some (if i =? j then entry n a i i else 0%R).
Proof.
  intros Hs Hi Hj. unfold np_diag, np_diagonal. rewrite Hs.
  cbn [data shape]. rewrite length_map, length_seq, Nat.min_id.
  rewrite (lookup_flat_map_blocks _ n) by
    (try assumption; intros; rewrite length_map, length_seq; reflexivity).
  rewrite list_lookup_fmap, lookup_seq_lt by assumption. cbn.
  destruct (i =? j); [|reflexivity].
  f_equal. rewrite nth_map_seq by assumption. unfold entry. f_equal. cbn. lia.
Qed.

Lemma np_diag_diagonal_length (a : ndarray R) (n : nat) :
  shape a = [n; n] -> length (data (np_diag (np_diagonal a))) = n * n.
Proof.
  intros Hs. unfold np_diag, np_diagonal. rewrite Hs. cbn [data shape].
  rewrite length_map, length_seq, Nat.min_id.
  apply length_flat_map_blocks. intros. rewrite length_map, length_seq. reflexivity.
Qed.

Lemma symmetrize_shape (a : ndarray R) : shape (ConvolutionAware._symmetrize a) = shape a.
Proof. reflexivity. Qed.

Lemma symmetrize_length (a : ndarray R) (n : nat) :
  shape a = [n; n] -> well_formed a ->
  length (data (ConvolutionAware._symmetrize a)) = n * n.
Proof.
  intros Hs Hw. unfold well_formed in Hw. rewrite Hs in Hw. simpl in Hw.
  unfold ConvolutionAware._symmetrize, np_subtract, np_add. cbn [data].
  rewrite !length_zip_with, (np_T_length a n n Hs), (np_diag_diagonal_length a n Hs).
  lia.
Qed.

Lemma symmetrize_lookup (a : ndarray R) (n i j : nat) :
  shape a = [n; n] -> well_formed a -> i < n -> j < n ->
  data (ConvolutionAware._symmetrize a) !! (i * n + j)
  = Some (if i =? j then entry n a i i
          else (entry n a i j + entry n a j i)%R).
Proof.
  intros Hs Hw Hi Hj.
  assert (Hlen : length (data a) = n * n).
  { unfold well_formed in Hw. rewrite Hs in Hw. simpl in Hw. lia. }
  unfold ConvolutionAware._symmetrize, np_subtract, np_add. cbn [data].
  rewrite !lookup_zip_with.
  rewrite (lookup_nth_lt (data a) (i * n + j) 0%R) by nia.
  rewrite (np_T_lookup a n n i j Hs Hi Hj).
  rewrite (np_diag_diagonal_lookup a n i j Hs Hi Hj).
  cbn. f_equal. unfold entry.
  destruct (Nat.eqb_spec i j) as [->|Hne]; cbn; lra.
Qed.

(** C6. For every square matrix [a] of order [n], [_symmetrize] computes
    [a + a.T - diag(diag(a))]: the result is square of the same order, its
    off-diagonal entry [(i, j)] is [a[i,j] + a[j,i]], its diagonal is that of
    [a], and it is symmetric.  The formula is not the conventional
    [(a + a.T) / 2]: the two differ on a matrix of order 2. *)
Theorem symmetrize_formula (a : ndarray R) (n : nat) :
  shape a = [n; n] -> well_formed a ->
  ConvolutionAware._symmetrize a
    = np_subtract (np_add a (np_T a)) (np_diag (np_diagonal a))
  /\ shape (ConvolutionAware._symmetrize a) = [n; n]
  /\ well_formed (ConvolutionAware._symmetrize a)
  /\ (forall i j, i < n -> j < n ->
        item (ConvolutionAware._symmetrize a) [i; j]
        = Some (if decide (i = j) then entry n a i i
                else (entry n a i j + entry n a j i)%R)
        /\ item (ConvolutionAware._symmetrize a) [j; i]
           = item (ConvolutionAware._symmetrize a) [i; j])
  /\ (exists b : ndarray R,
        shape b = [2; 2] /\ well_formed b
        /\ item (ConvolutionAware._symmetrize b) [0; 1]
           <> item (conventional_symmetrize b) [0; 1]).
Proof.
  intros Hs Hw.
  assert (Hitem : forall i j, i < n -> j < n ->
            item (ConvolutionAware._symmetrize a) [i; j]
            = Some (if decide (i = j) then entry n a i i
                    else (entry n a i j + entry n a j i)%R)).
  { intros i j Hi Hj. unfold item. rewrite symmetrize_shape, Hs, ravel_2d.
    rewrite (symmetrize_lookup a n i j Hs Hw Hi Hj).
    destruct (Nat.eqb_spec i j), (decide (i = j)); congruence. }
  split; [reflexivity|]. split; [rewrite symmetrize_shape; exact Hs|].
  split.
  { unfold well_formed. rewrite symmetrize_shape, Hs.
    rewrite (symmetrize_length a n Hs Hw). simpl. lia. }
  split.
  - intros i j Hi Hj. split; [apply Hitem; assumption|].
    rewrite !Hitem by assumption.
    destruct (decide (i = j)) as [->|Hne].
    + rewrite decide_True by reflexivity. reflexivity.
    + rewrite decide_False by congruence. f_equal. lra.
  - exists {| shape := [2; 2]; data := [0; 1; 0; 0]%R |}.
    split; [reflexivity|]. split; [reflexivity|].
    unfold item. cbn. intros Heq. injection Heq as Heq. lra.
Qed.

(** The matrix [[1, 2], [3, 4]]. *)
Lemma symmetrize_formula_witness :
  item (ConvolutionAware._symmetrize {| shape := [2; 2]; data := [1; 2; 3; 4]%R |}) [0; 1]
  = Some (2 + 3)%R.
Proof.
  pose proof (symmetrize_formula {| shape := [2; 2]; data := [1; 2; 3; 4]%R |} 2
                eq_refl eq_refl) as (_ & _ & _ & Hent & _).
  destruct (Hent 0 1 ltac:(lia) ltac:(lia)) as [H01 _].
  rewrite H01. reflexivity.
Defined.

(** ** The generator *)

Lemma advance_0 (g : RNG) : advance g 0 = g.
Proof. destruct g. unfold advance. cbn. f_equal. lia. Qed.

Lemma advance_advance (g : RNG) (n m : nat) :
  advance (advance g n) m = advance g (n + m).
Proof. unfold advance. cbn. f_equal. lia. Qed.

Lemma gauss_n_run (n : nat) (g : RNG) :
  gauss_n n g
  = (Ok (map (fun k => stream g (pos g + k)) (seq 0 n)), advance g n).
Proof.
  revert g. induction n as [|n IH]; intros g.
  - cbn. rewrite advance_0. reflexivity.
  - cbn [gauss_n]. unfold bind at 1. unfold gauss at 1.
    unfold bind at 1. rewrite IH. unfold ret. cbn [stream pos].
    f_equal.
    + f_equal. cbn [seq map]. rewrite Nat.add_0_r. f_equal.
      rewrite <- seq_shift, map_map. apply map_ext. intros k. f_equal. lia.
    + unfold advance. cbn. f_equal. lia.
Qed.

Lemma np_random_normal_run (loc scale : R) (size : list nat) (g : RNG) :
  ~ (scale < 0)%R ->
  np_random_normal loc scale size g
  = (Ok (normal_array g loc scale size), advance g (np_prod size)).
Proof.
  intros Hs. unfold np_random_normal.
  destruct (Rlt_dec scale 0) as [Hlt|_]; [contradiction|].
  unfold bind. rewrite gauss_n_run. unfold ret, normal_array.
  rewrite map_map. reflexivity.
Qed.

Lemma np_random_normal_negative (loc scale : R) (size : list nat) (g : RNG) :
  (scale < 0)%R -> np_random_normal loc scale size g = (Raise ValueError, g).
Proof.
  intros Hs. unfold np_random_normal.
  destruct (Rlt_dec scale 0) as [_|Hn]; [reflexivity|contradiction].
Qed.

Lemma normal_array_well_formed (g : RNG) (loc scale : R) (size : list nat) :
  well_formed (normal_array g loc scale size).
Proof. unfold well_formed, normal_array. cbn. rewrite length_map, length_seq. reflexivity. Qed.

(** ** The basis generator *)

Section CreateBasis.

Context (E : env) (self : ConvolutionAware.t).

(** The loop of [_create_basis]: [n] blocks are appended to [li], each
    drawn [size * size] samples after the one before. *)
Lemma basis_loop (size n s : nat) (li : list (list R)) (g : RNG) :
  for_each (seq s n)
    (fun _ li =>
       a <- np_random_normal 0 1 [size; size] ;;
       let a := ConvolutionAware._symmetrize a in
       let '(u, _, v) := np_linalg_svd E a in
       ret (li ++ tolist (np_T u)))
    li g
  = (Ok (li ++ concat (map (fun i => basis_block E size (advance g (i * np_prod [size; size])))
                           (seq 0 n))),
     advance g (n * np_prod [size; size])).
Proof.
  revert s li g. induction n as [|n IH]; intros s li g.
  - cbn. rewrite app_nil_r, advance_0. reflexivity.
  - cbn [seq for_each]. unfold bind at 1. unfold bind at 1.
    rewrite np_random_normal_run by lra.
    destruct (np_linalg_svd E (ConvolutionAware._symmetrize (normal_array g 0 1 [size; size])))
      as [[u sv] v] eqn:Hsvd.
    unfold ret at 1. rewrite IH. f_equal.
    + f_equal. rewrite <- app_assoc. f_equal.
      cbn [map concat]. f_equal.
      * unfold basis_block. cbn [Nat.mul]. rewrite advance_0, Hsvd. reflexivity.
      * rewrite <- seq_shift, map_map. f_equal. apply map_ext. intros i.
        rewrite advance_advance. reflexivity.
    + rewrite advance_advance. reflexivity.
Qed.

(** [_create_basis] for a vector length other than 1. *)
Lemma create_basis_run (filters size : nat) (g : RNG) :
  size <> 1 ->
  ConvolutionAware._create_basis E self filters size g
  = (Ok (np_array
           (take filters
              (concat (map (fun i => basis_block E size (advance g (i * np_prod [size; size])))
                           (seq 0 (filters / size + 1)))))),
     advance g ((filters / size + 1) * np_prod [size; size])).
Proof.
  intros Hsz. unfold ConvolutionAware._create_basis.
  destruct (Nat.eqb_spec size 1) as [?|_]; [contradiction|].
  pose proof (basis_loop size (filters / size + 1) 0 [] g) as Hloop.
  cbv zeta in Hloop |- *. unfold bind in Hloop |- *.
  rewrite Hloop. reflexivity.
Qed.

(** [_create_basis] for vectors of length 1. *)
Lemma create_basis_run_1 (filters : nat) (g : RNG) :
  ~ (ConvolutionAware.eps_std self < 0)%R ->
  ConvolutionAware._create_basis E self filters 1 g
  = (Ok (normal_array g 0 (ConvolutionAware.eps_std self) [filters; 1]),
     advance g (np_prod [filters; 1])).
Proof.
  intros He. unfold ConvolutionAware._create_basis. cbn [Nat.eqb].
  apply np_random_normal_run. exact He.
Qed.

End CreateBasis.

(** ** Stacking arrays and taking them apart *)

Lemma chunk_concat {A} (ls : list (list A)) (m i : nat) :
  Forall (fun l => length l = m) ls -> i < length ls ->
  take m (drop (i * m) (concat ls)) = nth i ls [].
Proof.
  intros Hall. revert i. induction Hall as [|l ls Hl _ IH]; intros i Hi.
  - simpl in Hi. lia.
  - destruct i as [|i]; cbn [concat nth].
    + cbn. apply take_app_length'. symmetry. exact Hl.
    + replace (S i * m) with (m + i * m) by lia.
      rewrite drop_app_add' by (symmetry; exact Hl).
      apply IH. simpl in Hi. lia.
Qed.

Lemma map_seq_nth {A} (l : list A) (f : nat -> A) (d : A) :
  (forall i, i < length l -> f i = nth i l d) ->
  map f (seq 0 (length l)) = l.
Proof.
  intros Hf. apply list_eq. intros i.
  rewrite list_lookup_fmap.
  destruct (Nat.lt_ge_cases i (length l)) as [Hi|Hi].
  - rewrite lookup_seq_lt by assumption. cbn. rewrite Hf by assumption.
    symmetry. apply lookup_nth_lt. assumption.
  - rewrite lookup_seq_ge by assumption. cbn. symmetry.
    apply lookup_ge_None_2. assumption.
Qed.

Lemma length_concat_uniform {A} (ls : list (list A)) (m : nat) :
  Forall (fun l => length l = m) ls -> length (concat ls) = length ls * m.
Proof.
  induction 1 as [|l ls Hl _ IH]; [reflexivity|].
  cbn. rewrite length_app, IH, Hl. reflexivity.
Qed.

Lemma np_stack_shape {A} (l : list (ndarray A)) (s : list nat) :
  l <> [] -> Forall (fun a => shape a = s /\ well_formed a) l ->
  shape (np_stack l) = length l :: s.
Proof.
  intros Hne Hall. destruct l as [|a l]; [contradiction|].
  unfold np_stack. cbn [shape]. f_equal. inversion Hall as [|? ? [Hs _] _]. exact Hs.
Qed.

Lemma np_stack_length {A} (l : list (ndarray A)) (s : list nat) :
  Forall (fun a => shape a = s /\ well_formed a) l ->
  length (data (np_stack l)) = length l * np_prod s.
Proof.
  intros Hall. unfold np_stack. cbn [data].
  rewrite (length_concat_uniform _ (np_prod s)), length_map; [reflexivity|].
  apply Forall_map. eapply Forall_impl; [exact Hall|].
  intros a [Hs Hw]. cbn. unfold well_formed in Hw. rewrite Hw, Hs. reflexivity.
Qed.

Lemma np_stack_well_formed {A} (l : list (ndarray A)) (s : list nat) :
  l <> [] -> Forall (fun a => shape a = s /\ well_formed a) l ->
  well_formed (np_stack l).
Proof.
  intros Hne Hall. unfold well_formed.
  rewrite (np_stack_shape l s Hne Hall), (np_stack_length l s Hall). reflexivity.
Qed.

Lemma subarrays_np_stack {A} (l : list (ndarray A)) (s : list nat) :
  Forall (fun a => shape a = s /\ well_formed a) l ->
  subarrays (np_stack l) = l.
Proof.
  intros Hall. destruct l as [|a0 l0] eqn:El; [reflexivity|]. rewrite <- El in *.
  assert (Hne : l <> []) by (rewrite El; discriminate).
  unfold subarrays. rewrite (np_stack_shape l s Hne Hall).
  apply (map_seq_nth l _ a0). intros i Hi.
  unfold np_stack. cbn [data].
  rewrite (chunk_concat _ (np_prod s)).
  - assert (Hin : In (nth i l a0) l) by (apply nth_In; exact Hi).
    rewrite List.Forall_forall in Hall. destruct (Hall _ Hin) as [Hs _].
    rewrite (nth_indep _ [] (data a0)) by (rewrite length_map; exact Hi).
    rewrite map_nth. destruct (nth i l a0) as [sh dt]. cbn in *. subst sh. reflexivity.
  - apply Forall_map. eapply Forall_impl; [exact Hall|].
    intros a [Hs Hw]. cbn. unfold well_formed in Hw. rewrite Hw, Hs. reflexivity.
  - rewrite length_map. exact Hi.
Qed.

Lemma tolist_np_array {A} (rows : list (list A)) (m : nat) :
  Forall (fun r => length r = m) rows -> tolist (np_array rows) = rows.
Proof.
  intros Hall. unfold tolist, np_array.
  rewrite (subarrays_np_stack _ [m]).
  - rewrite map_map. cbn. apply map_id.
  - apply Forall_map. eapply Forall_impl; [exact Hall|].
    intros r Hr. cbn. split; [f_equal; exact Hr|].
    unfold well_formed. cbn. lia.
Qed.

Lemma np_array_shape {A} (rows : list (list A)) (m : nat) :
  rows <> [] -> Forall (fun r => length r = m) rows ->
  shape (np_array rows) = [length rows; m] /\ well_formed (np_array rows).
Proof.
  intros Hne Hall.
  assert (Hall' : Forall (fun a : ndarray A => shape a = [m] /\ well_formed a)
                    (map (fun r => {| shape := [length r]; data := r |}) rows)).
  { apply Forall_map. eapply Forall_impl; [exact Hall|].
    intros r Hr. cbn. split; [f_equal; exact Hr|]. unfold well_formed. cbn. lia. }
  assert (Hne' : map (fun r : list A => {| shape := [length r]; data := r |}) rows <> []).
  { destruct rows; [contradiction|discriminate]. }
  unfold np_array. split.
  - rewrite (np_stack_shape _ [m] Hne' Hall'), length_map. reflexivity.
  - apply (np_stack_well_formed _ [m] Hne' Hall').
Qed.

(** The rows of [u.T] are the columns of [u]. *)
Lemma tolist_T_rows (u : ndarray R) (n : nat) :
  shape u = [n; n] -> well_formed u ->
  tolist (np_T u) = map (fun i => map (fun k => entry n u k i) (seq 0 n)) (seq 0 n).
Proof.
  intros Hs Hw. unfold tolist, subarrays. rewrite (np_T_shape u n n Hs).
  rewrite map_map. cbn [data]. apply map_ext_in. intros i Hi.
  apply in_seq in Hi. apply list_eq. intros k.
  rewrite list_lookup_fmap.
  destruct (Nat.lt_ge_cases k n) as [Hk|Hk].
  - rewrite lookup_take_lt by (simpl; lia). rewrite lookup_drop.
    replace (i * np_prod [n] + k) with (i * n + k) by (simpl; lia).
    rewrite (np_T_lookup u n n i k Hs) by lia.
    rewrite lookup_seq_lt by assumption. reflexivity.
  - rewrite lookup_take_ge by (simpl; lia).
    rewrite lookup_seq_ge by assumption. reflexivity.
Qed.

(** ** Blocks of candidate rows *)

Lemma square_well_formed (size : nat) (g : RNG) :
  shape (ConvolutionAware._symmetrize (normal_array g 0 1 [size; size])) = [size; size]
  /\ well_formed (ConvolutionAware._symmetrize (normal_array g 0 1 [size; size])).
Proof.
  split; [reflexivity|]. unfold well_formed.
  rewrite (symmetrize_length (normal_array g 0 1 [size; size]) size eq_refl
             (normal_array_well_formed _ _ _ _)).
  rewrite symmetrize_shape. simpl. lia.
Qed.

Lemma basis_block_rows (E : env) (size : nat) (g : RNG) :
  svd_contract E ->
  exists u : ndarray R,
    orthonormal_columns size u /\
    basis_block E size g
    = map (fun i => map (fun k => entry size u k i) (seq 0 size)) (seq 0 size).
Proof.
  intros Hsvd. destruct (square_well_formed size g) as [Hs Hw].
  destruct (Hsvd _ size Hs Hw) as (Hus & Huw & Horth).
  eexists. split; [exact Horth|].
  unfold basis_block. apply tolist_T_rows; assumption.
Qed.

Lemma basis_block_length (E : env) (size : nat) (g : RNG) :
  svd_contract E ->
  length (basis_block E size g) = size
  /\ Forall (fun r => length r = size) (basis_block E size g).
Proof.
  intros Hsvd. destruct (basis_block_rows E size g Hsvd) as (u & _ & ->).
  split; [rewrite length_map, length_seq; reflexivity|].
  apply Forall_map, Forall_forall. intros i _. cbn.
  rewrite length_map, length_seq. reflexivity.
Qed.

Lemma dot_map_seq (f h : nat -> R) (n : nat) :
  dot (map f (seq 0 n)) (map h (seq 0 n))
  = Rsum (map (fun k => (f k * h k)%R) (seq 0 n)).
Proof.
  unfold dot. f_equal. generalize (seq 0 n) as l.
  induction l as [|k l IH]; [reflexivity|]. cbn. f_equal. exact IH.
Qed.

Lemma basis_block_dot (E : env) (size : nat) (g : RNG) (i j : nat) :
  svd_contract E -> i < size -> j < size ->
  dot (nth i (basis_block E size g) []) (nth j (basis_block E size g) [])
  = if decide (i = j) then 1%R else 0%R.
Proof.
  intros Hsvd Hi Hj. destruct (basis_block_rows E size g Hsvd) as (u & Horth & ->).
  rewrite !nth_map_seq by assumption. rewrite dot_map_seq. apply Horth; assumption.
Qed.

(** The rows [_create_basis] keeps when they all come from the first block. *)
Lemma create_basis_first_block (E : env) (self : ConvolutionAware.t)
    (count dim : nat) (g : RNG) :
  svd_contract E -> 1 < dim -> count <= dim ->
  exists p g',
    ConvolutionAware._create_basis E self count dim g = (Ok p, g')
    /\ tolist p = take count (basis_block E dim g).
Proof.
  intros Hsvd Hdim Hle.
  rewrite create_basis_run by lia.
  do 2 eexists. split; [reflexivity|].
  replace (count / dim + 1) with (S (count / dim)) by lia.
  cbn [seq map concat]. cbn [Nat.mul]. rewrite advance_0.
  destruct (basis_block_length E dim g Hsvd) as [Hlen Hall].
  rewrite take_app_le by lia.
  apply (tolist_np_array _ dim).
  apply Forall_take. exact Hall.
Qed.

(** C5. For [1 < dim] and [count <= dim], the rows of the matrix
    [_create_basis(count, dim)] returns are orthonormal when [np.linalg.svd]
    returns a [u] with orthonormal columns: there are [count] rows, each of
    unit norm, and the inner product of two distinct rows is zero, hence of
    magnitude below 1e-6. *)
Theorem create_basis_orthogonal (E : env) (self : ConvolutionAware.t)
    (count dim : nat) (g : RNG) :
  svd_contract E -> 1 < dim -> count <= dim ->
  exists p g',
    ConvolutionAware._create_basis E self count dim g = (Ok p, g')
    /\ length (tolist p) = count
    /\ forall i j, i < count -> j < count ->
         dot (nth i (tolist p) []) (nth i (tolist p) []) = 1%R
         /\ (i <> j ->
             dot (nth i (tolist p) []) (nth j (tolist p) []) = 0%R
             /\ (Rabs (dot (nth i (tolist p) []) (nth j (tolist p) [])) < 1 / 1000000)%R).
Proof.
  intros Hsvd Hdim Hle.
  destruct (create_basis_first_block E self count dim g Hsvd Hdim Hle)
    as (p & g' & Hrun & Hrows).
  destruct (basis_block_length E dim g Hsvd) as [Hlen _].
  exists p, g'. split; [exact Hrun|]. rewrite Hrows.
  split; [rewrite length_take; lia|].
  assert (Hnth : forall k, k < count ->
            nth k (take count (basis_block E dim g)) [] = nth k (basis_block E dim g) []).
  { intros k Hk. rewrite !nth_lookup, lookup_take_lt by assumption. reflexivity. }
  intros i j Hi Hj. rewrite !Hnth by assumption.
  split.
  - rewrite basis_block_dot by (assumption || lia).
    rewrite decide_True by reflexivity. reflexivity.
  - intros Hne. rewrite basis_block_dot by (assumption || lia).
    rewrite decide_False by assumption.
    split; [reflexivity|]. rewrite Rabs_R0. lra.
Qed.

(** ** The reference environment meets the contracts *)

Lemma sum_delta (i j s n : nat) :
  Rsum (map (fun k => ((if k =? i then 1 else 0) * (if k =? j then 1 else 0))%R) (seq s n))
  = if decide (i = j /\ s <= i < s + n) then 1%R else 0%R.
Proof.
  revert s. induction n as [|n IH]; intros s.
  - cbn. rewrite decide_False by lia. reflexivity.
  - cbn [seq map Rsum fold_right]. fold (Rsum (map (fun k =>
      ((if k =? i then 1 else 0) * (if k =? j then 1 else 0))%R) (seq (S s) n))).
    rewrite IH.
    destruct (Nat.eqb_spec s i), (Nat.eqb_spec s j);
      repeat match goal with |- context [decide ?P] => destruct (decide P) end;
      try lia; lra.
Qed.

Lemma np_eye_entry (n k i : nat) :
  k < n -> i < n -> entry n (np_eye n) k i = if k =? i then 1%R else 0%R.
Proof.
  intros Hk Hi. unfold entry, np_eye. cbn [data].
  apply nth_lookup_Some.
  rewrite (lookup_flat_map_blocks _ n) by
    (try assumption; intros; rewrite length_map, length_seq; reflexivity).
  rewrite list_lookup_fmap, lookup_seq_lt by assumption. reflexivity.
Qed.

Lemma np_eye_orthonormal (n : nat) : orthonormal_columns n (np_eye n).
Proof.
  intros i j Hi Hj.
  rewrite (map_ext_in _ (fun k => ((if k =? i then 1 else 0) * (if k =? j then 1 else 0))%R)).
  - rewrite sum_delta. destruct (decide (i = j)) as [->|Hne].
    + rewrite decide_True by lia. reflexivity.
    + rewrite decide_False by lia. reflexivity.
  - intros k Hk. apply in_seq in Hk. rewrite !np_eye_entry by lia. reflexivity.
Qed.

Lemma reference_svd_contract : svd_contract reference_env.
Proof.
  intros a n Hs Hw. cbn. rewrite Hs. cbn [hd].
  split; [reflexivity|]. split; [|apply np_eye_orthonormal].
  unfold well_formed, np_eye. cbn [data shape].
  rewrite (length_flat_map_blocks _ n) by
    (intros; rewrite length_map, length_seq; reflexivity).
  simpl. lia.
Qed.

Lemma create_basis_orthogonal_witness :
  exists p g',
    ConvolutionAware._create_basis reference_env
      (ConvolutionAware.__init__ ConvolutionAware.default_eps_std None) 2 2 reference_rng
    = (Ok p, g')
    /\ length (tolist p) = 2.
Proof.
  destruct (create_basis_orthogonal reference_env
              (ConvolutionAware.__init__ ConvolutionAware.default_eps_std None)
              2 2 reference_rng reference_svd_contract ltac:(lia) ltac:(lia))
    as (p & g' & Hrun & Hlen & _).
  exists p, g'. split; assumption.
Defined.

(** ** The number of blocks *)

Lemma blocks_vs_ceil (count dim : nat) :
  0 < dim ->
  (count mod dim <> 0 -> count / dim + 1 = ceil_div count dim)
  /\ (count mod dim = 0 -> count / dim + 1 = ceil_div count dim + 1).
Proof.
  intros Hd. unfold ceil_div.
  pose proof (Nat.div_mod_eq count dim) as Hdm.
  pose proof (Nat.mod_upper_bound count dim ltac:(lia)) as Hub.
  split; intros Hm.
  - apply (Nat.div_unique _ _ _ (count mod dim - 1)); nia.
  - f_equal. apply (Nat.div_unique _ _ _ (dim - 1)); nia.
Qed.

Lemma create_basis_blocks (E : env) (self : ConvolutionAware.t)
    (count dim : nat) (g : RNG) :
  svd_contract E -> 1 <= count -> 1 < dim ->
  let blocks := map (fun i => basis_block E dim (advance g (i * (dim * dim))))
                    (seq 0 (count / dim + 1)) in
  exists p g',
    ConvolutionAware._create_basis E self count dim g = (Ok p, g')
    /\ pos g' = pos g + (count / dim + 1) * (dim * dim)
    /\ tolist p = take count (concat blocks)
    /\ shape p = [count; dim]
    /\ well_formed p.
Proof.
  intros Hsvd Hc Hd blocks.
  rewrite create_basis_run by lia.
  replace (np_prod [dim; dim]) with (dim * dim) by (simpl; lia).
  fold blocks. do 2 eexists. split; [reflexivity|].
  assert (Hblocks : Forall (fun b => length b = dim) blocks).
  { apply Forall_map, Forall_forall. intros i _. cbn.
    apply basis_block_length. exact Hsvd. }
  assert (Hrows : Forall (fun r => length r = dim) (concat blocks)).
  { apply Forall_concat. apply Forall_map, Forall_forall. intros i _. cbn.
    apply basis_block_length. exact Hsvd. }
  assert (Hlen : length (concat blocks) = (count / dim + 1) * dim).
  { rewrite (length_concat_uniform _ dim Hblocks). unfold blocks.
    rewrite length_map, length_seq. reflexivity. }
  assert (Hgt : count < (count / dim + 1) * dim).
  { pose proof (Nat.div_mod_eq count dim).
    pose proof (Nat.mod_upper_bound count dim ltac:(lia)). nia. }
  assert (Htake : Forall (fun r => length r = dim) (take count (concat blocks)))
    by (apply Forall_take; exact Hrows).
  assert (Hne : take count (concat blocks) <> []).
  { intros Hnil. apply (f_equal length) in Hnil.
    rewrite length_take in Hnil. simpl in Hnil. lia. }
  split; [cbn; lia|].
  split; [apply (tolist_np_array _ dim); exact Htake|].
  destruct (np_array_shape _ dim Hne Htake) as [Hs Hw].
  split; [|exact Hw]. rewrite Hs, length_take. f_equal. lia.
Qed.

(** C4 (as amended). For [count >= 1] and [dim > 1], [_create_basis] runs
    the block step (sample a [dim] by [dim] standard normal matrix,
    symmetrise, decompose, collect the rows of [u.T]) exactly
    [count // dim + 1] times, each block drawn [dim * dim] samples after the
    one before; that is [ceil(count / dim)] times when [dim] does not divide
    [count] and once more when it does.  The blocks are concatenated and
    cut to the first [count] rows; the matrix returned has shape
    [(count, dim)]. *)
Theorem create_basis_block_count (E : env) (self : ConvolutionAware.t)
    (count dim : nat) (g : RNG) :
  svd_contract E -> 1 <= count -> 1 < dim ->
  let blocks := map (fun i => basis_block E dim (advance g (i * (dim * dim))))
                    (seq 0 (count / dim + 1)) in
  length blocks = count / dim + 1
  /\ (count mod dim <> 0 -> length blocks = ceil_div count dim)
  /\ (count mod dim = 0 -> length blocks = ceil_div count dim + 1)
  /\ exists p g',
       ConvolutionAware._create_basis E self count dim g = (Ok p, g')
       /\ pos g' = pos g + length blocks * (dim * dim)
       /\ tolist p = take count (concat blocks)
       /\ shape p = [count; dim]
       /\ well_formed p.
Proof.
  intros Hsvd Hc Hd blocks.
  assert (Hlen : length blocks = count / dim + 1).
  { unfold blocks. rewrite length_map, length_seq. reflexivity. }
  destruct (blocks_vs_ceil count dim ltac:(lia)) as [Hceil1 Hceil2].
  split; [exact Hlen|]. rewrite Hlen.
  split; [exact Hceil1|]. split; [exact Hceil2|].
  apply create_basis_blocks; assumption.
Qed.

Lemma create_basis_block_count_witness :
  exists p g',
    ConvolutionAware._create_basis reference_env
      (ConvolutionAware.__init__ ConvolutionAware.default_eps_std None) 3 2 reference_rng
    = (Ok p, g')
    /\ shape p = [3; 2].
Proof.
  destruct (create_basis_block_count reference_env
              (ConvolutionAware.__init__ ConvolutionAware.default_eps_std None)
              3 2 reference_rng reference_svd_contract ltac:(lia) ltac:(lia))
    as (_ & _ & _ & p & g' & Hrun & _ & _ & Hs & _).
  exists p, g'. split; assumption.
Defined.

(** C4 as stated fails: for [count = 2], [dim = 2] the generator is
    advanced by two blocks of [2 * 2] draws, where [ceil(2 / 2)] is one. *)
Lemma create_basis_block_count_counterexample :
  pos (snd (ConvolutionAware._create_basis reference_env
              (ConvolutionAware.__init__ ConvolutionAware.default_eps_std None)
              2 2 reference_rng))
  = pos reference_rng + 2 * (2 * 2)
  /\ ceil_div 2 2 = 1.
Proof.
  rewrite create_basis_run by lia. split; reflexivity.
Qed.

(** ** Variance *)

Lemma Rsum_cons (x : R) (l : list R) : Rsum (x :: l) = (x + Rsum l)%R.
Proof. reflexivity. Qed.

Lemma Rsum_nil : Rsum [] = 0%R.
Proof. reflexivity. Qed.

Lemma Rsum_Permutation (l k : list R) : Permutation l k -> Rsum l = Rsum k.
Proof.
  induction 1 as [|x l k _ IH|x y l|l k m _ IH1 _ IH2];
    rewrite ?Rsum_cons; try reflexivity; try lra; congruence.
Qed.

Lemma Rsum_map_scale (f : R -> R) (c : R) (l : list R) :
  Rsum (map (fun x => (c * f x)%R) l) = (c * Rsum (map f l))%R.
Proof.
  induction l as [|x l IH]; cbn [map]; rewrite ?Rsum_cons, ?Rsum_nil; lra.
Qed.

Lemma Rsum_nonneg (l : list R) : Forall (fun x => (0 <= x)%R) l -> (0 <= Rsum l)%R.
Proof.
  induction 1 as [|x l Hx _ IH]; rewrite ?Rsum_cons, ?Rsum_nil; lra.
Qed.

Lemma mean_Permutation (l k : list R) : Permutation l k -> mean l = mean k.
Proof.
  intros Hp. unfold mean.
  rewrite (Rsum_Permutation l k Hp), (Permutation_length Hp). reflexivity.
Qed.

Lemma variance_Permutation (l k : list R) :
  Permutation l k -> variance_of l = variance_of k.
Proof.
  intros Hp. unfold variance_of. rewrite (mean_Permutation l k Hp).
  apply mean_Permutation. apply Permutation_map. exact Hp.
Qed.

Lemma mean_scale (p : R) (l : list R) :
  mean (map (fun x => (x * p)%R) l) = (mean l * p)%R.
Proof.
  unfold mean. rewrite length_map.
  rewrite (map_ext _ (fun x => (p * (fun y => y) x)%R)) by (intros; lra).
  rewrite Rsum_map_scale, map_id. unfold Rdiv. lra.
Qed.

Lemma mean_map_scale (f : R -> R) (c : R) (l : list R) :
  mean (map (fun x => (c * f x)%R) l) = (c * mean (map f l))%R.
Proof.
  unfold mean. rewrite !length_map, Rsum_map_scale. unfold Rdiv. lra.
Qed.

Lemma variance_scale (p : R) (l : list R) :
  variance_of (map (fun x => (x * p)%R) l) = (p * p * variance_of l)%R.
Proof.
  unfold variance_of. rewrite mean_scale, map_map.
  rewrite (map_ext _ (fun x => (p * p * (fun y => (y - mean l) * (y - mean l)) x)%R))
    by (intros; lra).
  apply mean_map_scale.
Qed.

Lemma variance_nonneg (l : list R) : (0 <= variance_of l)%R.
Proof.
  unfold variance_of, mean at 1. unfold Rdiv. apply Rmult_le_pos.
  - apply Rsum_nonneg. apply Forall_map, Forall_forall. intros x _.
    exact (Rle_0_sqr (x - mean l)).
  - rewrite length_map. destruct (length l) as [|n] eqn:El.
    + cbn. rewrite Rinv_0. lra.
    + left. apply Rinv_0_lt_compat. apply lt_0_INR. lia.
Qed.

(** ** Transposition permutes the elements *)

Lemma map_flat_map {A B C} (h : B -> C) (f : A -> list B) (l : list A) :
  map h (flat_map f l) = flat_map (fun x => map h (f x)) l.
Proof.
  induction l as [|x l IH]; [reflexivity|]. cbn. rewrite map_app, IH. reflexivity.
Qed.

Lemma flat_map_pointwise_Permutation {A B} (f h : A -> list B) (l : list A) :
  (forall x, Permutation (f x) (h x)) ->
  Permutation (flat_map f l) (flat_map h l).
Proof.
  intros Hfh. induction l as [|x l IH]; [constructor|].
  cbn. apply Permutation_app; [apply Hfh|exact IH].
Qed.

Lemma flat_map_app_Permutation {A B} (f h : A -> list B) (l : list A) :
  Permutation (flat_map (fun x => f x ++ h x) l) (flat_map f l ++ flat_map h l).
Proof.
  induction l as [|x l IH]; [constructor|].
  cbn. rewrite IH. rewrite <- !app_assoc. apply Permutation_app_head.
  rewrite !app_assoc. apply Permutation_app_tail. apply Permutation_app_comm.
Qed.

Lemma flat_map_nil_const {A B} (l : list A) : flat_map (fun _ => @nil B) l = [].
Proof. induction l as [|x l IH]; [reflexivity|]. cbn. exact IH. Qed.

Lemma flat_map_swap {A B C} (F : A -> B -> list C) (l1 : list A) (l2 : list B) :
  Permutation (flat_map (fun a => flat_map (fun b => F a b) l2) l1)
              (flat_map (fun b => flat_map (fun a => F a b) l1) l2).
Proof.
  induction l1 as [|a l1 IH].
  - cbn. rewrite flat_map_nil_const. constructor.
  - cbn. rewrite IH. symmetry. apply flat_map_app_Permutation.
Qed.

Lemma walk_Permutation (v v' : view) :
  Permutation v v' -> Permutation (walk v) (walk v').
Proof.
  induction 1 as [|[d t] v v' _ IH|[d2 t2] [d1 t1] v|v1 v2 v3 _ IH1 _ IH2].
  - reflexivity.
  - cbn. apply flat_map_pointwise_Permutation. intros i.
    apply Permutation_map. exact IH.
  - cbn.
    rewrite (flat_map_ext _ (fun i => flat_map (fun j =>
               map (fun o => i * t1 + (j * t2 + o)) (walk v)) (seq 0 d2)))
      by (intros i; rewrite map_flat_map; apply flat_map_ext; intros j;
          rewrite map_map; reflexivity).
    rewrite (flat_map_ext (fun i => map (Nat.add (i * t2)) _)
               (fun j => flat_map (fun i =>
                  map (fun o => i * t1 + (j * t2 + o)) (walk v)) (seq 0 d1)))
      by (intros j; rewrite map_flat_map; apply flat_map_ext; intros i;
          rewrite map_map; apply map_ext; intros o; lia).
    symmetry. apply flat_map_swap.
  - etransitivity; eassumption.
Qed.

Lemma map_add_seq (k n : nat) : map (Nat.add k) (seq 0 n) = seq k n.
Proof.
  apply list_eq. intros i. rewrite list_lookup_fmap.
  destruct (Nat.lt_ge_cases i n) as [Hi|Hi].
  - rewrite !lookup_seq_lt by assumption. reflexivity.
  - rewrite !lookup_seq_ge by assumption. reflexivity.
Qed.

Lemma walk_blocks (P s d : nat) :
  flat_map (fun i => map (Nat.add (i * P)) (seq 0 P)) (seq s d) = seq (s * P) (d * P).
Proof.
  revert s. induction d as [|d IH]; intros s; [reflexivity|].
  cbn [seq flat_map]. rewrite IH, map_add_seq.
  replace (S d * P) with (P + d * P) by lia.
  rewrite seq_app. f_equal. f_equal. lia.
Qed.

Lemma walk_c_view (dims : list nat) : walk (c_view dims) = seq 0 (np_prod dims).
Proof.
  induction dims as [|d ds IH]; [reflexivity|].
  unfold c_view in *. cbn [c_strides combine walk]. rewrite IH.
  rewrite walk_blocks. reflexivity.
Qed.

Lemma length_c_strides (dims : list nat) : length (c_strides dims) = length dims.
Proof. induction dims as [|d ds IH]; [reflexivity|]. cbn. rewrite IH. reflexivity. Qed.

Lemma length_c_view (dims : list nat) : length (c_view dims) = length dims.
Proof. unfold c_view. rewrite length_combine, length_c_strides. lia. Qed.

Lemma map_fst_c_view (dims : list nat) : map fst (c_view dims) = dims.
Proof.
  unfold c_view. induction dims as [|d ds IH]; [reflexivity|].
  cbn. rewrite IH. reflexivity.
Qed.

Lemma fst_nth_c_view (dims : list nat) (ax : nat) :
  fst (nth ax (c_view dims) (0, 0)) = nth ax dims 0.
Proof.
  pose proof (map_nth fst (c_view dims) (0, 0) ax) as Hn.
  rewrite map_fst_c_view in Hn. symmetry. exact Hn.
Qed.

Lemma is_axes_Permutation {A} (n : nat) (axes : list nat) (v : list A) (d : A) :
  is_axes n axes = true -> length v = n ->
  Permutation (map (fun ax => nth ax v d) axes) v.
Proof.
  unfold is_axes. intros Hax Hlen.
  apply andb_prop in Hax as [Hl Hall]. apply Nat.eqb_eq in Hl.
  rewrite forallb_forall in Hall.
  assert (Hperm : Permutation (seq 0 n) axes).
  { apply NoDup_Permutation_bis.
    - apply seq_NoDup.
    - rewrite length_seq. lia.
    - intros k Hk. specialize (Hall k Hk). apply existsb_exists in Hall as (x & Hx & Hkx).
      apply Nat.eqb_eq in Hkx. subst x. exact Hx. }
  rewrite <- Hperm. rewrite <- Hlen.
  rewrite (map_seq_nth v _ d); [reflexivity|]. intros; reflexivity.
Qed.

Lemma np_transpose_Ok {A} `{Inhabited A} (a r : ndarray A) (axes : list nat) :
  np_transpose a axes = Ok r -> well_formed a ->
  shape r = map (fun ax => nth ax (shape a) 0) axes
  /\ Permutation (data r) (data a).
Proof.
  unfold np_transpose. destruct (is_axes (length (shape a)) axes) eqn:Hax; [|discriminate].
  intros Hr Hw. injection Hr as <-. unfold from_view. cbn [shape data]. split.
  - rewrite map_map. apply map_ext. intros ax. apply fst_nth_c_view.
  - rewrite (walk_Permutation _ (c_view (shape a))).
    + rewrite walk_c_view. unfold well_formed in Hw. rewrite <- Hw.
      rewrite (map_seq_nth (data a) _ inhabitant); [reflexivity|]. intros; reflexivity.
    + apply (is_axes_Permutation (length (shape a))); [exact Hax|]. apply length_c_view.
Qed.

(** ** The variance rescaler *)

Lemma Rsign_pos (x : R) : (0 < x)%R -> Rsign x = Gt.
Proof.
  intros Hx. unfold Rsign.
  destruct (Rlt_dec x 0); [lra|]. destruct (Rlt_dec 0 x); [reflexivity|lra].
Qed.

Lemma Rsign_zero : Rsign 0 = Eq.
Proof.
  unfold Rsign. destruct (Rlt_dec 0 0); [lra|]. destruct (Rlt_dec 0 0); [lra|reflexivity].
Qed.

Lemma inf_of_sign_not_finite (s : comparison) : ~ is_finite (inf_of_sign s).
Proof. destruct s; cbn; tauto. Qed.

Lemma finite_part_map_Finite (l : list R) : finite_part (map Finite l) = Some l.
Proof. induction l as [|x l IH]; [reflexivity|]. cbn. rewrite IH. reflexivity. Qed.

Lemma np_var_Finite (bank : ndarray R) (c : R) :
  np_var bank = Finite c -> data bank <> [] /\ c = variance_of (data bank).
Proof.
  unfold np_var. destruct (data bank) as [|x l]; [discriminate|].
  intros Hc. injection Hc as <-. split; [discriminate|reflexivity].
Qed.

Lemma np_var_float_Finite (r : ndarray npfloat) (l : list R) :
  l <> [] -> data r = map Finite l -> np_var_float r = Finite (variance_of l).
Proof.
  intros Hne Hd. unfold np_var_float. rewrite Hd, finite_part_map_Finite.
  destruct l; [contradiction|reflexivity].
Qed.

Lemma np_var_float_not_finite (r : ndarray npfloat) :
  Forall (fun y => ~ is_finite y) (data r) -> np_var_float r = NaN.
Proof.
  unfold np_var_float. destruct (data r) as [|y l]; [reflexivity|].
  intros Hall. inversion Hall as [|? ? Hy _]. destruct y; cbn in *; tauto.
Qed.

(** A bank of non-zero variance is scaled by the finite factor
    [sqrt(variance / c_var)]. *)
Lemma scale_filters_regular (bank : ndarray R) (v c : R) :
  (0 < v)%R -> np_var bank = Finite c -> c <> 0%R ->
  data (ConvolutionAware._scale_filters bank (Finite v))
  = map Finite (map (fun x => (x * sqrt (v / c))%R) (data bank))
  /\ variance_of (map (fun x => (x * sqrt (v / c))%R) (data bank)) = v.
Proof.
  intros Hv Hc Hc0. destruct (np_var_Finite bank c Hc) as [Hne Hcv].
  assert (Hcpos : (0 < c)%R).
  { pose proof (variance_nonneg (data bank)). lra. }
  assert (Hq : (0 < v / c)%R) by (apply Rdiv_lt_0_compat; assumption).
  split.
  - unfold ConvolutionAware._scale_filters. cbn [data]. rewrite Hc.
    unfold np_true_divide. rewrite (Rsign_pos c Hcpos).
    unfold np_sqrt. destruct (Rlt_dec (v / c) 0); [lra|].
    rewrite map_map. reflexivity.
  - rewrite variance_scale, <- Hcv, sqrt_sqrt by lra. field. exact Hc0.
Qed.

(** A bank of zero variance is multiplied by [+inf]: every entry of the
    result is NaN (from a zero) or an infinity. *)
Lemma scale_filters_degenerate (bank : ndarray R) (v : R) :
  (0 < v)%R -> np_var bank = Finite 0 ->
  data (ConvolutionAware._scale_filters bank (Finite v))
  = map (fun x => inf_of_sign (Rsign x)) (data bank).
Proof.
  intros Hv Hc. unfold ConvolutionAware._scale_filters. cbn [data]. rewrite Hc.
  unfold np_true_divide. rewrite Rsign_zero, (Rsign_pos v Hv). cbn [inf_of_sign np_sqrt].
  apply map_ext. intros x. cbn. destruct (Rsign x); reflexivity.
Qed.

(** The two cases together, for a non-empty bank. *)
Lemma scale_filters_cases (bank : ndarray R) (v : R) :
  (0 < v)%R -> data bank <> [] ->
  let r := ConvolutionAware._scale_filters bank (Finite v) in
  shape r = shape bank
  /\ ((np_var bank = Finite 0 /\ Forall (fun y => ~ is_finite y) (data r))
      \/ (np_var bank <> Finite 0
          /\ exists l, data r = map Finite l /\ l <> [] /\ variance_of l = v)).
Proof.
  intros Hv Hne r. split; [reflexivity|].
  assert (Hc : np_var bank = Finite (variance_of (data bank))).
  { unfold np_var. destruct (data bank); [contradiction|reflexivity]. }
  destruct (Req_dec_T (variance_of (data bank)) 0) as [Hz|Hnz].
  - left. rewrite Hz in Hc. split; [exact Hc|].
    unfold r. rewrite (scale_filters_degenerate bank v Hv Hc).
    apply Forall_map, Forall_forall. intros x _. apply inf_of_sign_not_finite.
  - right. split; [rewrite Hc; congruence|].
    destruct (scale_filters_regular bank v _ Hv Hc Hnz) as [Hd Hvar].
    eexists. split; [exact Hd|]. split; [|exact Hvar].
    destruct (data bank); [contradiction|discriminate].
Qed.

(** ** Running monadic code *)

Lemma returns_ret {A} (a : A) (g : RNG) (P : A -> Prop) : P a -> returns (ret a) g P.
Proof. intros HP. exists a, g. split; [reflexivity|exact HP]. Qed.

Lemma returns_bind {A B} (m : M A) (k : A -> M B) (g : RNG)
    (P : A -> Prop) (Q : B -> Prop) :
  returns m g P -> (forall a g', P a -> returns (k a) g' Q) ->
  returns (bind m k) g Q.
Proof.
  intros (a & g' & Hm & HP) Hk. destruct (Hk a g' HP) as (b & g'' & Hb & HQ).
  exists b, g''. split; [|exact HQ]. unfold bind. rewrite Hm. exact Hb.
Qed.

Lemma returns_lift {A} (r : result A) (a : A) (g : RNG) (P : A -> Prop) :
  r = Ok a -> P a -> returns (lift r) g P.
Proof. intros -> HP. exists a, g. split; [reflexivity|exact HP]. Qed.

Lemma returns_weaken {A} (m : M A) (g : RNG) (P Q : A -> Prop) :
  returns m g P -> (forall a, P a -> Q a) -> returns m g Q.
Proof. intros (a & g' & Hm & HP) HPQ. exists a, g'. split; [exact Hm|auto]. Qed.

Lemma returns_mapM {A B} (f : A -> M B) (P : B -> Prop) (l : list A) (g : RNG) :
  (forall x g', In x l -> returns (f x) g' P) ->
  returns (mapM f l) g (fun ys => length ys = length l /\ Forall P ys).
Proof.
  revert g. induction l as [|x l IH]; intros g Hf.
  - apply returns_ret. split; [reflexivity|constructor].
  - cbn [mapM]. eapply returns_bind; [apply Hf; left; reflexivity|].
    intros y g1 Hy. eapply returns_bind; [apply IH; intros; apply Hf; right; assumption|].
    intros ys g2 [Hlen Hall]. apply returns_ret.
    split; [cbn; rewrite Hlen; reflexivity|constructor; assumption].
Qed.

Lemma returns_for_each_append {A B} (f : A -> M B) (P : B -> Prop)
    (l : list A) (acc : list B) (g : RNG) :
  (forall x g', returns (f x) g' P) -> Forall P acc ->
  returns (for_each l (fun x acc => y <- f x ;; ret (acc ++ [y])) acc) g
          (fun r => length r = length acc + length l /\ Forall P r).
Proof.
  intros Hf. revert acc g. induction l as [|x l IH]; intros acc g Hacc.
  - apply returns_ret. split; [cbn; lia|exact Hacc].
  - cbn [for_each].
    apply (returns_bind _ _ _ (fun r => length r = length acc + 1 /\ Forall P r)).
    + eapply returns_bind; [apply Hf|]. intros y g1 Hy.
      apply returns_ret. split; [rewrite length_app; reflexivity|].
      apply Forall_app. split; [exact Hacc|]. constructor; [exact Hy|constructor].
    + intros acc' g1 [Hlen Hall].
      eapply returns_weaken; [apply IH; exact Hall|].
      intros r [Hr HP]. split; [cbn; lia|exact HP].
Qed.

(** ** The spectral path *)

Lemma np_prod_pos (dims : list nat) : Forall (lt 0) dims -> 0 < np_prod dims.
Proof.
  induction 1 as [|d ds Hd _ IH]; cbn; [lia|]. fold (np_prod ds). nia.
Qed.

Lemma np_fft_rfft_shape_pos (s : list nat) :
  Forall (lt 0) s -> np_fft_rfft_shape s = Ok (rfft_shape s).
Proof.
  intros Hs. unfold np_fft_rfft_shape.
  replace (forallb (Nat.ltb 0) s) with true; [reflexivity|].
  symmetry. apply forallb_forall. intros d Hd.
  rewrite List.Forall_forall in Hs. apply Nat.ltb_lt, Hs, Hd.
Qed.

Lemma rfft_shape_pos (s : list nat) : Forall (lt 0) s -> Forall (lt 0) (rfft_shape s).
Proof.
  induction 1 as [|d ds Hd Hds IH]; [constructor|].
  cbn [rfft_shape]. destruct ds as [|d' ds'].
  - constructor; [lia|constructor].
  - constructor; assumption.
Qed.

Lemma create_basis_returns (E : env) (self : ConvolutionAware.t)
    (count dim : nat) (g : RNG) :
  svd_contract E -> ~ (ConvolutionAware.eps_std self < 0)%R ->
  1 <= count -> 1 <= dim ->
  returns (ConvolutionAware._create_basis E self count dim) g
          (fun p => length (data p) = count * dim).
Proof.
  intros Hsvd He Hc Hd. destruct (Nat.eq_dec dim 1) as [->|Hne].
  - unfold returns. rewrite create_basis_run_1 by assumption.
    do 2 eexists. split; [reflexivity|].
    rewrite normal_array_well_formed. cbn. lia.
  - destruct (create_basis_blocks E self count dim g Hsvd Hc ltac:(lia))
      as (p & g' & Hrun & _ & _ & Hs & Hw).
    exists p, g'. split; [exact Hrun|].
    unfold well_formed in Hw. rewrite Hw, Hs. cbn. lia.
Qed.

Lemma make_filters_returns (E : env) (self : ConvolutionAware.t)
    (ks : list nat) (correct_ifft : ndarray R -> list nat -> ndarray R)
    (stack : nat) (g : RNG) :
  svd_contract E -> ~ (ConvolutionAware.eps_std self < 0)%R ->
  1 <= stack -> Forall (lt 0) ks ->
  (forall a, shape (correct_ifft a ks) = ks /\ well_formed (correct_ifft a ks)) ->
  returns (ConvolutionAware.make_filters E self ks (rfft_shape ks) correct_ifft stack) g
          (fun fs => length fs = stack
                     /\ Forall (fun a => shape a = ks /\ well_formed a) fs).
Proof.
  intros Hsvd He Hst Hks Hifft. unfold ConvolutionAware.make_filters.
  pose proof (np_prod_pos _ (rfft_shape_pos ks Hks)) as Hsize.
  eapply returns_bind; [apply create_basis_returns; (assumption || lia)|].
  intros p g1 Hp. cbn beta in Hp.
  eapply returns_bind.
  { apply (returns_lift _ {| shape := stack :: rfft_shape ks; data := data p |} _
             (fun b => shape b = stack :: rfft_shape ks)); [|reflexivity].
    unfold np_reshape. rewrite Hp.
    replace (np_prod (stack :: rfft_shape ks) =? stack * np_prod (rfft_shape ks))
      with true by (symmetry; apply Nat.eqb_eq; reflexivity).
    reflexivity. }
  intros b g2 Hb.
  eapply returns_weaken.
  - apply (returns_mapM _ (fun a => shape a = ks /\ well_formed a)).
    intros x g3 _. unfold returns, bind.
    rewrite np_random_normal_run by assumption.
    do 2 eexists. split; [reflexivity|].
    destruct (Hifft x) as [Hs Hw]. split; [exact Hs|].
    unfold well_formed, np_add in *. cbn [shape data].
    rewrite length_zip_with, Hw, Hs.
    rewrite normal_array_well_formed. cbn [normal_array shape]. lia.
  - intros fs [Hlen Hall]. split; [|exact Hall].
    rewrite Hlen. unfold subarrays. rewrite Hb, length_map, length_seq. reflexivity.
Qed.

Lemma seeding_returns (E : env) (seed : option Z) (g : RNG) :
  seed_ok seed ->
  match seed with Some s => np_random_seed E s | None => ret tt end g
  = (Ok tt, reseed E seed g).
Proof.
  destruct seed as [s|]; cbn; [|reflexivity].
  intros [Hlo Hhi]. unfold np_random_seed.
  destruct (Z.leb_spec 0 s); [|lia]. destruct (Z.ltb_spec s (2 ^ 32)); [|lia].
  reflexivity.
Qed.

(** The spectral path of [__call__], given what the loop body returns:
    the bank is assembled filters-first, rescaled and transposed. *)
Lemma call_spectral_gen (Q : R -> Prop)
    (E : env) (self : ConvolutionAware.t) (shape0 : list nat) (g : RNG)
    (axes ks : list nat) (ifft : ndarray R -> list nat -> ndarray R)
    (stack filters : nat) (x : R) (fan_out : number) :
  ConvolutionAware.dispatch E shape0 = Some (axes, ks, ifft, stack, filters) ->
  _compute_fans shape0 (image_data_format E) = (NpScalar x, fan_out) ->
  (0 < x)%R ->
  seed_ok (ConvolutionAware.seed self) ->
  1 <= stack -> 1 <= filters -> Forall (lt 0) ks ->
  is_axes (S (S (length ks))) axes = true ->
  (forall g', returns
     (ConvolutionAware.make_filters E self ks (rfft_shape ks) ifft stack) g'
     (fun fs => length fs = stack
                /\ Forall (fun a => (shape a = ks /\ well_formed a)
                                    /\ Forall Q (data a)) fs)) ->
  returns (ConvolutionAware.__call__ E self shape0) g
    (fun t => exists r bank,
       t = NpArray r
       /\ shape bank = filters :: stack :: ks
       /\ well_formed bank
       /\ data bank <> []
       /\ Forall Q (data bank)
       /\ shape r = map (fun ax => nth ax (filters :: stack :: ks) 0) axes
       /\ Permutation (data r)
            (data (ConvolutionAware._scale_filters bank (Finite (2 / x))))).
Proof.
  intros Hdisp Hfans Hx Hseed Hst Hfl Hks Hax Hmf.
  unfold ConvolutionAware.__call__.
  eapply (returns_bind _ _ _ (fun _ => True)).
  { do 2 eexists. split; [apply seeding_returns; exact Hseed|exact I]. }
  intros [] g1 _. rewrite Hfans. cbn [py_div_2].
  eapply returns_bind.
  { apply (returns_lift _ (Finite (2 / x)) _ (fun v => v = Finite (2 / x))); [|reflexivity].
    unfold np_true_divide. rewrite (Rsign_pos x Hx). reflexivity. }
  intros v g2 ->. rewrite Hdisp.
  eapply (returns_bind _ _ _ (fun kfs => kfs = rfft_shape ks)).
  { apply (returns_lift _ (rfft_shape ks) _ (fun kfs => kfs = rfft_shape ks));
      [apply np_fft_rfft_shape_pos; exact Hks|reflexivity]. }
  intros kfs g2' ->.
  eapply returns_bind.
  { apply (returns_for_each_append
             (fun _ : nat => ConvolutionAware.make_filters E self ks (rfft_shape ks) ifft stack)
             (fun fs => length fs = stack
                        /\ Forall (fun a => (shape a = ks /\ well_formed a)
                                            /\ Forall Q (data a)) fs)).
    - intros _ g3. apply Hmf.
    - constructor. }
  intros init g3 [Hlen Hall]. cbn [length] in Hlen. rewrite length_seq in Hlen.
  set (bank := np_stack (map np_stack init)).
  assert (Hstacks : Forall (fun a : ndarray R => (shape a = stack :: ks /\ well_formed a)
                                                 /\ Forall Q (data a))
                      (map np_stack init)).
  { apply Forall_map. eapply Forall_impl; [exact Hall|].
    intros fs [Hfs Hboth]. cbn beta.
    assert (Hshape : Forall (fun a : ndarray R => shape a = ks /\ well_formed a) fs)
      by (eapply Forall_impl; [exact Hboth|]; intros a [Ha _]; exact Ha).
    assert (Hne : fs <> []) by (destruct fs; [cbn in Hfs; lia|discriminate]).
    split; [split|].
    - rewrite (np_stack_shape fs ks Hne Hshape), Hfs. reflexivity.
    - apply (np_stack_well_formed fs ks Hne Hshape).
    - unfold np_stack. cbn [data]. apply Forall_concat, Forall_map.
      eapply Forall_impl; [exact Hboth|]. intros a [_ Ha]. exact Ha. }
  assert (Hstacks' : Forall (fun a : ndarray R => shape a = stack :: ks /\ well_formed a)
                       (map np_stack init))
    by (eapply Forall_impl; [exact Hstacks|]; intros a [Ha _]; exact Ha).
  assert (Hne : map np_stack init <> []).
  { destruct init; [cbn in Hlen; lia|discriminate]. }
  assert (Hbs : shape bank = filters :: stack :: ks).
  { unfold bank. rewrite (np_stack_shape _ _ Hne Hstacks'), length_map, Hlen. reflexivity. }
  assert (Hbw : well_formed bank) by (apply (np_stack_well_formed _ _ Hne Hstacks')).
  assert (Hbne : data bank <> []).
  { intros Hnil. unfold well_formed in Hbw. rewrite Hnil, Hbs in Hbw.
    pose proof (np_prod_pos (filters :: stack :: ks)
                  ltac:(repeat constructor; (lia || assumption))).
    cbn [length] in Hbw. lia. }
  assert (HbQ : Forall Q (data bank)).
  { unfold bank, np_stack. cbn [data]. apply Forall_concat, Forall_map.
    eapply Forall_impl; [exact Hstacks|]. intros a [_ Ha]. exact Ha. }
  set (scaled := ConvolutionAware._scale_filters bank (Finite (2 / x))).
  assert (Hss : shape scaled = shape bank) by reflexivity.
  assert (Hsw : well_formed scaled).
  { unfold well_formed. rewrite Hss. unfold scaled, ConvolutionAware._scale_filters.
    cbn [data]. rewrite length_map. exact Hbw. }
  destruct (np_transpose scaled axes) as [r|e] eqn:Htr.
  2:{ unfold np_transpose in Htr. rewrite Hss, Hbs in Htr. cbn [length] in Htr.
      rewrite Hax in Htr. discriminate. }
  destruct (np_transpose_Ok scaled r axes Htr Hsw) as [Hrs Hperm].
  eapply returns_bind; [apply (returns_lift _ r _ (fun r' => r' = r)); reflexivity|].
  intros r' g4 ->. apply returns_ret. exists r, bank.
  repeat split; try assumption.
  rewrite Hrs, Hss, Hbs. reflexivity.
Qed.

(** What [__call__] returns on the spectral path: the shape is that of the
    filters-first bank permuted by the transpose dimensions, and either no
    entry is finite or the entries have the target variance. *)
Lemma call_spectral (E : env) (self : ConvolutionAware.t) (shape0 : list nat) (g : RNG)
    (axes ks : list nat) (ifft : ndarray R -> list nat -> ndarray R)
    (stack filters : nat) (x : R) (fan_out : number) :
  ConvolutionAware.dispatch E shape0 = Some (axes, ks, ifft, stack, filters) ->
  _compute_fans shape0 (image_data_format E) = (NpScalar x, fan_out) ->
  (0 < x)%R ->
  svd_contract E ->
  (forall a, shape (ifft a ks) = ks /\ well_formed (ifft a ks)) ->
  ~ (ConvolutionAware.eps_std self < 0)%R ->
  seed_ok (ConvolutionAware.seed self) ->
  1 <= stack -> 1 <= filters -> Forall (lt 0) ks ->
  is_axes (S (S (length ks))) axes = true ->
  returns (ConvolutionAware.__call__ E self shape0) g
    (fun t => exists r,
       t = NpArray r
       /\ shape r = map (fun ax => nth ax (filters :: stack :: ks) 0) axes
       /\ (Forall (fun y => ~ is_finite y) (data r)
           \/ exists l, data r = map Finite l /\ l <> [] /\ variance_of l = (2 / x)%R)).
Proof.
  intros Hdisp Hfans Hx Hsvd Hifft He Hseed Hst Hfl Hks Hax.
  assert (Hv : (0 < 2 / x)%R) by (apply Rdiv_lt_0_compat; lra).
  eapply returns_weaken.
  - apply (call_spectral_gen (fun _ => True) E self shape0 g axes ks ifft stack filters
             x fan_out); try assumption.
    intros g'. eapply returns_weaken; [apply make_filters_returns; assumption|].
    intros fs [Hlen Hall]. split; [exact Hlen|].
    eapply Forall_impl; [exact Hall|]. intros a Ha. split; [exact Ha|].
    apply Forall_forall. intros; exact I.
  - intros t (r & bank & -> & Hbs & Hbw & Hbne & _ & Hrs & Hperm).
    exists r. split; [reflexivity|]. split; [exact Hrs|].
    destruct (scale_filters_cases bank (2 / x) Hv Hbne)
      as [_ [[_ Hnf]|[_ (l & Hd & Hlne & Hvar)]]].
    + left. eapply Permutation_Forall; [symmetry; exact Hperm|exact Hnf].
    + right. rewrite Hd in Hperm.
      destruct (Permutation_map_inv _ _ Hperm) as (l' & Hl' & Hpl).
      exists l'. split; [exact Hl'|]. split.
      * intros ->. symmetry in Hpl. apply Permutation_nil in Hpl. contradiction.
      * rewrite <- (variance_Permutation l l' Hpl). exact Hvar.
Qed.

(** One case of the rank dispatch: the collaborator's contract [Hi] and the
    positivity of the fan [Hfan] close it for either data format. *)
Ltac dispatch_case Hi Hfan :=
  unfold _compute_fans; cbn [length]; destruct (image_data_format _);
  (do 2 eexists; split; [reflexivity|]; split; [reflexivity|];
   split; [apply Hfan; cbn; nia|];
   split; [first [discriminate | intros _; f_equal; cbn; lia]|];
   split; [intros ?; apply Hi|];
   repeat split; try lia; try reflexivity; repeat constructor; assumption).

(** The rank dispatch on a supported shape with positive entries. *)
Lemma dispatch_supported (E : env) (shape0 : list nat) :
  irfft_contract E -> supported_rank shape0 -> Forall (lt 0) shape0 ->
  exists axes ks ifft stack filters x fan_out,
    ConvolutionAware.dispatch E shape0 = Some (axes, ks, ifft, stack, filters)
    /\ _compute_fans shape0 (image_data_format E) = (NpScalar x, fan_out)
    /\ (0 < x)%R
    /\ (image_data_format E = channels_last -> x = INR (conv_fan_in shape0))
    /\ (forall a, shape (ifft a ks) = ks /\ well_formed (ifft a ks))
    /\ 1 <= stack /\ 1 <= filters /\ Forall (lt 0) ks
    /\ is_axes (S (S (length ks))) axes = true
    /\ map (fun ax => nth ax (filters :: stack :: ks) 0) axes = returned_shape shape0.
Proof.
  intros (Hi1 & Hi2 & Hi3) Hrank Hpos.
  assert (Hfan : forall n, 0 < n -> (0 < INR n)%R) by (intros; apply lt_0_INR; assumption).
  destruct shape0 as [|a [|b [|c [|d [|e [|f ?]]]]]];
    destruct Hrank as [Hr|[Hr|Hr]]; cbn in Hr; try lia; clear Hr;
    repeat match goal with
           | H : Forall _ (_ :: _) |- _ => inversion H; clear H; subst
           end.
  - exists [2; 1; 0], [a], (fun x s => np_fft_irfft E x (nth 0 s 0)), b, c.
    dispatch_case Hi1 Hfan.
  - exists [2; 3; 0; 1], [a; b], (np_fft_irfft2 E), c, d.
    dispatch_case Hi2 Hfan.
  - exists [3; 4; 0; 1; 2], [a; b; c], (np_fft_irfftn E), d, e.
    dispatch_case Hi3 Hfan.
Qed.

Lemma length_indices (dims : list nat) : length (indices dims) = np_prod dims.
Proof.
  induction dims as [|d ds IH]; [reflexivity|]. cbn [indices np_prod fold_right].
  rewrite (length_flat_map_blocks _ (np_prod ds)); [reflexivity|].
  intros k. rewrite length_map. exact IH.
Qed.

Lemma irfftn_real_contract (a : ndarray R) (s : list nat) :
  shape (irfftn_real a s) = s /\ well_formed (irfftn_real a s).
Proof.
  split; [reflexivity|]. unfold well_formed, irfftn_real. cbn [data shape].
  rewrite length_map. apply length_indices.
Qed.

Lemma reference_irfft_contract : irfft_contract reference_env.
Proof.
  repeat split; try (cbn; reflexivity); cbn;
    first [apply (irfftn_real_contract x [n]) | apply (irfftn_real_contract x s)].
Qed.

(** The rescaled bank, read through the transpose. *)
Lemma rescaled_variance (bank : ndarray R) (r : ndarray npfloat) (v : R) :
  (0 < v)%R -> data bank <> [] ->
  Permutation (data r) (data (ConvolutionAware._scale_filters bank (Finite v))) ->
  (np_var bank <> Finite 0 ->
   Forall is_finite (data r) /\ np_var_float r = Finite v)
  /\ (np_var bank = Finite 0 ->
      Forall (fun y => ~ is_finite y) (data r) /\ np_var_float r = NaN).
Proof.
  intros Hv Hne Hperm.
  destruct (scale_filters_cases bank v Hv Hne)
    as [_ [[Hz Hnf]|[Hnz (l & Hd & Hlne & Hvar)]]].
  - split; [intros Hc; contradiction|]. intros _.
    assert (Hr : Forall (fun y => ~ is_finite y) (data r))
      by (eapply Permutation_Forall; [symmetry; exact Hperm|exact Hnf]).
    split; [exact Hr|]. apply np_var_float_not_finite. exact Hr.
  - split; [|intros Hc; contradiction]. intros _.
    rewrite Hd in Hperm.
    destruct (Permutation_map_inv _ _ Hperm) as (l' & Hl' & Hpl).
    split.
    + rewrite Hl'. apply Forall_map, Forall_forall. intros; exact I.
    + rewrite (np_var_float_Finite r l').
      * rewrite <- (variance_Permutation l l' Hpl), Hvar. reflexivity.
      * intros ->. symmetry in Hpl. apply Permutation_nil in Hpl. contradiction.
      * exact Hl'.
Qed.

(** C1 (what the code does). For a shape of rank 3, 4 or 5 with positive
    entries, [__call__] returns an array of shape [returned_shape shape]:
    the input shape for rank 3, but [(row, column, filters, stack)] for an
    input [(row, column, stack, filters)] of rank 4 and
    [(y, z, filters, stack, x)] for an input [(x, y, z, stack, filters)] of
    rank 5.  For [(3, 3, 4, 8)] the array returned has shape [(3, 3, 8, 4)]. *)
Theorem call_returned_shape (E : env) (self : ConvolutionAware.t)
    (shape0 : list nat) (g : RNG) :
  svd_contract E -> irfft_contract E ->
  ~ (ConvolutionAware.eps_std self < 0)%R -> seed_ok (ConvolutionAware.seed self) ->
  supported_rank shape0 -> Forall (lt 0) shape0 ->
  returns (ConvolutionAware.__call__ E self shape0) g
          (fun t => exists r, t = NpArray r /\ shape r = returned_shape shape0)
  /\ (forall row stack filters,
        returned_shape [row; stack; filters] = [row; stack; filters])
  /\ (forall row column stack filters,
        returned_shape [row; column; stack; filters] = [row; column; filters; stack])
  /\ (forall x y z stack filters,
        returned_shape [x; y; z; stack; filters] = [y; z; filters; stack; x])
  /\ returned_shape [3; 3; 4; 8] = [3; 3; 8; 4].
Proof.
  intros Hsvd Hirfft He Hseed Hrank Hpos.
  split; [|repeat split].
  destruct (dispatch_supported E shape0 Hirfft Hrank Hpos)
    as (axes & ks & ifft & stack & filters & x & fo & Hdisp & Hfans & Hx & _ & Hifft
        & Hst & Hfl & Hks & Hax & Hshape).
  eapply returns_weaken.
  - apply (call_spectral E self shape0 g axes ks ifft stack filters x fo); assumption.
  - intros t (r & -> & Hrs & _). exists r. split; [reflexivity|].
    rewrite Hrs. exact Hshape.
Qed.

Lemma call_returned_shape_witness :
  returns (ConvolutionAware.__call__ reference_env
             (ConvolutionAware.__init__ ConvolutionAware.default_eps_std (Some 42%Z))
             [3; 3; 4; 8])
          reference_rng
          (fun t => exists r, t = NpArray r /\ shape r = [3; 3; 8; 4]).
Proof.
  refine (proj1 (call_returned_shape reference_env
            (ConvolutionAware.__init__ ConvolutionAware.default_eps_std (Some 42%Z))
            [3; 3; 4; 8] reference_rng
            reference_svd_contract reference_irfft_contract _ _ _ _)).
  - cbn. unfold ConvolutionAware.default_eps_std. lra.
  - cbn. lia.
  - right. left. reflexivity.
  - repeat constructor; lia.
Defined.

(** The spectral path of [__call__] as a run: the loop returns the list
    [init] of kernels, and the array returned is [np.array(init)] rescaled
    by [_scale_filters] and transposed. *)
Lemma call_spectral_run (E : env) (self : ConvolutionAware.t) (shape0 : list nat) (g : RNG)
    (axes ks : list nat) (ifft : ndarray R -> list nat -> ndarray R)
    (stack filters : nat) (x : R) (fan_out : number) :
  ConvolutionAware.dispatch E shape0 = Some (axes, ks, ifft, stack, filters) ->
  _compute_fans shape0 (image_data_format E) = (NpScalar x, fan_out) ->
  (0 < x)%R ->
  svd_contract E ->
  (forall a, shape (ifft a ks) = ks /\ well_formed (ifft a ks)) ->
  ~ (ConvolutionAware.eps_std self < 0)%R ->
  seed_ok (ConvolutionAware.seed self) ->
  1 <= stack -> 1 <= filters -> Forall (lt 0) ks ->
  is_axes (S (S (length ks))) axes = true ->
  exists init r g',
    filter_loop E self ks ifft stack filters
      (reseed E (ConvolutionAware.seed self) g) = (Ok init, g')
    /\ np_transpose
         (ConvolutionAware._scale_filters (np_stack (map np_stack init)) (Finite (2 / x)))
         axes = Ok r
    /\ ConvolutionAware.__call__ E self shape0 g = (Ok (NpArray r), g')
    /\ shape (np_stack (map np_stack init)) = filters :: stack :: ks
    /\ well_formed (np_stack (map np_stack init))
    /\ data (np_stack (map np_stack init)) <> [].
Proof.
  intros Hdisp Hfans Hx Hsvd Hifft He Hseed Hst Hfl Hks Hax.
  destruct (returns_for_each_append
              (fun _ : nat => ConvolutionAware.make_filters E self ks (rfft_shape ks) ifft stack)
              (fun fs => length fs = stack
                         /\ Forall (fun a : ndarray R => shape a = ks /\ well_formed a) fs)
              (seq 0 filters) [] (reseed E (ConvolutionAware.seed self) g)
              ltac:(intros ? g3; apply make_filters_returns; assumption)
              ltac:(constructor))
    as (init & g' & Hloop & Hlen & Hall).
  cbn [length] in Hlen. rewrite length_seq in Hlen.
  set (bank := np_stack (map np_stack init)).
  assert (Hstacks : Forall (fun a : ndarray R => shape a = stack :: ks /\ well_formed a)
                      (map np_stack init)).
  { apply Forall_map. eapply Forall_impl; [exact Hall|].
    intros fs [Hfs Hshape]. cbn beta.
    assert (Hne : fs <> []) by (destruct fs; [cbn in Hfs; lia|discriminate]).
    split; [rewrite (np_stack_shape fs ks Hne Hshape), Hfs; reflexivity|].
    apply (np_stack_well_formed fs ks Hne Hshape). }
  assert (Hne : map np_stack init <> []).
  { destruct init; [cbn in Hlen; lia|discriminate]. }
  assert (Hbs : shape bank = filters :: stack :: ks).
  { unfold bank. rewrite (np_stack_shape _ _ Hne Hstacks), length_map, Hlen. reflexivity. }
  assert (Hbw : well_formed bank) by (apply (np_stack_well_formed _ _ Hne Hstacks)).
  assert (Hbne : data bank <> []).
  { intros Hnil. unfold well_formed in Hbw. rewrite Hnil, Hbs in Hbw.
    pose proof (np_prod_pos (filters :: stack :: ks)
                  ltac:(repeat constructor; (lia || assumption))).
    cbn [length] in Hbw. lia. }
  destruct (np_transpose (ConvolutionAware._scale_filters bank (Finite (2 / x))) axes)
    as [r|e] eqn:Htr.
  2:{ unfold np_transpose in Htr. unfold ConvolutionAware._scale_filters in Htr at 1.
      cbn [shape] in Htr. rewrite Hbs in Htr. cbn [length] in Htr.
      rewrite Hax in Htr. discriminate. }
  exists init, r, g'.
  split; [exact Hloop|]. split; [exact Htr|].
  split; [|split; [exact Hbs|split; [exact Hbw|exact Hbne]]].
  unfold ConvolutionAware.__call__. unfold bind at 1.
  rewrite (seeding_returns E _ g Hseed). rewrite Hfans, Hdisp. cbn [py_div_2].
  unfold bind at 1. unfold lift at 1.
  rewrite (np_fft_rfft_shape_pos ks Hks). unfold bind at 1. unfold lift at 1.
  unfold filter_loop in Hloop. unfold bind at 1. rewrite Hloop.
  unfold np_true_divide. rewrite (Rsign_pos x Hx).
  fold bank. unfold bind, lift, ret. rewrite Htr. reflexivity.
Qed.

(** The fan-in of Keras's convention under [channels_first], which reads a
    kernel shape as (out_channels, in_channels, spatial dimensions). *)
Lemma compute_fans_channels_first (shape0 : list nat) (x : R) (fan_out : number) :
  supported_rank shape0 ->
  _compute_fans shape0 channels_first = (NpScalar x, fan_out) ->
  x = INR (nth 1 shape0 0 * np_prod (drop 2 shape0)).
Proof.
  unfold supported_rank, _compute_fans.
  intros [Hr|[Hr|Hr]]; rewrite Hr; intros Hf; injection Hf as <- _; reflexivity.
Qed.

(** C2 (as amended). For a shape of rank 3, 4 or 5 with positive entries
    and a non-negative [eps_std], [__call__] returns: the loop produces the
    kernels [init], and the array returned is the bank [np.array(init)]
    multiplied by [sqrt(variance / np.var(bank))] and transposed, with
    [variance = 2 / fan_in] and [fan_in] as [_compute_fans] gives it for the
    data format: the product of the spatial dimensions times the input
    channels under [channels_last], [shape[1] * prod(shape[2:])] under
    [channels_first].  When the empirical variance of the bank is not zero,
    every entry returned is finite and their empirical variance is exactly
    [2 / fan_in]; when it is zero, no entry returned is finite and the
    variance is NaN. *)
Theorem call_variance (E : env) (self : ConvolutionAware.t)
    (shape0 : list nat) (g : RNG) :
  svd_contract E -> irfft_contract E ->
  ~ (ConvolutionAware.eps_std self < 0)%R -> seed_ok (ConvolutionAware.seed self) ->
  supported_rank shape0 -> Forall (lt 0) shape0 ->
  exists axes ks ifft stack filters fan_in fan_out init r g',
    ConvolutionAware.dispatch E shape0 = Some (axes, ks, ifft, stack, filters)
    /\ _compute_fans shape0 (image_data_format E) = (NpScalar fan_in, fan_out)
    /\ (image_data_format E = channels_last -> fan_in = INR (conv_fan_in shape0))
    /\ (image_data_format E = channels_first ->
        fan_in = INR (nth 1 shape0 0 * np_prod (drop 2 shape0)))
    /\ filter_loop E self ks ifft stack filters
         (reseed E (ConvolutionAware.seed self) g) = (Ok init, g')
    /\ np_transpose
         (ConvolutionAware._scale_filters (np_stack (map np_stack init))
            (Finite (2 / fan_in)))
         axes = Ok r
    /\ ConvolutionAware.__call__ E self shape0 g = (Ok (NpArray r), g')
    /\ (np_var (np_stack (map np_stack init)) <> Finite 0 ->
        Forall is_finite (data r) /\ np_var_float r = Finite (2 / fan_in))
    /\ (np_var (np_stack (map np_stack init)) = Finite 0 ->
        Forall (fun y => ~ is_finite y) (data r) /\ np_var_float r = NaN).
Proof.
  intros Hsvd Hirfft He Hseed Hrank Hpos.
  destruct (dispatch_supported E shape0 Hirfft Hrank Hpos)
    as (axes & ks & ifft & stack & filters & x & fo & Hdisp & Hfans & Hx & Hlast & Hifft
        & Hst & Hfl & Hks & Hax & _).
  destruct (call_spectral_run E self shape0 g axes ks ifft stack filters x fo
              Hdisp Hfans Hx Hsvd Hifft He Hseed Hst Hfl Hks Hax)
    as (init & r & g' & Hloop & Htr & Hcall & Hbs & Hbw & Hbne).
  exists axes, ks, ifft, stack, filters, x, fo, init, r, g'.
  split; [exact Hdisp|]. split; [exact Hfans|]. split; [exact Hlast|].
  split.
  { intros Hfmt. rewrite Hfmt in Hfans.
    apply (compute_fans_channels_first shape0 x fo Hrank Hfans). }
  split; [exact Hloop|]. split; [exact Htr|]. split; [exact Hcall|].
  assert (Hv : (0 < 2 / x)%R) by (apply Rdiv_lt_0_compat; lra).
  apply rescaled_variance; [exact Hv|exact Hbne|].
  assert (Hsw : well_formed (ConvolutionAware._scale_filters
                               (np_stack (map np_stack init)) (Finite (2 / x)))).
  { unfold well_formed, ConvolutionAware._scale_filters. cbn [shape data].
    rewrite length_map. exact Hbw. }
  exact (proj2 (np_transpose_Ok _ r axes Htr Hsw)).
Qed.

Lemma call_variance_witness :
  exists axes ks ifft stack filters fan_in fan_out init r g',
    ConvolutionAware.dispatch reference_env [3; 3; 4; 8]
    = Some (axes, ks, ifft, stack, filters)
    /\ _compute_fans [3; 3; 4; 8] (image_data_format reference_env)
       = (NpScalar fan_in, fan_out)
    /\ (image_data_format reference_env = channels_last ->
        fan_in = INR (conv_fan_in [3; 3; 4; 8]))
    /\ (image_data_format reference_env = channels_first ->
        fan_in = INR (nth 1 [3; 3; 4; 8] 0 * np_prod (drop 2 [3; 3; 4; 8])))
    /\ filter_loop reference_env
         (ConvolutionAware.__init__ ConvolutionAware.default_eps_std (Some 42%Z))
         ks ifft stack filters
         (reseed reference_env (Some 42%Z) reference_rng) = (Ok init, g')
    /\ np_transpose
         (ConvolutionAware._scale_filters (np_stack (map np_stack init))
            (Finite (2 / fan_in)))
         axes = Ok r
    /\ ConvolutionAware.__call__ reference_env
         (ConvolutionAware.__init__ ConvolutionAware.default_eps_std (Some 42%Z))
         [3; 3; 4; 8] reference_rng = (Ok (NpArray r), g')
    /\ (np_var (np_stack (map np_stack init)) <> Finite 0 ->
        Forall is_finite (data r) /\ np_var_float r = Finite (2 / fan_in))
    /\ (np_var (np_stack (map np_stack init)) = Finite 0 ->
        Forall (fun y => ~ is_finite y) (data r) /\ np_var_float r = NaN).
Proof.
  refine (call_variance reference_env
            (ConvolutionAware.__init__ ConvolutionAware.default_eps_std (Some 42%Z))
            [3; 3; 4; 8] reference_rng
            reference_svd_contract reference_irfft_contract _ _ _ _).
  - cbn. unfold ConvolutionAware.default_eps_std. lra.
  - cbn. lia.
  - right. left. reflexivity.
  - repeat constructor; lia.
Defined.

(** ** Zero noise on a kernel of one point *)

Lemma Rsum_zero (l : list R) : Forall (fun v => v = 0%R) l -> Rsum l = 0%R.
Proof.
  induction 1 as [|x l Hx _ IH]; rewrite ?Rsum_cons, ?Rsum_nil; lra.
Qed.

Lemma variance_zero (l : list R) : Forall (fun v => v = 0%R) l -> variance_of l = 0%R.
Proof.
  intros Hz. unfold variance_of.
  assert (Hm : mean l = 0%R) by (unfold mean; rewrite (Rsum_zero l Hz); lra).
  unfold mean at 1. rewrite Rsum_zero; [lra|].
  apply Forall_map. eapply Forall_impl; [exact Hz|].
  intros x ->. cbn. rewrite Hm. lra.
Qed.

Lemma nth_zero (l : list R) (i : nat) :
  Forall (fun v => v = 0%R) l -> nth i l 0%R = 0%R.
Proof.
  intros Hz. destruct (Nat.lt_ge_cases i (length l)) as [Hi|Hi].
  - rewrite List.Forall_forall in Hz. apply Hz. apply nth_In. exact Hi.
  - apply nth_overflow. exact Hi.
Qed.

Lemma irfftn_real_zero (a : ndarray R) (s : list nat) :
  Forall (fun v => v = 0%R) (data a) ->
  Forall (fun v => v = 0%R) (data (irfftn_real a s)).
Proof.
  intros Hz. unfold irfftn_real. cbn [data].
  apply Forall_map, Forall_forall. intros j _. cbn beta.
  rewrite Rsum_zero; [lra|].
  apply Forall_map, Forall_forall. intros k _. cbn beta.
  rewrite (nth_zero _ _ Hz). lra.
Qed.

Lemma zip_with_zero (l k : list R) :
  Forall (fun v => v = 0%R) l -> Forall (fun v => v = 0%R) k ->
  Forall (fun v => v = 0%R) (zip_with Rplus l k).
Proof.
  intros Hl. revert k. induction Hl as [|x l Hx _ IH]; intros k Hk; [constructor|].
  destruct Hk as [|y k Hy Hk]; [constructor|].
  cbn. constructor; [lra|apply IH; exact Hk].
Qed.

Lemma reference_make_filters_zero (sd : option Z) (stack : nat) (g : RNG) :
  returns (ConvolutionAware.make_filters reference_env (ConvolutionAware.__init__ 0 sd)
             [1] (rfft_shape [1]) (fun x s => np_fft_irfft reference_env x (nth 0 s 0)) stack) g
          (fun fs => length fs = stack
                     /\ Forall (fun a => (shape a = [1] /\ well_formed a)
                                         /\ Forall (fun v => v = 0%R) (data a)) fs).
Proof.
  unfold ConvolutionAware.make_filters.
  change (np_prod (rfft_shape [1])) with 1. change (rfft_shape [1]) with [1].
  eapply (returns_bind _ _ _
            (fun p => length (data p) = stack /\ Forall (fun v => v = 0%R) (data p))).
  { unfold returns. rewrite create_basis_run_1 by (cbn; lra).
    do 2 eexists. split; [reflexivity|]. split.
    - rewrite normal_array_well_formed. cbn. lia.
    - unfold normal_array. cbn [data ConvolutionAware.eps_std ConvolutionAware.__init__].
      apply Forall_map, Forall_forall. intros k _. cbn beta. lra. }
  intros p g1 [Hlen Hz].
  eapply (returns_bind _ _ _
            (fun b => shape b = [stack; 1] /\ Forall (fun v => v = 0%R) (data b))).
  { apply (returns_lift _ {| shape := [stack; 1]; data := data p |}); [|split; [reflexivity|exact Hz]].
    unfold np_reshape. rewrite Hlen.
    replace (np_prod [stack; 1] =? stack) with true
      by (symmetry; apply Nat.eqb_eq; cbn; lia).
    reflexivity. }
  intros b g2 [Hbs Hbz].
  eapply returns_weaken.
  - apply (returns_mapM _ (fun a => (shape a = [1] /\ well_formed a)
                                    /\ Forall (fun v => v = 0%R) (data a))).
    intros x g3 Hin. unfold returns, bind.
    rewrite np_random_normal_run by (cbn; lra).
    do 2 eexists. split; [reflexivity|].
    assert (Hxz : Forall (fun v => v = 0%R) (data x)).
    { unfold subarrays in Hin. rewrite Hbs in Hin. apply in_map_iff in Hin as (i & <- & _).
      cbn [data]. apply Forall_take, Forall_drop. exact Hbz. }
    split; [split|].
    + reflexivity.
    + unfold well_formed, np_add. cbn [shape data]. rewrite length_zip_with.
      cbn. reflexivity.
    + unfold np_add. cbn [data np_fft_irfft reference_env nth].
      pose proof (irfftn_real_zero x [1] Hxz) as Hiz.
      revert Hiz. generalize (data (irfftn_real x [1])) as l1.
      unfold normal_array. cbn [data ConvolutionAware.eps_std ConvolutionAware.__init__].
      intros l1 Hl1. apply zip_with_zero; [exact Hl1|].
      apply Forall_map, Forall_forall. intros k _. cbn beta. lra.
  - intros fs [Hl Hall]. split; [|exact Hall].
    rewrite Hl. unfold subarrays. rewrite Hbs, length_map, length_seq. reflexivity.
Qed.

Lemma Forall_eq_repeat {A} (x : A) (l : list A) :
  Forall (eq x) l -> l = repeat x (length l).
Proof.
  induction 1 as [|y l Hy _ IH]; [reflexivity|]. cbn. rewrite <- Hy, <- IH. reflexivity.
Qed.

(** With [eps_std = 0] and a kernel of one point the assembled bank is
    identically zero, and the array returned is filled with NaN. *)
Lemma reference_call_zero_noise (sd : option Z) (stack filters : nat) (g : RNG) :
  seed_ok sd -> 1 <= stack -> 1 <= filters ->
  exists r g',
    ConvolutionAware.__call__ reference_env (ConvolutionAware.__init__ 0 sd)
      [1; stack; filters] g = (Ok (NpArray r), g')
    /\ shape r = [1; stack; filters]
    /\ data r = repeat NaN (filters * stack).
Proof.
  intros Hseed Hst Hfl.
  assert (Hx : (0 < INR (stack * np_prod [1%nat]))%R) by (apply lt_0_INR; cbn; lia).
  destruct (call_spectral_gen (fun v => v = 0%R) reference_env
              (ConvolutionAware.__init__ 0 sd) [1; stack; filters] g
              [2; 1; 0] [1] (fun x s => np_fft_irfft reference_env x (nth 0 s 0))
              stack filters (INR (stack * np_prod [1]))
              (NpScalar (INR (filters * np_prod [1])))
              eq_refl eq_refl Hx Hseed Hst Hfl
              ltac:(repeat constructor) eq_refl
              (reference_make_filters_zero sd stack))
    as (t & g' & Hrun & r & bank & -> & Hbs & Hbw & Hbne & Hbz & Hrs & Hperm).
  exists r, g'. split; [exact Hrun|]. split; [exact Hrs|].
  assert (Hvar : np_var bank = Finite 0).
  { unfold np_var. rewrite (variance_zero _ Hbz).
    destruct (data bank); [contradiction|reflexivity]. }
  assert (Hv : (0 < 2 / INR (stack * np_prod [1%nat]))%R) by (apply Rdiv_lt_0_compat; lra).
  rewrite (scale_filters_degenerate bank _ Hv Hvar) in Hperm.
  assert (Hnan : Forall (eq NaN) (data r)).
  { eapply Permutation_Forall; [symmetry; exact Hperm|].
    apply Forall_map. eapply Forall_impl; [exact Hbz|].
    intros x ->. cbn beta. rewrite Rsign_zero. reflexivity. }
  rewrite (Forall_eq_repeat NaN (data r) Hnan). f_equal.
  rewrite (Permutation_length Hperm), length_map.
  unfold well_formed in Hbw. rewrite Hbw, Hbs. cbn. lia.
Qed.

(** C2 as stated fails: with [eps_std = 0] and the shape [(1, 2, 3)]
    (two input channels) the array returned is filled with NaN; its
    variance is NaN, not [2 / fan_in = 1].  And the fan-in is the product of
    the spatial dimensions times the input channels only under
    [channels_last]: under [channels_first] the fan-in of [(3, 3, 4, 8)] is
    [3 * (4 * 8) = 96], not [3 * 3 * 4 = 36]. *)
Lemma call_variance_counterexample :
  (exists r,
     fst (ConvolutionAware.__call__ reference_env (ConvolutionAware.__init__ 0 None)
            [1; 2; 3] reference_rng) = Ok (NpArray r)
     /\ data r = repeat NaN 6
     /\ np_var_float r = NaN
     /\ np_var_float r <> Finite (2 / INR (conv_fan_in [1; 2; 3]%nat)))
  /\ fst (_compute_fans [3; 3; 4; 8] channels_first) = NpScalar (INR 96)
  /\ conv_fan_in [3; 3; 4; 8] = 36.
Proof.
  split; [|split; reflexivity].
  destruct (reference_call_zero_noise None 2 3 reference_rng I ltac:(lia) ltac:(lia))
    as (r & g' & Hrun & _ & Hd).
  exists r. rewrite Hrun. split; [reflexivity|]. split; [exact Hd|].
  assert (Hnan : np_var_float r = NaN) by (unfold np_var_float; rewrite Hd; reflexivity).
  split; [exact Hnan|]. rewrite Hnan. discriminate.
Qed.

(** C8 (as amended). For every bank whose empirical variance is zero and
    every positive target variance, [_scale_filters] signals nothing: it
    divides by the zero variance, the factor [sqrt(variance / c_var)] is
    [+inf], and the array it returns has the bank's shape and no finite
    entry: NaN where the bank holds 0, an infinity elsewhere.  Its variance
    is NaN. *)
Theorem scale_filters_zero_variance (bank : ndarray R) (v : R) :
  (0 < v)%R -> np_var bank = Finite 0 ->
  np_sqrt (np_true_divide (Finite v) (np_var bank)) = PosInf
  /\ shape (ConvolutionAware._scale_filters bank (Finite v)) = shape bank
  /\ data (ConvolutionAware._scale_filters bank (Finite v))
     = map (fun x => inf_of_sign (Rsign x)) (data bank)
  /\ Forall (fun y => ~ is_finite y)
            (data (ConvolutionAware._scale_filters bank (Finite v)))
  /\ np_var_float (ConvolutionAware._scale_filters bank (Finite v)) = NaN.
Proof.
  intros Hv Hc.
  assert (Hd := scale_filters_degenerate bank v Hv Hc).
  assert (Hnf : Forall (fun y => ~ is_finite y)
                  (data (ConvolutionAware._scale_filters bank (Finite v)))).
  { rewrite Hd. apply Forall_map, Forall_forall. intros x _. apply inf_of_sign_not_finite. }
  split.
  { rewrite Hc. unfold np_true_divide. rewrite Rsign_zero, (Rsign_pos v Hv). reflexivity. }
  split; [reflexivity|]. split; [exact Hd|]. split; [exact Hnf|].
  apply np_var_float_not_finite. exact Hnf.
Qed.

Lemma scale_filters_zero_variance_witness :
  data (ConvolutionAware._scale_filters {| shape := [1; 1; 2]; data := [3; 3]%R |} (Finite 2))
  = map (fun x => inf_of_sign (Rsign x)) [3; 3]%R.
Proof.
  refine (proj1 (proj2 (proj2 (scale_filters_zero_variance
            {| shape := [1; 1; 2]; data := [3; 3]%R |} 2 _ _)))).
  - lra.
  - unfold np_var. cbn [data]. f_equal.
    unfold variance_of, mean. cbn [map length]. rewrite !Rsum_cons, Rsum_nil.
    cbn [INR]. field.
Defined.

(** C8 as stated fails: with one input channel and noise exactly zero
    ([eps_std = 0], shape [(1, 1, 1)]) the bank has variance zero, and
    [__call__] returns normally, an array holding NaN. *)
Lemma scale_filters_zero_variance_counterexample :
  fst (ConvolutionAware.__call__ reference_env (ConvolutionAware.__init__ 0 None)
         [1; 1; 1] reference_rng)
  = Ok (NpArray {| shape := [1; 1; 1]; data := [NaN] |}).
Proof.
  destruct (reference_call_zero_noise None 1 1 reference_rng I ltac:(lia) ltac:(lia))
    as (r & g' & Hrun & Hs & Hd).
  rewrite Hrun. destruct r as [sh dt]. cbn in Hs, Hd. subst. reflexivity.
Qed.

(** ** A negative [eps_std] *)

Lemma raises_bind_l {A B} (m : M A) (k : A -> M B) (g : RNG) (e : exn) :
  raises m g e -> raises (bind m k) g e.
Proof. intros (g' & Hm). exists g'. unfold bind. rewrite Hm. reflexivity. Qed.

Lemma raises_bind_r {A B} (m : M A) (k : A -> M B) (g : RNG) (e : exn) (P : A -> Prop) :
  returns m g P -> (forall a g', P a -> raises (k a) g' e) -> raises (bind m k) g e.
Proof.
  intros (a & g' & Hm & HP) Hk. destruct (Hk a g' HP) as (g'' & Hr).
  exists g''. unfold bind. rewrite Hm. exact Hr.
Qed.

Lemma raises_lift_Ok {A B} (a : A) (k : A -> M B) (g : RNG) (e : exn) :
  raises (k a) g e -> raises (bind (lift (Ok a)) k) g e.
Proof. intros H. exact H. Qed.

Lemma make_filters_negative (E : env) (self : ConvolutionAware.t)
    (ks kfs : list nat) (ifft : ndarray R -> list nat -> ndarray R)
    (stack : nat) (g : RNG) :
  (ConvolutionAware.eps_std self < 0)%R -> 1 <= stack ->
  raises (ConvolutionAware.make_filters E self ks kfs ifft stack) g ValueError.
Proof.
  intros He Hst. unfold ConvolutionAware.make_filters.
  destruct (Nat.eq_dec (np_prod kfs) 1) as [H1|Hn1].
  - apply raises_bind_l. rewrite H1. unfold ConvolutionAware._create_basis. cbn [Nat.eqb].
    exists g. apply np_random_normal_negative. exact He.
  - apply (raises_bind_r _ _ _ _ (fun _ => True)).
    { unfold returns. rewrite create_basis_run by exact Hn1. do 2 eexists. split; [reflexivity|exact I]. }
    intros p g1 _. unfold np_reshape.
    destruct (np_prod (stack :: kfs) =? length (data p)).
    + apply (raises_bind_r _ _ _ _ (fun b => shape b = stack :: kfs)).
      { apply (returns_lift _ {| shape := stack :: kfs; data := data p |}); reflexivity. }
      intros b g2 Hb. unfold subarrays. rewrite Hb.
      destruct stack as [|n]; [lia|]. cbn [seq map mapM].
      apply raises_bind_l. apply raises_bind_l.
      exists g2. apply np_random_normal_negative. exact He.
    + apply raises_bind_l. exists g1. reflexivity.
Qed.

Lemma call_negative (E : env) (self : ConvolutionAware.t) (shape0 : list nat) (g : RNG) :
  (ConvolutionAware.eps_std self < 0)%R -> seed_ok (ConvolutionAware.seed self) ->
  supported_rank shape0 -> Forall (lt 0) shape0 ->
  raises (ConvolutionAware.__call__ E self shape0) g ValueError.
Proof.
  intros He Hseed Hrank Hpos. unfold ConvolutionAware.__call__.
  apply (raises_bind_r _ _ _ _ (fun _ => True)).
  { do 2 eexists. split; [apply seeding_returns; exact Hseed|exact I]. }
  intros [] g1 _.
  assert (Hloop : forall ks ifft stack filters g2,
            1 <= stack -> 1 <= filters ->
            raises (for_each (seq 0 filters)
                      (fun _ init =>
                         filters0 <- ConvolutionAware.make_filters E self ks (rfft_shape ks)
                                       ifft stack ;;
                         ret (init ++ [filters0])) []) g2 ValueError).
  { intros ks ifft stack filters g2 Hst Hfl. destruct filters as [|n]; [lia|].
    cbn [seq for_each]. apply raises_bind_l. apply raises_bind_l.
    apply make_filters_negative; assumption. }
  destruct shape0 as [|a [|b [|c [|d [|e [|f ?]]]]]];
    destruct Hrank as [Hr|[Hr|Hr]]; cbn in Hr; try lia; clear Hr;
    repeat match goal with
           | H : Forall _ (_ :: _) |- _ => inversion H; clear H; subst
           end;
    unfold _compute_fans; cbn [length]; destruct (image_data_format E);
    cbn [py_div_2 ConvolutionAware.dispatch];
    (eapply (raises_bind_r _ _ _ _ (fun _ => True));
     [do 2 eexists; split; [reflexivity|exact I]|]);
    intros v g2 _;
    rewrite np_fft_rfft_shape_pos by (repeat constructor; assumption);
    apply raises_lift_Ok; apply raises_bind_l; apply Hloop; lia.
Qed.

(** C9 (as amended). The constructor signals nothing: it stores any
    [eps_std], zero and negative included, unchanged.  With [eps_std = 0]
    [__call__] proceeds as for a positive value, with noise identically
    zero.  A negative [eps_std] is refused only when [__call__] reaches the
    sampler on a shape of rank 3, 4 or 5, with NumPy's [ValueError]. *)
Theorem init_accepts_any_eps_std :
  (forall eps sd,
     ConvolutionAware.eps_std (ConvolutionAware.__init__ eps sd) = eps
     /\ ConvolutionAware.seed (ConvolutionAware.__init__ eps sd) = sd)
  /\ (forall E sd shape0 g,
        svd_contract E -> irfft_contract E -> seed_ok sd ->
        supported_rank shape0 -> Forall (lt 0) shape0 ->
        returns (ConvolutionAware.__call__ E (ConvolutionAware.__init__ 0 sd) shape0) g
                (fun t => exists r, t = NpArray r /\ shape r = returned_shape shape0))
  /\ (forall E eps sd shape0 g,
        (eps < 0)%R -> seed_ok sd ->
        supported_rank shape0 -> Forall (lt 0) shape0 ->
        raises (ConvolutionAware.__call__ E (ConvolutionAware.__init__ eps sd) shape0) g
               ValueError).
Proof.
  split; [intros; split; reflexivity|]. split.
  - intros E sd shape0 g Hsvd Hirfft Hseed Hrank Hpos.
    destruct (dispatch_supported E shape0 Hirfft Hrank Hpos)
      as (axes & ks & ifft & stack & filters & x & fo & Hdisp & Hfans & Hx & _ & Hifft
          & Hst & Hfl & Hks & Hax & Hshape).
    eapply returns_weaken.
    + apply (call_spectral E _ shape0 g axes ks ifft stack filters x fo); try assumption.
      cbn. lra.
    + intros t (r & -> & Hrs & _). exists r. split; [reflexivity|].
      rewrite Hrs. exact Hshape.
  - intros E eps sd shape0 g He Hseed Hrank Hpos.
    apply call_negative; assumption.
Qed.

(** C9 as stated fails: an initializer built with [eps_std = 0] is
    accepted, and its call on [(3, 3, 4, 8)] returns an array. *)
Lemma init_accepts_any_eps_std_counterexample :
  ConvolutionAware.eps_std (ConvolutionAware.__init__ 0 (Some 42%Z)) = 0%R
  /\ returns (ConvolutionAware.__call__ reference_env
                (ConvolutionAware.__init__ 0 (Some 42%Z)) [3; 3; 4; 8])
             reference_rng
             (fun t => exists r, t = NpArray r).
Proof.
  split; [reflexivity|].
  destruct (dispatch_supported reference_env [3; 3; 4; 8] reference_irfft_contract
              ltac:(right; left; reflexivity) ltac:(repeat constructor; lia))
    as (axes & ks & ifft & stack & filters & x & fo & Hdisp & Hfans & Hx & _ & Hifft
        & Hst & Hfl & Hks & Hax & Hshape).
  eapply returns_weaken.
  - apply (call_spectral reference_env (ConvolutionAware.__init__ 0 (Some 42%Z))
             [3; 3; 4; 8] reference_rng axes ks ifft stack filters x fo);
      try assumption.
    + apply reference_svd_contract.
    + cbn. lra.
    + cbn. lia.
  - intros t (r & -> & _). exists r. reflexivity.
Qed.

Lemma init_accepts_any_eps_std_witness :
  raises (ConvolutionAware.__call__ reference_env
            (ConvolutionAware.__init__ (-1) None) [3; 3; 4; 8])
         reference_rng ValueError.
Proof.
  refine (proj2 (proj2 init_accepts_any_eps_std) reference_env (-1)%R None [3; 3; 4; 8]
            reference_rng _ I _ _).
  - lra.
  - right. left. reflexivity.
  - repeat constructor; lia.
Defined.

(** ** Determinism *)

(** C3. With a configured integer seed, what [__call__] returns (the array,
    or the exception) is a function of the seed, the shape and the
    configuration alone: it is the same from any two states of the
    generator, in particular in two successive calls. *)
Theorem call_deterministic (E : env) (eps : R) (s : Z) (o : Orthogonal)
    (shape0 : list nat) (g1 g2 : RNG) :
  fst (ConvolutionAware.__call__ E
         {| ConvolutionAware.eps_std := eps; ConvolutionAware.seed := Some s;
            ConvolutionAware.orthogonal := o |} shape0 g1)
  = fst (ConvolutionAware.__call__ E
           {| ConvolutionAware.eps_std := eps; ConvolutionAware.seed := Some s;
              ConvolutionAware.orthogonal := o |} shape0 g2)
  /\ (let self := {| ConvolutionAware.eps_std := eps; ConvolutionAware.seed := Some s;
                     ConvolutionAware.orthogonal := o |} in
      fst (ConvolutionAware.__call__ E self shape0
             (snd (ConvolutionAware.__call__ E self shape0 g1)))
      = fst (ConvolutionAware.__call__ E self shape0 g1)).
Proof.
  assert (Hany : forall g g',
            fst (ConvolutionAware.__call__ E
                   {| ConvolutionAware.eps_std := eps; ConvolutionAware.seed := Some s;
                      ConvolutionAware.orthogonal := o |} shape0 g)
            = fst (ConvolutionAware.__call__ E
                     {| ConvolutionAware.eps_std := eps; ConvolutionAware.seed := Some s;
                        ConvolutionAware.orthogonal := o |} shape0 g')).
  { intros g g'. unfold ConvolutionAware.__call__. cbn [ConvolutionAware.seed].
    unfold bind at 1. unfold bind at 2. unfold np_random_seed.
    destruct ((0 <=? s)%Z && (s <? 2 ^ 32)%Z); reflexivity. }
  split; [apply Hany|]. cbv zeta. apply Hany.
Qed.

(** ** The fallback path *)

Lemma np_prod_removelast_last (l : list nat) :
  l <> [] -> np_prod (removelast l) * List.last l 0 = np_prod l.
Proof.
  induction l as [|d l IH]; [contradiction|]. intros _.
  destruct l as [|d' l'].
  - cbn. lia.
  - change (np_prod (d :: removelast (d' :: l')) * List.last (d' :: l') 0
            = np_prod (d :: d' :: l')).
    assert (IH' := IH ltac:(discriminate)).
    change (np_prod (d :: removelast (d' :: l'))) with (d * np_prod (removelast (d' :: l'))).
    change (np_prod (d :: d' :: l')) with (d * np_prod (d' :: l')).
    rewrite <- IH'. lia.
Qed.

Lemma np_eye_rect_length (n m : nat) : length (data (np_eye_rect n m)) = n * m.
Proof.
  unfold np_eye_rect. cbn [data].
  apply length_flat_map_blocks. intros k. rewrite length_map, length_seq. reflexivity.
Qed.

(** The factor the reference fallback keeps has as many entries as the
    sample it decomposed. *)
Lemma reference_svd_reduced_pick (a : ndarray R) (m n : nat) :
  shape a = [m; n] ->
  let '(u, _, v) := reference_svd_reduced a in
  length (data (if decide (shape u = [m; n]) then u else v)) = m * n.
Proof.
  intros Hs. unfold reference_svd_reduced. rewrite Hs. cbn [nth].
  destruct (decide (shape (np_eye_rect m (Nat.min m n)) = [m; n])) as [Heq|Hne].
  - cbn [np_eye_rect shape] in Heq. injection Heq as Heq.
    rewrite np_eye_rect_length, Heq. reflexivity.
  - rewrite np_eye_rect_length.
    assert (Nat.min m n <> n) by (intros Hmin; apply Hne; cbn; rewrite Hmin; reflexivity).
    replace (Nat.min m n) with m by lia. reflexivity.
Qed.

(** The sample the fallback initializer draws, from the global generator or
    from its own. *)
Lemma orthogonal_draw (seed_stream : Z -> nat -> R) (o : Orthogonal)
    (size : list nat) (g : RNG) :
  seed_ok (orthogonal_seed o) ->
  exists a g1,
    match orthogonal_seed o with
    | None => np_random_normal 0 1 size
    | Some s =>
        fun g =>
          if ((0 <=? s) && (s <? 2 ^ 32))%Z
          then (fst (np_random_normal 0 1 size {| stream := seed_stream s; pos := 0 |}), g)
          else (Raise ValueError, g)
    end g = (Ok a, g1)
    /\ shape a = size.
Proof.
  intros Hseed. destruct (orthogonal_seed o) as [s|]; cbn [seed_ok] in Hseed.
  - destruct Hseed as [Hlo Hhi].
    destruct (Z.leb_spec 0 s); [|lia]. destruct (Z.ltb_spec s (2 ^ 32)); [|lia].
    cbn [andb]. rewrite np_random_normal_run by lra.
    do 2 eexists. split; reflexivity.
  - rewrite np_random_normal_run by lra. do 2 eexists. split; reflexivity.
Qed.

Lemma bind_Ok {A B} (m : M A) (k : A -> M B) (g g1 : RNG) (a : A) :
  m g = (Ok a, g1) -> bind m k g = k a g1.
Proof. intros Hm. unfold bind. rewrite Hm. reflexivity. Qed.

(** The reference fallback initializer, step by step, on a shape that is
    not empty: it raises on one dimension and returns an array of the
    requested shape on more. *)
Lemma reference_orthogonal_run (o : Orthogonal) (shape0 : list nat) (g : RNG) :
  seed_ok (orthogonal_seed o) -> shape0 <> [] ->
  (length shape0 = 1 -> raises (Orthogonal_call reference_env o shape0) g IndexError)
  /\ (2 <= length shape0 ->
      returns (Orthogonal_call reference_env o shape0) g
              (fun q => shape q = shape0 /\ well_formed q)).
Proof.
  intros Hseed Hne.
  destruct (orthogonal_draw (fun s k => INR (Z.to_nat s + k)) o
              [np_prod (removelast shape0); List.last shape0 0] g Hseed)
    as (a & g1 & Hdraw & Hsa).
  pose proof (reference_svd_reduced_pick a _ _ Hsa) as Hpick.
  assert (Hrun : Orthogonal_call reference_env o shape0 g
                 = match shape0 with
                   | _ :: _ :: _ =>
                       let '(u, _, v) := reference_svd_reduced a in
                       let q := if decide (shape u
                                           = [np_prod (removelast shape0);
                                              List.last shape0 0])
                                then u else v in
                       (Ok {| shape := shape0; data := map (Rmult (gain o)) (data q) |}, g1)
                   | _ => (Raise IndexError, g1)
                   end).
  { cbn [Orthogonal_call reference_env]. unfold keras_Orthogonal_call.
    destruct shape0 as [|d rest] eqn:Hshape; [contradiction|]. rewrite <- Hshape in *.
    rewrite (bind_Ok _ _ _ _ _ Hdraw).
    destruct (reference_svd_reduced a) as [[u sv] v].
    unfold bind, lift, np_reshape. rewrite Hpick.
    rewrite (np_prod_removelast_last shape0 Hne), Nat.eqb_refl.
    rewrite Hshape. destruct rest; reflexivity. }
  split.
  - intros Hlen. exists g1. rewrite Hrun.
    destruct shape0 as [|d [|d' rest]]; cbn [length] in Hlen; try lia. reflexivity.
  - intros Hlen. rewrite (np_prod_removelast_last shape0 Hne) in Hpick.
    destruct shape0 as [|d [|d' rest]] eqn:Hshape; cbn [length] in Hlen; try lia.
    rewrite <- Hshape in *.
    destruct (reference_svd_reduced a) as [[u sv] v].
    eexists _, g1. split; [exact Hrun|]. cbn [shape]. split; [reflexivity|].
    unfold well_formed. cbn [shape data]. rewrite length_map, Hpick. reflexivity.
Qed.

Lemma reference_orthogonal_contract : orthogonal_contract reference_env.
Proof.
  intros o shape0 g Hseed _. split.
  - intros Hlen. destruct shape0 as [|d [|d' rest]]; cbn [length] in Hlen; try lia.
    + exists g. reflexivity.
    + apply (reference_orthogonal_run o [d] g Hseed); [discriminate|reflexivity].
  - intros Hlen.
    apply (reference_orthogonal_run o shape0 g Hseed); [|exact Hlen].
    intros ->. cbn in Hlen. lia.
Qed.

(** On a shape with positive entries whose rank is not 3, 4 or 5,
    [2 / fan_in] does not raise and the dispatch takes the fallback. *)
Lemma call_fallback_run (E : env) (self : ConvolutionAware.t) (shape0 : list nat) (g : RNG) :
  seed_ok (ConvolutionAware.seed self) -> ~ supported_rank shape0 -> Forall (lt 0) shape0 ->
  ConvolutionAware.__call__ E self shape0 g
  = (q <- Orthogonal_call E (ConvolutionAware.orthogonal self) shape0 ;;
     ret (K_variable q)) (reseed E (ConvolutionAware.seed self) g).
Proof.
  intros Hseed Hrank Hpos.
  unfold ConvolutionAware.__call__. unfold bind at 1.
  rewrite (seeding_returns E _ g Hseed).
  unfold supported_rank in Hrank.
  destruct shape0 as [|a [|b [|c [|d [|e [|f ?]]]]]];
    cbn [length] in Hrank; try lia; try reflexivity.
  unfold _compute_fans. cbn [length nth py_div_2].
  inversion Hpos as [|? ? Ha _]; subst.
  destruct a as [|a]; [lia|]. reflexivity.
Qed.

(** C7 (as amended). On a shape with positive entries whose rank is not 3,
    4 or 5, [__call__] is the seeding followed by Keras's orthogonal
    initializer on the requested shape, and that initializer decides the
    outcome.  On a shape of rank 0 or 1 it raises [IndexError], and so does
    [__call__].  On a shape of rank 2 or of rank 6 and more [__call__]
    raises nothing and returns, wrapped by [K.variable], the array the
    initializer returns in the state the seeding left, of exactly the
    requested shape.  Either way no transform or decomposition of the
    spectral path is involved: the outcome is the same whatever
    [np.linalg.svd] and the inverse transforms are. *)
Theorem call_fallback (E : env) (self : ConvolutionAware.t) (shape0 : list nat) (g : RNG) :
  orthogonal_contract E ->
  seed_ok (ConvolutionAware.seed self) ->
  seed_ok (orthogonal_seed (ConvolutionAware.orthogonal self)) ->
  ~ supported_rank shape0 -> Forall (lt 0) shape0 ->
  (length shape0 < 2 ->
   raises (ConvolutionAware.__call__ E self shape0) g IndexError)
  /\ (2 <= length shape0 ->
      exists q g',
        Orthogonal_call E (ConvolutionAware.orthogonal self) shape0
          (reseed E (ConvolutionAware.seed self) g) = (Ok q, g')
        /\ ConvolutionAware.__call__ E self shape0 g = (Ok (KVariable q), g')
        /\ shape q = shape0 /\ well_formed q)
  /\ (forall E',
        seed_stream E' = seed_stream E ->
        Orthogonal_call E' = Orthogonal_call E ->
        image_data_format E' = image_data_format E ->
        ConvolutionAware.__call__ E' self shape0 g
        = ConvolutionAware.__call__ E self shape0 g).
Proof.
  intros Hortho Hseed Hoseed Hrank Hpos.
  pose proof (call_fallback_run E self shape0 g Hseed Hrank Hpos) as Hrun.
  destruct (Hortho (ConvolutionAware.orthogonal self) shape0
              (reseed E (ConvolutionAware.seed self) g) Hoseed Hpos) as [Hlow Hhigh].
  split; [|split].
  - intros Hlen. destruct (Hlow Hlen) as (g' & Hraise).
    exists g'. rewrite Hrun. unfold bind. rewrite Hraise. reflexivity.
  - intros Hlen. destruct (Hhigh Hlen) as (q & g' & Hq & Hs & Hw).
    exists q, g'. split; [exact Hq|]. split; [|split; assumption].
    rewrite Hrun. unfold bind. rewrite Hq. reflexivity.
  - intros E' Hstream Hcall Hfmt.
    rewrite Hrun.
    rewrite (call_fallback_run E' self shape0 g Hseed Hrank Hpos).
    rewrite Hcall. unfold reseed. rewrite Hstream. reflexivity.
Qed.

Lemma call_fallback_witness :
  exists q g',
    ConvolutionAware.__call__ reference_env
      (ConvolutionAware.__init__ ConvolutionAware.default_eps_std None) [64; 10]
      reference_rng
    = (Ok (KVariable q), g')
    /\ shape q = [64; 10] /\ well_formed q.
Proof.
  destruct (call_fallback reference_env
              (ConvolutionAware.__init__ ConvolutionAware.default_eps_std None)
              [64; 10] reference_rng reference_orthogonal_contract I I
              ltac:(unfold supported_rank; cbn; lia)
              ltac:(repeat constructor; lia))
    as (_ & Hmatrix & _).
  destruct (Hmatrix ltac:(cbn; lia)) as (q & g' & _ & Hcall & Hs & Hw).
  exists q, g'. split; [exact Hcall|]. split; [exact Hs|exact Hw].
Defined.

(** C7 as stated fails on the rank the specification names: for the shape
    [(64,)] the fallback initializer draws its sample, then slices the
    result with [shape[1]], and [__call__] raises [IndexError]. *)
Lemma call_fallback_counterexample :
  ~ supported_rank [64]
  /\ fst (ConvolutionAware.__call__ reference_env
            (ConvolutionAware.__init__ ConvolutionAware.default_eps_std None) [64]
            reference_rng)
     = Raise IndexError.
Proof.
  split; [unfold supported_rank; cbn; lia|].
  rewrite (call_fallback_run reference_env
             (ConvolutionAware.__init__ ConvolutionAware.default_eps_std None)
             [64] reference_rng I
             ltac:(unfold supported_rank; cbn; lia) ltac:(repeat constructor; lia)).
  destruct (proj1 (reference_orthogonal_run Orthogonal_init [64]
                     (reseed reference_env None reference_rng) I ltac:(discriminate))
              eq_refl)
    as (g1 & Hrun).
  cbn [ConvolutionAware.__init__ ConvolutionAware.orthogonal ConvolutionAware.seed] in *.
  unfold bind. rewrite Hrun. reflexivity.
Qed.

(** On a matrix shape with no rows the division [2 / fan_in] raises before
    the fallback is reached. *)
Lemma call_matrix_without_rows (E : env) (self : ConvolutionAware.t)
    (columns : nat) (g : RNG) :
  seed_ok (ConvolutionAware.seed self) ->
  raises (ConvolutionAware.__call__ E self [0; columns]) g ZeroDivisionError.
Proof.
  intros Hseed. unfold ConvolutionAware.__call__.
  apply (raises_bind_r _ _ _ _ (fun _ => True)).
  { do 2 eexists. split; [apply seeding_returns; exact Hseed|exact I]. }
  intros [] g1 _. cbn. apply raises_bind_l. exists g1. reflexivity.
Qed.

(** ** Configuration *)

(** C10. The dictionary [get_config] returns has exactly the keys
    ['eps_std'] and ['seed'], holding the constructor's values, and building
    an initializer from it gives back the same configuration. *)
Theorem get_config_round_trip (eps : R) (sd : option Z) :
  dom (ConvolutionAware.get_config (ConvolutionAware.__init__ eps sd))
  = ({[ "eps_std"; "seed" ]} : gset string)
  /\ ConvolutionAware.get_config (ConvolutionAware.__init__ eps sd) !! "eps_std"
     = Some (ConvolutionAware.PyFloat eps)
  /\ ConvolutionAware.get_config (ConvolutionAware.__init__ eps sd) !! "seed"
     = Some (match sd with
             | Some s => ConvolutionAware.PyInteger s
             | None => ConvolutionAware.PyNone
             end)
  /\ ConvolutionAware.from_config
       (ConvolutionAware.get_config (ConvolutionAware.__init__ eps sd))
     = Some (ConvolutionAware.__init__ eps sd).
Proof.
  assert (Hdom : dom (ConvolutionAware.get_config (ConvolutionAware.__init__ eps sd))
                 = ({[ "eps_std"; "seed" ]} : gset string)).
  { unfold ConvolutionAware.get_config. rewrite dom_insert_L, dom_singleton_L. reflexivity. }
  assert (He : ConvolutionAware.get_config (ConvolutionAware.__init__ eps sd) !! "eps_std"
               = Some (ConvolutionAware.PyFloat eps)).
  { unfold ConvolutionAware.get_config. apply lookup_insert_eq. }
  assert (Hs : ConvolutionAware.get_config (ConvolutionAware.__init__ eps sd) !! "seed"
               = Some (match sd with
                       | Some s => ConvolutionAware.PyInteger s
                       | None => ConvolutionAware.PyNone
                       end)).
  { unfold ConvolutionAware.get_config. rewrite lookup_insert_ne by discriminate.
    apply lookup_singleton_eq. }
  split; [exact Hdom|]. split; [exact He|]. split; [exact Hs|].
  unfold ConvolutionAware.from_config.
  rewrite decide_True by (rewrite Hdom; reflexivity).
  rewrite He, Hs. destruct sd; reflexivity.
Qed.

(** * Further properties of the module *)

(** ** Rows of the basis beyond the first block *)

Lemma nth_concat_block {A} (ls : list (list A)) (m b k : nat) (d : A) :
  Forall (fun l => length l = m) ls -> b < length ls -> k < m ->
  nth (b * m + k) (concat ls) d = nth k (nth b ls []) d.
Proof.
  intros Hall. revert b. induction Hall as [|l ls Hl _ IH]; intros b Hb Hk.
  - simpl in Hb. lia.
  - destruct b as [|b]; cbn [concat nth].
    + cbn. apply app_nth1. lia.
    + rewrite app_nth2 by (rewrite Hl; simpl; lia).
      rewrite Hl. replace (S b * m + k - m) with (b * m + k) by (simpl; lia).
      apply IH; [simpl in Hb; lia|exact Hk].
Qed.

(** X1. For every [count >= 1] and [dim > 1], two rows of the matrix
    [_create_basis(count, dim)] returns that come from the same block of
    [dim] rows are orthonormal: each has unit norm and two distinct ones
    have inner product zero, whatever [count] is. *)
Theorem create_basis_block_orthonormal (E : env) (self : ConvolutionAware.t)
    (count dim : nat) (g : RNG) :
  svd_contract E -> 1 <= count -> 1 < dim ->
  exists p g',
    ConvolutionAware._create_basis E self count dim g = (Ok p, g')
    /\ length (tolist p) = count
    /\ forall b k1 k2,
         k1 < dim -> k2 < dim -> b * dim + k1 < count -> b * dim + k2 < count ->
         dot (nth (b * dim + k1) (tolist p) []) (nth (b * dim + k2) (tolist p) [])
         = if decide (k1 = k2) then 1%R else 0%R.
Proof.
  intros Hsvd Hc Hd.
  destruct (create_basis_blocks E self count dim g Hsvd Hc Hd)
    as (p & g' & Hrun & _ & Hrows & Hs & Hw).
  exists p, g'. split; [exact Hrun|].
  set (blocks := map (fun i => basis_block E dim (advance g (i * (dim * dim))))
                     (seq 0 (count / dim + 1))) in *.
  assert (Hblocks : Forall (fun b => length b = dim) blocks).
  { apply Forall_map, Forall_forall. intros i _. cbn.
    apply basis_block_length. exact Hsvd. }
  assert (Hlen : length (concat blocks) = (count / dim + 1) * dim).
  { rewrite (length_concat_uniform _ dim Hblocks). unfold blocks.
    rewrite length_map, length_seq. reflexivity. }
  assert (Hgt : count < (count / dim + 1) * dim).
  { pose proof (Nat.div_mod_eq count dim).
    pose proof (Nat.mod_upper_bound count dim ltac:(lia)). nia. }
  split; [rewrite Hrows, length_take; lia|].
  intros b k1 k2 Hk1 Hk2 Hb1 Hb2. rewrite Hrows.
  assert (Hb : b < count / dim + 1).
  { assert (b <= count / dim) by (apply Nat.div_le_lower_bound; nia). lia. }
  assert (Hrow : forall k, k < dim -> b * dim + k < count ->
            nth (b * dim + k) (take count (concat blocks)) []
            = nth k (basis_block E dim (advance g (b * (dim * dim)))) []).
  { intros k Hk Hbk.
    rewrite !nth_lookup, lookup_take_lt by assumption. rewrite <- !nth_lookup.
    rewrite (nth_concat_block blocks dim b k [] Hblocks)
      by (unfold blocks; rewrite ?length_map, ?length_seq; assumption).
    unfold blocks. rewrite nth_map_seq by assumption. reflexivity. }
  rewrite !Hrow by assumption.
  apply basis_block_dot; assumption.
Qed.

Lemma create_basis_block_orthonormal_witness :
  exists p g',
    ConvolutionAware._create_basis reference_env
      (ConvolutionAware.__init__ ConvolutionAware.default_eps_std None) 5 2 reference_rng
    = (Ok p, g')
    /\ length (tolist p) = 5.
Proof.
  destruct (create_basis_block_orthonormal reference_env
              (ConvolutionAware.__init__ ConvolutionAware.default_eps_std None)
              5 2 reference_rng reference_svd_contract ltac:(lia) ltac:(lia))
    as (p & g' & Hrun & Hlen & _).
  exists p, g'. split; assumption.
Defined.

(** ** Symmetrising a transpose *)

Lemma np_T_entry (a : ndarray R) (n i j : nat) :
  shape a = [n; n] -> i < n -> j < n ->
  entry n (np_T a) i j = entry n a j i.
Proof.
  intros Hs Hi Hj. unfold entry. apply nth_lookup_Some.
  rewrite (np_T_lookup a n n i j Hs Hi Hj). reflexivity.
Qed.

Lemma np_T_well_formed (a : ndarray R) (n : nat) :
  shape a = [n; n] -> well_formed (np_T a).
Proof.
  intros Hs. unfold well_formed.
  rewrite (np_T_length a n n Hs), (np_T_shape a n n Hs). simpl. lia.
Qed.

(** X2. For every square matrix [a], [_symmetrize(a.T)] is
    [_symmetrize(a)]: the result depends on [a] only through the diagonal
    and the sums [a[i,j] + a[j,i]]. *)
Theorem symmetrize_transpose (a : ndarray R) (n : nat) :
  shape a = [n; n] -> well_formed a ->
  ConvolutionAware._symmetrize (np_T a) = ConvolutionAware._symmetrize a.
Proof.
  intros Hs Hw.
  pose proof (np_T_shape a n n Hs) as HsT.
  pose proof (np_T_well_formed a n Hs) as HwT.
  assert (Hdata : data (ConvolutionAware._symmetrize (np_T a))
                  = data (ConvolutionAware._symmetrize a)).
  { apply list_eq. intros o.
    destruct (Nat.lt_ge_cases o (n * n)) as [Ho|Ho].
    - assert (Hn : 0 < n) by nia.
      assert (Hi : o / n < n) by (apply Nat.Div0.div_lt_upper_bound; lia).
      assert (Hj : o mod n < n) by (apply Nat.mod_upper_bound; lia).
      assert (Hdec : o = o / n * n + o mod n)
        by (pose proof (Nat.div_mod_eq o n); lia).
      rewrite Hdec.
      rewrite (symmetrize_lookup (np_T a) n _ _ HsT HwT Hi Hj).
      rewrite (symmetrize_lookup a n _ _ Hs Hw Hi Hj).
      rewrite !np_T_entry by assumption.
      destruct (o / n =? o mod n); f_equal; lra.
    - rewrite !lookup_ge_None_2; [reflexivity| |].
      + rewrite (symmetrize_length a n Hs Hw). exact Ho.
      + rewrite (symmetrize_length (np_T a) n HsT HwT). exact Ho. }
  destruct (ConvolutionAware._symmetrize (np_T a)) as [s1 d1] eqn:E1.
  destruct (ConvolutionAware._symmetrize a) as [s2 d2] eqn:E2.
  assert (Hs1 : s1 = shape (np_T a))
    by (change s1 with (shape {| shape := s1; data := d1 |}); rewrite <- E1; reflexivity).
  assert (Hs2 : s2 = shape a)
    by (change s2 with (shape {| shape := s2; data := d2 |}); rewrite <- E2; reflexivity).
  cbn in Hdata. subst. rewrite HsT, Hs. reflexivity.
Qed.

Lemma symmetrize_transpose_witness :
  ConvolutionAware._symmetrize (np_T {| shape := [2; 2]; data := [1; 2; 3; 4]%R |})
  = ConvolutionAware._symmetrize {| shape := [2; 2]; data := [1; 2; 3; 4]%R |}.
Proof.
  exact (symmetrize_transpose {| shape := [2; 2]; data := [1; 2; 3; 4]%R |} 2
           eq_refl eq_refl).
Defined.

(** ** The rescaler: overall magnitude and fixed points *)

Lemma Rsign_mul_pos (x c : R) : (0 < c)%R -> Rsign (x * c) = Rsign x.
Proof.
  intros Hc. unfold Rsign.
  destruct (Rlt_dec (x * c) 0), (Rlt_dec x 0); try nra; try reflexivity.
  destruct (Rlt_dec 0 (x * c)), (Rlt_dec 0 x); try nra; reflexivity.
Qed.

Lemma np_var_nonempty (bank : ndarray R) :
  data bank <> [] -> np_var bank = Finite (variance_of (data bank)).
Proof. unfold np_var. destruct (data bank); [contradiction|reflexivity]. Qed.

(** X3. In exact arithmetic, multiplying the bank by a positive constant
    before rescaling does not change what [_scale_filters] returns for a
    positive target variance: the factor [sqrt(variance / c_var)] undoes
    the constant.  (In floating point the two results agree up to rounding;
    equality is of the real numbers that idealise them.) *)
Theorem scale_filters_scale_invariant (bank : ndarray R) (c v : R) :
  (0 < c)%R -> (0 < v)%R ->
  ConvolutionAware._scale_filters (np_scale bank c) (Finite v)
  = ConvolutionAware._scale_filters bank (Finite v).
Proof.
  intros Hc Hv.
  assert (Hdata : data (ConvolutionAware._scale_filters (np_scale bank c) (Finite v))
                  = data (ConvolutionAware._scale_filters bank (Finite v))).
  { destruct (data bank) as [|x0 l0] eqn:Hb.
    { unfold ConvolutionAware._scale_filters, np_scale. cbn [data]. rewrite Hb. reflexivity. }
    assert (Hne : data bank <> []) by (rewrite Hb; discriminate).
    assert (Hne' : data (np_scale bank c) <> [])
      by (unfold np_scale; cbn [data]; rewrite Hb; discriminate).
    pose proof (np_var_nonempty bank Hne) as Hvar.
    pose proof (np_var_nonempty (np_scale bank c) Hne') as Hvar'.
    unfold np_scale in Hvar' at 2. cbn [data] in Hvar'. rewrite variance_scale in Hvar'.
    destruct (Req_dec_T (variance_of (data bank)) 0) as [Hz|Hnz].
    - rewrite Hz in Hvar. rewrite Hz, Rmult_0_r in Hvar'.
      rewrite (scale_filters_degenerate _ v Hv Hvar'), (scale_filters_degenerate _ v Hv Hvar).
      unfold np_scale. cbn [data]. rewrite map_map. apply map_ext. intros x.
      rewrite (Rsign_mul_pos x c Hc). reflexivity.
    - pose proof (variance_nonneg (data bank)) as Hge.
      assert (Hpos : (0 < variance_of (data bank))%R) by lra.
      assert (Hcc : (0 < c * c)%R) by (apply Rmult_lt_0_compat; exact Hc).
      assert (Hnz' : (c * c * variance_of (data bank))%R <> 0%R)
        by (apply Rgt_not_eq, Rmult_lt_0_compat; assumption).
      destruct (scale_filters_regular _ v _ Hv Hvar' Hnz') as [-> _].
      destruct (scale_filters_regular _ v _ Hv Hvar Hnz) as [-> _].
      f_equal. unfold np_scale. cbn [data]. rewrite map_map. apply map_ext. intros x.
      replace (v / (c * c * variance_of (data bank)))%R
        with (v / variance_of (data bank) / (c * c))%R by (field; split; lra).
      rewrite sqrt_div_alt by nra. rewrite sqrt_square by lra. field. lra. }
  unfold ConvolutionAware._scale_filters in *. cbn [data shape np_scale] in *.
  f_equal. exact Hdata.
Qed.

Lemma scale_filters_scale_invariant_witness :
  ConvolutionAware._scale_filters
    (np_scale {| shape := [1; 1; 2]; data := [1; 3]%R |} 5) (Finite 2)
  = ConvolutionAware._scale_filters {| shape := [1; 1; 2]; data := [1; 3]%R |} (Finite 2).
Proof.
  apply (scale_filters_scale_invariant {| shape := [1; 1; 2]; data := [1; 3]%R |} 5 2); lra.
Defined.

(** X4. A bank whose empirical variance already is the positive target is
    returned unchanged: the factor [sqrt(variance / c_var)] is 1. *)
Theorem scale_filters_fixed (bank : ndarray R) (v : R) :
  (0 < v)%R -> np_var bank = Finite v ->
  ConvolutionAware._scale_filters bank (Finite v)
  = {| shape := shape bank; data := map Finite (data bank) |}.
Proof.
  intros Hv Hvar.
  destruct (scale_filters_regular bank v v Hv Hvar ltac:(lra)) as [Hd _].
  unfold ConvolutionAware._scale_filters in *. cbn [data] in Hd. f_equal.
  rewrite Hd. f_equal.
  rewrite (map_ext _ (fun x => x)); [apply map_id|].
  intros x. replace (v / v)%R with 1%R by (field; lra). rewrite sqrt_1. lra.
Qed.

Lemma scale_filters_fixed_witness :
  ConvolutionAware._scale_filters {| shape := [1; 1; 2]; data := [1; -1]%R |} (Finite 1)
  = {| shape := [1; 1; 2]; data := [Finite 1; Finite (-1)] |}.
Proof.
  refine (scale_filters_fixed {| shape := [1; 1; 2]; data := [1; -1]%R |} 1 _ _).
  - lra.
  - unfold np_var. cbn [data]. f_equal.
    unfold variance_of, mean. cbn [map length]. rewrite !Rsum_cons, Rsum_nil.
    cbn [INR]. field.
Defined.

(** ** What a call does to the shared generator *)

Lemma steps_ret {A} (a : A) (g : RNG) (P : A -> Prop) : P a -> steps (ret a) g 0 P.
Proof.
  intros HP b g' Hr. unfold ret in Hr. injection Hr as <- <-.
  rewrite advance_0. split; [reflexivity|exact HP].
Qed.

Lemma steps_ret_True {A} (a : A) (g : RNG) : steps (ret a) g 0 (fun _ => True).
Proof. apply steps_ret. exact I. Qed.

Lemma steps_bind {A B} (m : M A) (k : A -> M B) (g : RNG) (n n' : nat)
    (P : A -> Prop) (Q : B -> Prop) :
  steps m g n P -> (forall a, P a -> steps (k a) (advance g n) n' Q) ->
  steps (bind m k) g (n + n') Q.
Proof.
  intros Hm Hk b g'' Hr. unfold bind in Hr.
  destruct (m g) as [[a|e] g1] eqn:Hmg; [|discriminate].
  destruct (Hm a g1 Hmg) as [-> HP].
  destruct (Hk a HP b g'' Hr) as [-> HQ].
  rewrite advance_advance. split; [reflexivity|exact HQ].
Qed.

Lemma steps_lift {A} (r : result A) (g : RNG) :
  steps (lift r) g 0 (fun a => r = Ok a).
Proof.
  intros a g' Hr. unfold lift in Hr. injection Hr as -> <-.
  rewrite advance_0. split; reflexivity.
Qed.

Lemma steps_weaken {A} (m : M A) (g : RNG) (n n' : nat) (P Q : A -> Prop) :
  steps m g n P -> n = n' -> (forall a, P a -> Q a) -> steps m g n' Q.
Proof. intros Hm <- HPQ a g' Hr. destruct (Hm a g' Hr) as [-> HP]. auto. Qed.

Lemma steps_normal (loc scale : R) (size : list nat) (g : RNG) :
  steps (np_random_normal loc scale size) g (np_prod size) (fun _ => True).
Proof.
  intros a g' Hr. destruct (Rlt_dec scale 0) as [Hneg|Hpos].
  - rewrite np_random_normal_negative in Hr by exact Hneg. discriminate.
  - rewrite np_random_normal_run in Hr by exact Hpos. injection Hr as _ <-.
    split; [reflexivity|exact I].
Qed.

Lemma steps_mapM {A B} (f : A -> M B) (n0 : nat) (l : list A) (g : RNG) :
  (forall x g', steps (f x) g' n0 (fun _ => True)) ->
  steps (mapM f l) g (length l * n0) (fun _ => True).
Proof.
  intros Hf. revert g. induction l as [|x l IH]; intros g.
  - apply steps_ret_True.
  - cbn [mapM length Nat.mul].
    eapply steps_bind; [apply Hf|]. intros y _.
    eapply steps_weaken; [|apply Nat.add_0_r|intros; exact I].
    eapply steps_bind; [apply IH|]. intros ys _. apply steps_ret_True.
Qed.

Lemma steps_for_each {A S} (body : A -> S -> M S) (n0 : nat)
    (l : list A) (s : S) (g : RNG) :
  (forall x s' g', steps (body x s') g' n0 (fun _ => True)) ->
  steps (for_each l body s) g (length l * n0) (fun _ => True).
Proof.
  intros Hb. revert s g. induction l as [|x l IH]; intros s g.
  - apply steps_ret_True.
  - cbn [for_each length Nat.mul].
    eapply steps_bind; [apply Hb|]. intros s' _. apply IH.
Qed.

Lemma steps_create_basis (E : env) (self : ConvolutionAware.t)
    (filters size : nat) (g : RNG) :
  steps (ConvolutionAware._create_basis E self filters size) g
        (basis_draws filters size) (fun _ => True).
Proof.
  unfold basis_draws. destruct (Nat.eqb_spec size 1) as [->|Hne].
  - unfold ConvolutionAware._create_basis. cbn [Nat.eqb]. apply steps_normal.
  - intros p g' Hr. rewrite create_basis_run in Hr by exact Hne.
    injection Hr as _ <-. split; [reflexivity|exact I].
Qed.

Lemma steps_make_filters (E : env) (self : ConvolutionAware.t)
    (ks : list nat) (ifft : ndarray R -> list nat -> ndarray R) (stack : nat) (g : RNG) :
  steps (ConvolutionAware.make_filters E self ks (rfft_shape ks) ifft stack) g
        (basis_draws stack (np_prod (rfft_shape ks)) + stack * np_prod ks)
        (fun _ => True).
Proof.
  unfold ConvolutionAware.make_filters.
  eapply steps_bind; [apply steps_create_basis|]. intros p _.
  eapply steps_weaken; [|reflexivity|intros; exact I].
  change (stack * np_prod ks) with (0 + stack * np_prod ks).
  eapply steps_bind; [apply steps_lift|]. intros b Hb.
  assert (Hlen : length (subarrays b) = stack).
  { unfold np_reshape in Hb.
    destruct (np_prod (stack :: rfft_shape ks) =? length (data p)); [|discriminate].
    injection Hb as <-. unfold subarrays. cbn [shape].
    rewrite length_map, length_seq. reflexivity. }
  rewrite <- Hlen. apply steps_mapM. intros x g'.
  eapply steps_weaken; [|apply Nat.add_0_r|intros; exact I].
  eapply steps_bind; [apply steps_normal|]. intros noise _. apply steps_ret_True.
Qed.

(** Whenever [__call__] returns on a shape the rank dispatch accepts, the
    generator has been reseeded and moved on by the draws of the loop. *)
Lemma steps_call (E : env) (self : ConvolutionAware.t) (shape0 : list nat) (g : RNG)
    (axes ks : list nat) (ifft : ndarray R -> list nat -> ndarray R)
    (stack filters : nat) (t : tensor) (g' : RNG) :
  ConvolutionAware.dispatch E shape0 = Some (axes, ks, ifft, stack, filters) ->
  ConvolutionAware.__call__ E self shape0 g = (Ok t, g') ->
  g' = advance (reseed E (ConvolutionAware.seed self) g) (spectral_draws ks stack filters).
Proof.
  intros Hdisp Hrun. unfold ConvolutionAware.__call__ in Hrun.
  unfold bind at 1 in Hrun.
  destruct (match ConvolutionAware.seed self with
            | Some s => np_random_seed E s
            | None => ret tt
            end g) as [[[]|e] g1] eqn:Hseed; [|discriminate].
  assert (Hg1 : g1 = reseed E (ConvolutionAware.seed self) g).
  { destruct (ConvolutionAware.seed self) as [s|]; cbn [reseed].
    - unfold np_random_seed in Hseed.
      destruct ((0 <=? s)%Z && (s <? 2 ^ 32)%Z); [|discriminate].
      injection Hseed as <-. reflexivity.
    - unfold ret in Hseed. injection Hseed as <-. reflexivity. }
  subst g1. rewrite Hdisp in Hrun.
  destruct (_compute_fans shape0 (image_data_format E)) as [fan_in fan_out].
  revert Hrun.
  match goal with
  | |- ?m ?g0 = _ -> _ =>
      assert (Hsteps : steps m g0 (spectral_draws ks stack filters) (fun _ => True))
  end.
  { replace (spectral_draws ks stack filters)
      with (0 + (0 + (filters
                      * (basis_draws stack (np_prod (rfft_shape ks)) + stack * np_prod ks)
                      + 0)))
      by (unfold spectral_draws; lia).
    eapply steps_bind; [apply steps_lift|]. intros v _.
    eapply steps_bind; [apply steps_lift|]. intros kfs Hkfs.
    assert (Hk : kfs = rfft_shape ks).
    { unfold np_fft_rfft_shape in Hkfs.
      destruct (forallb (Nat.ltb 0) ks); [injection Hkfs as <-; reflexivity|discriminate]. }
    subst kfs.
    eapply steps_bind.
    - apply (steps_weaken _ _ (length (seq 0 filters)
                                  * (basis_draws stack (np_prod (rfft_shape ks))
                                     + stack * np_prod ks)) _ (fun _ => True) (fun _ => True));
        [|rewrite length_seq; reflexivity|intros; exact I].
      apply steps_for_each. intros _ acc g2.
      eapply steps_weaken; [|apply Nat.add_0_r|intros; exact I].
      eapply steps_bind; [apply steps_make_filters|]. intros fs _.
      apply steps_ret_True.
    - intros init _.
      apply (steps_weaken _ _ (0 + 0) 0 (fun _ => True) (fun _ => True));
        [|reflexivity|intros; exact I].
      eapply steps_bind; [apply steps_lift|]. intros r _. apply steps_ret_True. }
  intros Hrun. destruct (Hsteps t g' Hrun) as [-> _]. reflexivity.
Qed.

Lemma dispatch_sizes (E : env) (shape0 : list nat)
    (axes ks : list nat) (ifft : ndarray R -> list nat -> ndarray R) (stack filters : nat) :
  ConvolutionAware.dispatch E shape0 = Some (axes, ks, ifft, stack, filters) ->
  spectral_draws ks stack filters = call_draws shape0
  /\ np_prod (filters :: stack :: ks) = np_prod shape0
  /\ np_prod (returned_shape shape0) = np_prod shape0
  /\ (returned_shape shape0 = shape0 <-> shape_kept shape0).
Proof.
  intros Hdisp.
  destruct shape0 as [|a [|b [|c [|d [|e [|f ?]]]]]]; cbn in Hdisp; try discriminate;
    injection Hdisp as <- <- <- <- <-;
    (split; [reflexivity|]); (split; [cbn; ring|]); (split; [cbn; ring|]);
    cbn [returned_shape shape_kept].
  - tauto.
  - split; [intros Heq; injection Heq; congruence|intros ->; reflexivity].
  - split; [intros Heq; injection Heq; intros; repeat split; congruence
           |intros (-> & -> & ->); reflexivity].
Qed.

(** X5. On a shape of rank 3, 4 or 5 with positive entries, [__call__]
    leaves the shared generator reseeded (when a seed is configured) and
    moved on by exactly [filters_size] times the draws of one basis and of
    [stack_size] noise arrays of the kernel's size; with a seed, that state
    does not depend on the state before the call. *)
Theorem call_generator_state (E : env) (self : ConvolutionAware.t)
    (shape0 : list nat) (g : RNG) :
  svd_contract E -> irfft_contract E ->
  ~ (ConvolutionAware.eps_std self < 0)%R -> seed_ok (ConvolutionAware.seed self) ->
  supported_rank shape0 -> Forall (lt 0) shape0 ->
  exists t,
    ConvolutionAware.__call__ E self shape0 g
    = (Ok t, advance (reseed E (ConvolutionAware.seed self) g) (call_draws shape0)).
Proof.
  intros Hsvd Hirfft He Hseed Hrank Hpos.
  destruct (dispatch_supported E shape0 Hirfft Hrank Hpos)
    as (axes & ks & ifft & stack & filters & x & fo & Hdisp & Hfans & Hx & _ & Hifft
        & Hst & Hfl & Hks & Hax & Hshape).
  destruct (call_spectral E self shape0 g axes ks ifft stack filters x fo
              Hdisp Hfans Hx Hsvd Hifft He Hseed Hst Hfl Hks Hax)
    as (t & g' & Hrun & _).
  exists t. rewrite Hrun. f_equal.
  rewrite (steps_call E self shape0 g axes ks ifft stack filters t g' Hdisp Hrun).
  destruct (dispatch_sizes E shape0 axes ks ifft stack filters Hdisp) as [-> _].
  reflexivity.
Qed.

Lemma call_generator_state_witness :
  exists t,
    ConvolutionAware.__call__ reference_env
      (ConvolutionAware.__init__ ConvolutionAware.default_eps_std (Some 42%Z))
      [3; 3; 4; 8] reference_rng
    = (Ok t, advance (reseed reference_env (Some 42%Z) reference_rng)
               (call_draws [3; 3; 4; 8])).
Proof.
  refine (call_generator_state reference_env
            (ConvolutionAware.__init__ ConvolutionAware.default_eps_std (Some 42%Z))
            [3; 3; 4; 8] reference_rng
            reference_svd_contract reference_irfft_contract _ _ _ _).
  - cbn. unfold ConvolutionAware.default_eps_std. lra.
  - cbn. lia.
  - right. left. reflexivity.
  - repeat constructor; lia.
Defined.

(** ** When the requested shape comes back *)

(** X6. On a shape of rank 3, 4 or 5 with positive entries, the array
    [__call__] returns has the requested shape exactly when the rank is 3,
    or the rank is 4 and [stack_size = filters_size], or the rank is 5 and
    the three spatial extents and [filters_size] are all equal. *)
Theorem call_shape_kept (E : env) (self : ConvolutionAware.t)
    (shape0 : list nat) (g : RNG) :
  svd_contract E -> irfft_contract E ->
  ~ (ConvolutionAware.eps_std self < 0)%R -> seed_ok (ConvolutionAware.seed self) ->
  supported_rank shape0 -> Forall (lt 0) shape0 ->
  returns (ConvolutionAware.__call__ E self shape0) g
          (fun t => exists r, t = NpArray r /\ (shape r = shape0 <-> shape_kept shape0)).
Proof.
  intros Hsvd Hirfft He Hseed Hrank Hpos.
  destruct (dispatch_supported E shape0 Hirfft Hrank Hpos)
    as (axes & ks & ifft & stack & filters & x & fo & Hdisp & Hfans & Hx & _ & Hifft
        & Hst & Hfl & Hks & Hax & Hshape).
  eapply returns_weaken.
  - apply (call_spectral E self shape0 g axes ks ifft stack filters x fo); assumption.
  - intros t (r & -> & Hrs & _). exists r. split; [reflexivity|].
    rewrite Hrs, Hshape.
    apply (dispatch_sizes E shape0 axes ks ifft stack filters Hdisp).
Qed.

Lemma call_shape_kept_witness :
  returns (ConvolutionAware.__call__ reference_env
             (ConvolutionAware.__init__ ConvolutionAware.default_eps_std (Some 42%Z))
             [3; 3; 8; 8])
          reference_rng
          (fun t => exists r, t = NpArray r /\ shape r = [3; 3; 8; 8]).
Proof.
  eapply returns_weaken.
  - refine (call_shape_kept reference_env
              (ConvolutionAware.__init__ ConvolutionAware.default_eps_std (Some 42%Z))
              [3; 3; 8; 8] reference_rng
              reference_svd_contract reference_irfft_contract _ _ _ _).
    + cbn. unfold ConvolutionAware.default_eps_std. lra.
    + cbn. lia.
    + right. left. reflexivity.
    + repeat constructor; lia.
  - intros t (r & Ht & Hiff). exists r. split; [exact Ht|].
    apply Hiff. reflexivity.
Defined.

(** X7. On a shape of rank 3, 4 or 5 with positive entries, the array
    [__call__] returns holds exactly as many elements as the requested
    shape, and as many as its own shape says, also where the axes come back
    permuted. *)
Theorem call_size (E : env) (self : ConvolutionAware.t)
    (shape0 : list nat) (g : RNG) :
  svd_contract E -> irfft_contract E ->
  ~ (ConvolutionAware.eps_std self < 0)%R -> seed_ok (ConvolutionAware.seed self) ->
  supported_rank shape0 -> Forall (lt 0) shape0 ->
  returns (ConvolutionAware.__call__ E self shape0) g
          (fun t => exists r,
             t = NpArray r /\ well_formed r /\ length (data r) = np_prod shape0).
Proof.
  intros Hsvd Hirfft He Hseed Hrank Hpos.
  destruct (dispatch_supported E shape0 Hirfft Hrank Hpos)
    as (axes & ks & ifft & stack & filters & x & fo & Hdisp & Hfans & Hx & _ & Hifft
        & Hst & Hfl & Hks & Hax & Hshape).
  destruct (dispatch_sizes E shape0 axes ks ifft stack filters Hdisp)
    as (_ & Hbank & Hret & _).
  eapply returns_weaken.
  - apply (call_spectral_gen (fun _ => True) E self shape0 g axes ks ifft stack filters
             x fo); try assumption.
    intros g'. eapply returns_weaken; [apply make_filters_returns; assumption|].
    intros fs [Hlen Hall]. split; [exact Hlen|].
    eapply Forall_impl; [exact Hall|]. intros a Ha. split; [exact Ha|].
    apply Forall_forall. intros; exact I.
  - intros t (r & bank & -> & Hbs & Hbw & _ & _ & Hrs & Hperm).
    exists r. split; [reflexivity|].
    assert (Hlen : length (data r) = np_prod shape0).
    { rewrite (Permutation_length Hperm).
      unfold ConvolutionAware._scale_filters. cbn [data]. rewrite length_map.
      unfold well_formed in Hbw. rewrite Hbw, Hbs. exact Hbank. }
    split; [|exact Hlen].
    unfold well_formed. rewrite Hlen, Hrs, Hshape, Hret. reflexivity.
Qed.

Lemma call_size_witness :
  returns (ConvolutionAware.__call__ reference_env
             (ConvolutionAware.__init__ ConvolutionAware.default_eps_std (Some 42%Z))
             [3; 3; 4; 8])
          reference_rng
          (fun t => exists r, t = NpArray r /\ length (data r) = np_prod [3; 3; 4; 8]).
Proof.
  eapply returns_weaken.
  - refine (call_size reference_env
              (ConvolutionAware.__init__ ConvolutionAware.default_eps_std (Some 42%Z))
              [3; 3; 4; 8] reference_rng
              reference_svd_contract reference_irfft_contract _ _ _ _).
    + cbn. unfold ConvolutionAware.default_eps_std. lra.
    + cbn. lia.
    + right. left. reflexivity.
    + repeat constructor; lia.
  - intros t (r & Ht & _ & Hlen). exists r. split; assumption.
Defined.

(** ** Errors at the edges *)

(** X8. On a shape whose rank is not 3, 4 or 5, [__call__] never reads
    [eps_std]: two initializers that differ only in it, a negative value
    included, do the same. *)
Theorem call_fallback_ignores_eps_std (E : env) (eps eps' : R) (sd : option Z)
    (o : Orthogonal) (shape0 : list nat) (g : RNG) :
  ~ supported_rank shape0 ->
  ConvolutionAware.__call__ E
    {| ConvolutionAware.eps_std := eps; ConvolutionAware.seed := sd;
       ConvolutionAware.orthogonal := o |} shape0 g
  = ConvolutionAware.__call__ E
      {| ConvolutionAware.eps_std := eps'; ConvolutionAware.seed := sd;
         ConvolutionAware.orthogonal := o |} shape0 g.
Proof.
  intros Hrank. unfold supported_rank in Hrank.
  destruct shape0 as [|a [|b [|c [|d [|e [|f ?]]]]]];
    cbn [length] in Hrank; try lia; reflexivity.
Qed.

Lemma call_fallback_ignores_eps_std_witness :
  ConvolutionAware.__call__ reference_env
    {| ConvolutionAware.eps_std := (-1)%R; ConvolutionAware.seed := None;
       ConvolutionAware.orthogonal := Orthogonal_init |} [64; 10] reference_rng
  = ConvolutionAware.__call__ reference_env
      {| ConvolutionAware.eps_std := 1%R; ConvolutionAware.seed := None;
         ConvolutionAware.orthogonal := Orthogonal_init |} [64; 10] reference_rng.
Proof.
  apply (call_fallback_ignores_eps_std reference_env (-1) 1 None Orthogonal_init
           [64; 10] reference_rng).
  unfold supported_rank. cbn. lia.
Defined.

(** X9. On a matrix shape with no rows, [(0, columns)], [__call__] raises
    [ZeroDivisionError] at [2 / fan_in], before the fallback initializer is
    reached. *)
Theorem call_matrix_zero_rows (E : env) (self : ConvolutionAware.t)
    (columns : nat) (g : RNG) :
  seed_ok (ConvolutionAware.seed self) ->
  ConvolutionAware.__call__ E self [0; columns] g
  = (Raise ZeroDivisionError, reseed E (ConvolutionAware.seed self) g).
Proof.
  intros Hseed. unfold ConvolutionAware.__call__. unfold bind at 1.
  rewrite (seeding_returns E _ g Hseed). reflexivity.
Qed.

Lemma call_matrix_zero_rows_witness :
  ConvolutionAware.__call__ reference_env
    (ConvolutionAware.__init__ ConvolutionAware.default_eps_std None) [0; 5] reference_rng
  = (Raise ZeroDivisionError, reference_rng).
Proof.
  exact (call_matrix_zero_rows reference_env
           (ConvolutionAware.__init__ ConvolutionAware.default_eps_std None)
           5 reference_rng I).
Defined.

(** X10. On a shape of rank 3, 4 or 5 whose last entry, the number of
    filters, is zero and whose other entries are positive, the loop runs no
    iteration, the bank is the empty one-dimensional array, and [__call__]
    raises [ValueError] when it transposes it. *)
Theorem call_no_filters (E : env) (self : ConvolutionAware.t)
    (front : list nat) (g : RNG) :
  seed_ok (ConvolutionAware.seed self) ->
  supported_rank (front ++ [0]) -> Forall (lt 0) front ->
  ConvolutionAware.__call__ E self (front ++ [0]) g
  = (Raise ValueError, reseed E (ConvolutionAware.seed self) g).
Proof.
  intros Hseed Hrank Hpos. unfold supported_rank in Hrank. rewrite length_app in Hrank.
  cbn [length] in Hrank.
  unfold ConvolutionAware.__call__. unfold bind at 1.
  rewrite (seeding_returns E _ g Hseed).
  destruct front as [|a [|b [|c [|d [|e ?]]]]]; cbn [length] in Hrank; try lia;
    repeat match goal with
           | H : Forall _ (_ :: _) |- _ => inversion H; clear H; subst
           end;
    repeat match goal with
           | H : 0 < ?n |- _ => destruct n; [lia|clear H]
           end;
    cbn [app]; unfold _compute_fans; cbn [length];
    destruct (image_data_format E); reflexivity.
Qed.

Lemma call_no_filters_witness :
  ConvolutionAware.__call__ reference_env
    (ConvolutionAware.__init__ ConvolutionAware.default_eps_std None)
    ([3; 3; 4] ++ [0]) reference_rng
  = (Raise ValueError, reference_rng).
Proof.
  refine (call_no_filters reference_env
            (ConvolutionAware.__init__ ConvolutionAware.default_eps_std None)
            [3; 3; 4] reference_rng I _ _).
  - right. left. reflexivity.
  - repeat constructor.
Defined.

(** X11. With a configured seed outside [0 .. 2**32 - 1], [__call__] raises
    [ValueError] at [np.random.seed], for every shape, and leaves the
    generator as it was. *)
Theorem call_seed_out_of_range (E : env) (eps : R) (s : Z) (o : Orthogonal)
    (shape0 : list nat) (g : RNG) :
  ~ (0 <= s < 2 ^ 32)%Z ->
  ConvolutionAware.__call__ E
    {| ConvolutionAware.eps_std := eps; ConvolutionAware.seed := Some s;
       ConvolutionAware.orthogonal := o |} shape0 g
  = (Raise ValueError, g).
Proof.
  intros Hs. unfold ConvolutionAware.__call__. cbn [ConvolutionAware.seed].
  unfold bind at 1. unfold np_random_seed.
  destruct (Z.leb_spec 0 s), (Z.ltb_spec s (2 ^ 32)); try lia; reflexivity.
Qed.

Lemma call_seed_out_of_range_witness :
  ConvolutionAware.__call__ reference_env
    {| ConvolutionAware.eps_std := ConvolutionAware.default_eps_std;
       ConvolutionAware.seed := Some (-1)%Z;
       ConvolutionAware.orthogonal := Orthogonal_init |} [3; 3; 4; 8] reference_rng
  = (Raise ValueError, reference_rng).
Proof.
  apply (call_seed_out_of_range reference_env ConvolutionAware.default_eps_std (-1)
           Orthogonal_init [3; 3; 4; 8] reference_rng).
  lia.
Defined.

(** ** Where each kernel ends up in the array returned *)

Lemma lookup_concat_block {A} (ls : list (list A)) (m b k : nat) :
  Forall (fun l => length l = m) ls -> b < length ls -> k < m ->
  concat ls !! (b * m + k) = nth b ls [] !! k.
Proof.
  intros Hall Hb Hk.
  assert (Hin : In (nth b ls []) ls) by (apply nth_In; exact Hb).
  rewrite List.Forall_forall in Hall. pose proof (Hall _ Hin) as Hlen.
  assert (Hd : exists d : A, True).
  { destruct (nth b ls []) as [|d ?]; [simpl in Hlen; lia|exists d; exact I]. }
  destruct Hd as [d _].
  rewrite (lookup_nth_lt (nth b ls []) k d) by lia.
  rewrite (lookup_nth_lt (concat ls) (b * m + k) d).
  - f_equal. apply nth_concat_block; try assumption.
    apply List.Forall_forall. exact Hall.
  - rewrite (length_concat_uniform ls m) by (apply List.Forall_forall; exact Hall). nia.
Qed.

(** Element [(k, j, ...)] of the assembled bank is an element of the kernel
    of filter [k] and channel [j]. *)
Lemma bank_lookup (init : list (list (ndarray R))) (ks : list nat)
    (stack filters k j o : nat) :
  length init = filters ->
  Forall (fun fs => length fs = stack
                    /\ Forall (fun a : ndarray R => shape a = ks /\ well_formed a) fs) init ->
  k < filters -> j < stack -> o < np_prod ks ->
  data (np_stack (map np_stack init)) !! (k * (stack * np_prod ks) + (j * np_prod ks + o))
  = data (kernel_of init k j) !! o.
Proof.
  intros Hlen Hall Hk Hj Ho.
  assert (Hfs : In (nth k init []) init) by (apply nth_In; lia).
  rewrite List.Forall_forall in Hall. destruct (Hall _ Hfs) as [Hfl Hfa].
  unfold np_stack at 1. cbn [data].
  rewrite (lookup_concat_block _ (stack * np_prod ks)).
  - rewrite (nth_indep _ [] (data (np_stack []))) by (rewrite !length_map; lia).
    rewrite map_nth, (map_nth np_stack init [] k).
    unfold np_stack. cbn [data].
    rewrite (lookup_concat_block _ (np_prod ks)).
    + unfold kernel_of.
      rewrite (nth_indep _ [] (data {| shape := []; data := @nil R |}))
        by (rewrite length_map; lia).
      rewrite map_nth. reflexivity.
    + apply Forall_map. eapply Forall_impl; [exact Hfa|].
      intros a [Hs Hw]. cbn. unfold well_formed in Hw. rewrite Hw, Hs. reflexivity.
    + rewrite length_map. lia.
    + exact Ho.
  - apply Forall_map, Forall_map, List.Forall_forall. intros fs Hin.
    destruct (Hall _ Hin) as [Hl Ha]. cbn beta.
    rewrite (np_stack_length fs ks Ha), Hl. reflexivity.
  - rewrite !length_map. lia.
  - nia.
Qed.

(** The pieces of a call that returned on the spectral path. *)
Lemma call_layout_gen (E : env) (self : ConvolutionAware.t) (shape0 : list nat) (g : RNG)
    (axes ks : list nat) (ifft : ndarray R -> list nat -> ndarray R)
    (stack filters : nat) (x : R) (fan_out : number) :
  ConvolutionAware.dispatch E shape0 = Some (axes, ks, ifft, stack, filters) ->
  _compute_fans shape0 (image_data_format E) = (NpScalar x, fan_out) ->
  (0 < x)%R ->
  svd_contract E ->
  (forall a, shape (ifft a ks) = ks /\ well_formed (ifft a ks)) ->
  ~ (ConvolutionAware.eps_std self < 0)%R ->
  seed_ok (ConvolutionAware.seed self) ->
  1 <= stack -> 1 <= filters -> Forall (lt 0) ks ->
  is_axes (S (S (length ks))) axes = true ->
  exists r init g' p,
    ConvolutionAware.__call__ E self shape0 g = (Ok (NpArray r), g')
    /\ filter_loop E self ks ifft stack filters
         (reseed E (ConvolutionAware.seed self) g) = (Ok init, g')
    /\ length init = filters
    /\ Forall (fun fs => length fs = stack
                         /\ Forall (fun a : ndarray R => shape a = ks /\ well_formed a) fs)
              init
    /\ r = from_view
             {| shape := filters :: stack :: ks;
                data := map (fun y => np_multiply (Finite y) p)
                            (data (np_stack (map np_stack init))) |}
             (map (fun ax => nth ax (c_view (filters :: stack :: ks)) (0, 0)) axes).
Proof.
  intros Hdisp Hfans Hx Hsvd Hifft He Hseed Hst Hfl Hks Hax.
  destruct (returns_for_each_append
              (fun _ : nat => ConvolutionAware.make_filters E self ks (rfft_shape ks) ifft stack)
              (fun fs => length fs = stack
                         /\ Forall (fun a : ndarray R => shape a = ks /\ well_formed a) fs)
              (seq 0 filters) [] (reseed E (ConvolutionAware.seed self) g)
              ltac:(intros ? g3; apply make_filters_returns; assumption)
              ltac:(constructor))
    as (init & g' & Hloop & Hlen & Hall).
  cbn [length] in Hlen. rewrite length_seq in Hlen.
  assert (Hstacks : Forall (fun a : ndarray R => shape a = stack :: ks /\ well_formed a)
                      (map np_stack init)).
  { apply Forall_map. eapply Forall_impl; [exact Hall|].
    intros fs [Hfs Hshape]. cbn beta.
    assert (Hne : fs <> []) by (destruct fs; [cbn in Hfs; lia|discriminate]).
    split; [rewrite (np_stack_shape fs ks Hne Hshape), Hfs; reflexivity|].
    apply (np_stack_well_formed fs ks Hne Hshape). }
  assert (Hne : map np_stack init <> []).
  { destruct init; [cbn in Hlen; lia|discriminate]. }
  assert (Hbs : shape (np_stack (map np_stack init)) = filters :: stack :: ks).
  { rewrite (np_stack_shape _ _ Hne Hstacks), length_map, Hlen. reflexivity. }
  eexists _, init, g', _. split; [|split; [exact Hloop|split; [exact Hlen|split; [exact Hall|reflexivity]]]].
  unfold ConvolutionAware.__call__. unfold bind at 1.
  rewrite (seeding_returns E _ g Hseed). rewrite Hfans, Hdisp. cbn [py_div_2].
  unfold bind at 1. unfold lift at 1.
  rewrite (np_fft_rfft_shape_pos ks Hks). unfold bind at 1. unfold lift at 1.
  unfold filter_loop in Hloop. unfold bind at 1. rewrite Hloop.
  unfold bind, lift, ret, np_transpose.
  unfold ConvolutionAware._scale_filters at 1. cbn [shape].
  rewrite Hbs. cbn [length]. rewrite Hax.
  unfold ConvolutionAware._scale_filters. rewrite Hbs. reflexivity.
Qed.

Lemma layout_item (init : list (list (ndarray R))) (ks : list nat)
    (stack filters : nat) (p : npfloat) (v : view) (idx : list nat) (k j o : nat) (x : R) :
  length init = filters ->
  Forall (fun fs => length fs = stack
                    /\ Forall (fun a : ndarray R => shape a = ks /\ well_formed a) fs) init ->
  k < filters -> j < stack -> o < np_prod ks ->
  Forall2 (fun i q => i < fst q) idx v ->
  offset idx v = k * (stack * np_prod ks) + (j * np_prod ks + o) ->
  data (kernel_of init k j) !! o = Some x ->
  item (from_view
          {| shape := filters :: stack :: ks;
             data := map (fun y => np_multiply (Finite y) p)
                         (data (np_stack (map np_stack init))) |} v) idx
  = Some (np_multiply (Finite x) p).
Proof.
  intros Hlen Hall Hk Hj Ho Hidx Hoff Hx.
  unfold item, from_view. cbn [shape data].
  rewrite list_lookup_fmap, (walk_lookup v idx Hidx). cbn [fmap option_fmap option_map].
  rewrite Hoff, nth_lookup, list_lookup_fmap.
  rewrite (bank_lookup init ks stack filters k j o Hlen Hall Hk Hj Ho), Hx.
  reflexivity.
Qed.

Lemma kernel_of_item (init : list (list (ndarray R))) (ks : list nat)
    (stack filters k j o : nat) :
  length init = filters ->
  Forall (fun fs => length fs = stack
                    /\ Forall (fun a : ndarray R => shape a = ks /\ well_formed a) fs) init ->
  k < filters -> j < stack -> o < np_prod ks ->
  shape (kernel_of init k j) = ks /\ exists x, data (kernel_of init k j) !! o = Some x.
Proof.
  intros Hlen Hall Hk Hj Ho.
  assert (Hfs : In (nth k init []) init) by (apply nth_In; lia).
  rewrite List.Forall_forall in Hall. destruct (Hall _ Hfs) as [Hfl Hfa].
  assert (Ha : In (kernel_of init k j) (nth k init [])) by (apply nth_In; lia).
  rewrite List.Forall_forall in Hfa. destruct (Hfa _ Ha) as [Hs Hw].
  split; [exact Hs|]. apply lookup_lt_is_Some_2.
  unfold well_formed in Hw. rewrite Hw, Hs. exact Ho.
Qed.

(** X12. Rank 3: entry [(i, j, k)] of the array returned is sample [i] of
    the kernel the loop built for filter [k] and input channel [j], times a
    factor common to all entries. *)
Theorem call_layout_rank3 (E : env) (self : ConvolutionAware.t)
    (row stack_size filters_size : nat) (g : RNG) :
  svd_contract E -> irfft_contract E ->
  ~ (ConvolutionAware.eps_std self < 0)%R ->
  seed_ok (ConvolutionAware.seed self) ->
  0 < row -> 0 < stack_size -> 0 < filters_size ->
  exists r init g' p,
    ConvolutionAware.__call__ E self [row; stack_size; filters_size] g
    = (Ok (NpArray r), g')
    /\ filter_loop E self [row] (fun x s => np_fft_irfft E x (nth 0 s 0))
         stack_size filters_size (reseed E (ConvolutionAware.seed self) g)
       = (Ok init, g')
    /\ forall i j k, i < row -> j < stack_size -> k < filters_size ->
         exists x, item (kernel_of init k j) [i] = Some x
                   /\ item r [i; j; k] = Some (np_multiply (Finite x) p).
Proof.
  intros Hsvd Hirfft He Hseed Hrow Hst Hfl.
  destruct (dispatch_supported E [row; stack_size; filters_size] Hirfft
              ltac:(left; reflexivity) ltac:(repeat constructor; assumption))
    as (axes & ks & ifft & stack & filters & x & fo & Hdisp & Hfans & Hx & _ & Hifft
        & Hs1 & Hf1 & Hks & Hax & _).
  destruct (call_layout_gen E self _ g axes ks ifft stack filters x fo
              Hdisp Hfans Hx Hsvd Hifft He Hseed Hs1 Hf1 Hks Hax)
    as (r & init & g' & p & Hcall & Hloop & Hlen & Hall & Hr).
  cbn in Hdisp. injection Hdisp as <- <- <- <- <-.
  exists r, init, g', p. split; [exact Hcall|split; [exact Hloop|]].
  intros i j k Hi Hj Hk.
  destruct (kernel_of_item init [row] stack_size filters_size k j (i * 1 + 0)
              Hlen Hall Hk Hj ltac:(cbn; lia)) as [Hsh [y Hy]].
  exists y. split; [unfold item; rewrite Hsh; exact Hy|].
  rewrite Hr.
  apply (layout_item init [row] stack_size filters_size p _ [i; j; k] k j (i * 1 + 0) y
           Hlen Hall Hk Hj ltac:(cbn; lia)); [|cbn; lia|exact Hy].
  repeat constructor; cbn; assumption.
Qed.

Lemma call_layout_rank3_witness :
  exists r init g' p,
    ConvolutionAware.__call__ reference_env (ConvolutionAware.__init__ 0.05 None)
      [3; 2; 4] reference_rng
    = (Ok (NpArray r), g')
    /\ filter_loop reference_env (ConvolutionAware.__init__ 0.05 None) [3]
         (fun x s => np_fft_irfft reference_env x (nth 0 s 0)) 2 4
         (reseed reference_env None reference_rng)
       = (Ok init, g')
    /\ forall i j k, i < 3 -> j < 2 -> k < 4 ->
         exists x, item (kernel_of init k j) [i] = Some x
                   /\ item r [i; j; k] = Some (np_multiply (Finite x) p).
Proof.
  apply (call_layout_rank3 reference_env (ConvolutionAware.__init__ 0.05 None) 3 2 4
           reference_rng reference_svd_contract reference_irfft_contract).
  - cbn. lra.
  - exact I.
  - lia.
  - lia.
  - lia.
Defined.

Lemma ravel_2_lt (r c i j : nat) : i < r -> j < c -> i * (c * 1) + (j * 1 + 0) < r * (c * 1).
Proof. intros Hi Hj. nia. Qed.

Lemma ravel_3_lt (a b c i j k : nat) :
  i < a -> j < b -> k < c ->
  i * (b * (c * 1)) + (j * (c * 1) + (k * 1 + 0)) < a * (b * (c * 1)).
Proof.
  intros Hi Hj Hk.
  pose proof (ravel_2_lt b c j k Hj Hk) as H2.
  assert (i * (b * (c * 1)) + b * (c * 1) <= a * (b * (c * 1))) by nia.
  lia.
Qed.

(** X13. Rank 4: entry [(i, j, k, l)] of the array returned is sample
    [(i, j)] of the kernel the loop built for filter [k] and input channel
    [l], times a factor common to all entries: the third axis runs over the
    filters and the fourth over the input channels. *)
Theorem call_layout_rank4 (E : env) (self : ConvolutionAware.t)
    (row column stack_size filters_size : nat) (g : RNG) :
  svd_contract E -> irfft_contract E ->
  ~ (ConvolutionAware.eps_std self < 0)%R ->
  seed_ok (ConvolutionAware.seed self) ->
  0 < row -> 0 < column -> 0 < stack_size -> 0 < filters_size ->
  exists r init g' p,
    ConvolutionAware.__call__ E self [row; column; stack_size; filters_size] g
    = (Ok (NpArray r), g')
    /\ filter_loop E self [row; column] (np_fft_irfft2 E)
         stack_size filters_size (reseed E (ConvolutionAware.seed self) g)
       = (Ok init, g')
    /\ forall i j k l, i < row -> j < column -> k < filters_size -> l < stack_size ->
         exists x, item (kernel_of init k l) [i; j] = Some x
                   /\ item r [i; j; k; l] = Some (np_multiply (Finite x) p).
Proof.
  intros Hsvd Hirfft He Hseed Hrow Hcol Hst Hfl.
  destruct (dispatch_supported E [row; column; stack_size; filters_size] Hirfft
              ltac:(right; left; reflexivity) ltac:(repeat constructor; assumption))
    as (axes & ks & ifft & stack & filters & x & fo & Hdisp & Hfans & Hx & _ & Hifft
        & Hs1 & Hf1 & Hks & Hax & _).
  destruct (call_layout_gen E self _ g axes ks ifft stack filters x fo
              Hdisp Hfans Hx Hsvd Hifft He Hseed Hs1 Hf1 Hks Hax)
    as (r & init & g' & p & Hcall & Hloop & Hlen & Hall & Hr).
  cbn in Hdisp. injection Hdisp as <- <- <- <- <-.
  exists r, init, g', p. split; [exact Hcall|split; [exact Hloop|]].
  intros i j k l Hi Hj Hk Hl.
  pose proof (ravel_2_lt row column i j Hi Hj) as Ho.
  destruct (kernel_of_item init [row; column] stack_size filters_size k l
              (i * (column * 1) + (j * 1 + 0)) Hlen Hall Hk Hl Ho) as [Hsh [y Hy]].
  exists y. split; [unfold item; rewrite Hsh; exact Hy|].
  rewrite Hr.
  apply (layout_item init [row; column] stack_size filters_size p _ [i; j; k; l] k l
           (i * (column * 1) + (j * 1 + 0)) y Hlen Hall Hk Hl Ho); [|cbn; lia|exact Hy].
  repeat constructor; cbn; assumption.
Qed.

Lemma call_layout_rank4_witness :
  exists r init g' p,
    ConvolutionAware.__call__ reference_env (ConvolutionAware.__init__ 0.05 None)
      [3; 3; 2; 4] reference_rng
    = (Ok (NpArray r), g')
    /\ filter_loop reference_env (ConvolutionAware.__init__ 0.05 None) [3; 3]
         (np_fft_irfft2 reference_env) 2 4
         (reseed reference_env None reference_rng)
       = (Ok init, g')
    /\ forall i j k l, i < 3 -> j < 3 -> k < 4 -> l < 2 ->
         exists x, item (kernel_of init k l) [i; j] = Some x
                   /\ item r [i; j; k; l] = Some (np_multiply (Finite x) p).
Proof.
  apply (call_layout_rank4 reference_env (ConvolutionAware.__init__ 0.05 None) 3 3 2 4
           reference_rng reference_svd_contract reference_irfft_contract).
  - cbn. lra.
  - exact I.
  - lia.
  - lia.
  - lia.
  - lia.
Defined.

(** X14. Rank 5: entry [(a, b, c, d, e)] of the array returned is sample
    [(e, a, b)] of the kernel the loop built for filter [c] and input
    channel [d], times a factor common to all entries. *)
Theorem call_layout_rank5 (E : env) (self : ConvolutionAware.t)
    (x y z stack_size filters_size : nat) (g : RNG) :
  svd_contract E -> irfft_contract E ->
  ~ (ConvolutionAware.eps_std self < 0)%R ->
  seed_ok (ConvolutionAware.seed self) ->
  0 < x -> 0 < y -> 0 < z -> 0 < stack_size -> 0 < filters_size ->
  exists r init g' p,
    ConvolutionAware.__call__ E self [x; y; z; stack_size; filters_size] g
    = (Ok (NpArray r), g')
    /\ filter_loop E self [x; y; z] (np_fft_irfftn E)
         stack_size filters_size (reseed E (ConvolutionAware.seed self) g)
       = (Ok init, g')
    /\ forall a b c d e, a < y -> b < z -> c < filters_size -> d < stack_size -> e < x ->
         exists v, item (kernel_of init c d) [e; a; b] = Some v
                   /\ item r [a; b; c; d; e] = Some (np_multiply (Finite v) p).
Proof.
  intros Hsvd Hirfft He Hseed Hxp Hyp Hzp Hst Hfl.
  destruct (dispatch_supported E [x; y; z; stack_size; filters_size] Hirfft
              ltac:(right; right; reflexivity) ltac:(repeat constructor; assumption))
    as (axes & ks & ifft & stack & filters & fan & fo & Hdisp & Hfans & Hx & _ & Hifft
        & Hs1 & Hf1 & Hks & Hax & _).
  destruct (call_layout_gen E self _ g axes ks ifft stack filters fan fo
              Hdisp Hfans Hx Hsvd Hifft He Hseed Hs1 Hf1 Hks Hax)
    as (r & init & g' & p & Hcall & Hloop & Hlen & Hall & Hr).
  cbn in Hdisp. injection Hdisp as <- <- <- <- <-.
  exists r, init, g', p. split; [exact Hcall|split; [exact Hloop|]].
  intros a b c d e Ha Hb Hc Hd Hex.
  pose proof (ravel_3_lt x y z e a b Hex Ha Hb) as Ho.
  destruct (kernel_of_item init [x; y; z] stack_size filters_size c d
              (e * (y * (z * 1)) + (a * (z * 1) + (b * 1 + 0))) Hlen Hall Hc Hd Ho)
    as [Hsh [v Hv]].
  exists v. split; [unfold item; rewrite Hsh; exact Hv|].
  rewrite Hr.
  apply (layout_item init [x; y; z] stack_size filters_size p _ [a; b; c; d; e] c d
           (e * (y * (z * 1)) + (a * (z * 1) + (b * 1 + 0))) v Hlen Hall Hc Hd Ho);
    [|cbn; lia|exact Hv].
  repeat constructor; cbn; assumption.
Qed.

Lemma call_layout_rank5_witness :
  exists r init g' p,
    ConvolutionAware.__call__ reference_env (ConvolutionAware.__init__ 0.05 None)
      [2; 3; 2; 2; 3] reference_rng
    = (Ok (NpArray r), g')
    /\ filter_loop reference_env (ConvolutionAware.__init__ 0.05 None) [2; 3; 2]
         (np_fft_irfftn reference_env) 2 3
         (reseed reference_env None reference_rng)
       = (Ok init, g')
    /\ forall a b c d e, a < 3 -> b < 2 -> c < 3 -> d < 2 -> e < 2 ->
         exists v, item (kernel_of init c d) [e; a; b] = Some v
                   /\ item r [a; b; c; d; e] = Some (np_multiply (Finite v) p).
Proof.
  apply (call_layout_rank5 reference_env (ConvolutionAware.__init__ 0.05 None) 2 3 2 2 3
           reference_rng reference_svd_contract reference_irfft_contract).
  - cbn. lra.
  - exact I.
  - lia.
  - lia.
  - lia.
  - lia.
  - lia.
Defined.

(** ** A spatial extent of zero *)

(** X15. On a shape of rank 3, 4 or 5 one of whose spatial extents is zero,
    [__call__] raises [ValueError] where it asks the forward transform for
    the frequency-domain shape of the kernel: after the seeding and
    [2 / fan_in], which divides NumPy scalars and raises nothing, and
    before the loop draws a sample. *)
Theorem call_zero_extent (E : env) (self : ConvolutionAware.t)
    (shape0 : list nat) (g : RNG) :
  seed_ok (ConvolutionAware.seed self) ->
  supported_rank shape0 ->
  In 0 (take (length shape0 - 2) shape0) ->
  ConvolutionAware.__call__ E self shape0 g
  = (Raise ValueError, reseed E (ConvolutionAware.seed self) g).
Proof.
  intros Hseed Hrank Hzero. unfold supported_rank in Hrank.
  unfold ConvolutionAware.__call__. unfold bind at 1.
  rewrite (seeding_returns E _ g Hseed).
  destruct shape0 as [|a [|b [|c [|d [|e [|f ?]]]]]]; cbn [length] in Hrank; try lia;
    cbn in Hzero; unfold _compute_fans; cbn [length];
    destruct (image_data_format E);
    repeat match goal with
           | H : _ \/ _ |- _ => destruct H as [H|H]
           | H : False |- _ => contradiction
           end;
    subst;
    cbn [py_div_2 ConvolutionAware.dispatch]; unfold bind at 1; unfold lift at 1;
    unfold bind at 1; unfold lift at 1; unfold np_fft_rfft_shape;
    cbn [forallb Nat.ltb Nat.leb andb];
    rewrite ?andb_false_r; reflexivity.
Qed.

Lemma call_zero_extent_witness :
  ConvolutionAware.__call__ reference_env
    (ConvolutionAware.__init__ ConvolutionAware.default_eps_std None)
    [3; 0; 4; 8] reference_rng
  = (Raise ValueError, reference_rng).
Proof.
  refine (call_zero_extent reference_env
            (ConvolutionAware.__init__ ConvolutionAware.default_eps_std None)
            [3; 0; 4; 8] reference_rng I _ _).
  - right. left. reflexivity.
  - cbn. right. left. reflexivity.
Defined.
